(** * PySAR: ingestion (load_data.py) and re-referencing (seed_data.py)

    A shallow embedding of the two core programs of PySAR v1.0:

    - [LoadData]: [mode], [check_file_size], [check_existed_hdf5_file] and
      [roipac2multi_group_hdf5] of [pysar/load_data.py];
    - [SeedData]: [seed_attributes], [seed_file_reference_value],
      [random_select_reference_yx], [select_max_coherence_yx],
      [manual_select_reference_yx], [seed_file_inps] and the coordinate
      checks and seeding loop of [main] of [pysar/seed_data.py];
    - after the two modules: [nearest], [read_seed_template2inps] and
      [read_seed_reference2inps] of [pysar/seed_data.py], and
      [closest_weather_product_time] of [pysar/tropcor_pyaps.py].

    Python dictionaries are finite maps, Python objects that hold either
    [None], an integer or a string are values of [pyval], exceptions and
    [sys.exit] are outcomes of a state-and-exception monad over the file
    system.  Raster samples are exact rationals or NaN: rounding of
    float32 arithmetic is not modelled. *)

From Stdlib Require Import QArith Qabs Ascii DecimalString.
From stdpp Require Import gmap strings list fin_maps sorting pretty.

Open Scope string_scope.
Open Scope nat_scope.
Open Scope list_scope.

(** ** Python values *)

(** What an attribute, [inps.ref_y] or a size entry may hold. *)
Inductive pyval :=
| PNone
| PInt (z : Z)
| PStr (s : string).

Global Instance pyval_eq_dec : EqDecision pyval.
Proof. solve_decision. Defined.

Global Instance pyval_countable : Countable pyval.
Proof.
  refine (inj_countable'
    (λ v, match v with
          | PNone => inl ()
          | PInt z => inr (inl z)
          | PStr s => inr (inr s)
          end)
    (λ c, match c with
          | inl _ => PNone
          | inr (inl z) => PInt z
          | inr (inr s) => PStr s
          end) _).
  by intros [].
Defined.

(** Python truth value: [None], [0] and [''] are false. *)
Definition truthy (v : pyval) : bool :=
  match v with
  | PNone => false
  | PInt z => negb (z =? 0)%Z
  | PStr s => negb (String.eqb s EmptyString)
  end.

(** [str(value)]. *)
Definition py_str (v : pyval) : string :=
  match v with
  | PNone => "None"
  | PInt z => pretty z
  | PStr s => s
  end.

Abbreviation attrs := (gmap string pyval).

(** ** Strings: the [os.path] and [str] operations the programs use *)

(** [sub in s]. *)
Fixpoint contains (sub s : string) : bool :=
  String.prefix sub s ||
  match s with
  | EmptyString => false
  | String _ s' => contains sub s'
  end.

(** [os.path.basename]: what follows the last slash. *)
Fixpoint basename (s : string) : string :=
  match s with
  | EmptyString => EmptyString
  | String c s' =>
      if contains "/" s' then basename s'
      else if Ascii.eqb c "/"%char then s' else s
  end.

(** [os.path.dirname]: what precedes the last slash (the root keeps its
    slash). *)
Fixpoint dirname_aux (s : string) : string :=
  match s with
  | EmptyString => EmptyString
  | String c s' =>
      if contains "/" s' then String c (dirname_aux s') else EmptyString
  end.

Definition dirname (s : string) : string :=
  match s, dirname_aux s with
  | String c _, EmptyString => if Ascii.eqb c "/"%char then "/" else EmptyString
  | _, d => d
  end.

(** [s.split(c)]. *)
Fixpoint split_on (c : ascii) (s : string) : list string :=
  match s with
  | EmptyString => [EmptyString]
  | String a s' =>
      if Ascii.eqb a c then EmptyString :: split_on c s'
      else match split_on c s' with
           | [] => [String a EmptyString]
           | w :: ws => String a w :: ws
           end
  end.

(** [sorted(...)] on byte strings. *)
Definition sorted (l : list string) : list string := merge_sort String.le l.

(** ** Rasters *)

(** A sample: [None] is NaN. *)
Abbreviation pixel := (option Q).

Abbreviation raster := (list (list pixel)).

(** A boolean grid, as [~np.isnan(stack)] or [coh >= min_coh]. *)
Abbreviation bgrid := (list (list bool)).

(** The length of every row: two grids of the same shape have the same
    rows and columns. *)
Definition shape {A} (m : list (list A)) : list nat := length <$> m.

Definition pixel_add (a b : pixel) : pixel :=
  match a, b with
  | Some a, Some b => Some (a + b)%Q
  | _, _ => None
  end.

Definition pixel_sub (a r : pixel) : pixel :=
  match a, r with
  | Some a, Some r => Some (a - r)%Q
  | _, _ => None
  end.

(** [data -= r] for a scalar [r]. *)
Definition raster_sub (data : raster) (r : pixel) : raster :=
  map (map (λ a, pixel_sub a r)) data.

(** [a + b] on arrays, which have to agree in shape. *)
Definition raster_add (a b : raster) : option raster :=
  if decide (shape a = shape b)
  then Some (zip_with (zip_with pixel_add) a b) else None.

(** [data[cond] = v]: the boolean index has to agree in shape. *)
Definition assign_where (data : raster) (cond : bgrid) (v : pixel)
    : option raster :=
  if decide (shape data = shape cond)
  then Some (zip_with (zip_with (λ p (c : bool), if c then v else p)) data cond)
  else None.

(** A numpy index into an axis of length [n]: negative ones count from
    the end. *)
Definition np_idx (n : nat) (i : Z) : option nat :=
  if decide (0 ≤ i < Z.of_nat n)%Z then Some (Z.to_nat i)
  else if decide (- Z.of_nat n ≤ i < 0)%Z then Some (Z.to_nat (Z.of_nat n + i))
  else None.

(** [m[y, x]]. *)
Definition index2 {A} (m : list (list A)) (y x : Z) : option A :=
  i ← np_idx (length m) y;
  row ← m !! i;
  j ← np_idx (length row) x;
  row !! j.

(** [l[a:b]]. *)
Definition slice_bound (n : nat) (i : Z) : nat :=
  if decide (i < 0)%Z then Z.to_nat (Z.max 0 (Z.of_nat n + i))
  else Z.to_nat (Z.min i (Z.of_nat n)).

Definition py_slice {A} (l : list A) (a b : Z) : list A :=
  let a' := slice_bound (length l) a in
  let b' := slice_bound (length l) b in
  take (b' - a') (drop a' l).

(** [np.mean] of a list of samples: NaN when empty or when a sample is
    NaN. *)
Definition mean (vs : list pixel) : pixel :=
  match vs with
  | [] => None
  | _ => s ← foldr pixel_add (Some 0%Q) vs;
         Some (s / inject_Z (Z.of_nat (length vs)))%Q
  end.

(** [int(v)] of an attribute: decimal digits with an optional minus. *)
Definition py_int (v : pyval) : option Z :=
  match v with
  | PInt z => Some z
  | PStr s => Z.of_int <$> DecimalString.NilZero.int_of_string s
  | PNone => None
  end.

(** ** Files *)

(** An epoch of a container: the dataset and the attributes of its
    subgroup (a dataset stored directly under the file-type group, as in
    a time series, has no attributes of its own). *)
Record h5node := H5Node { nattrs : attrs; ndata : raster }.

(** A file-type group: its attributes and its members by epoch id. *)
Record h5group := H5Group { gattrs : attrs; members : gmap string h5node }.

(** What a path of the file system holds. *)
Inductive content :=
| H5 (groups : gmap string h5group)          (* multi-epoch HDF5 container *)
| Raster (atr : attrs) (data : raster)       (* one raster with its attributes *)
| Rsc (atr : attrs)                          (* a .rsc text file *)
| Corrupt.                                   (* exists, yet unreadable *)

(** ** The world and the monad *)

(** The file system, the draws of the pseudorandom generator still to
    come, and the clicks of the user still to come. *)
Record world := World {
  fs : gmap string content;
  rng : list nat;
  clicks : list (nat * nat)
}.

Inductive exn :=
| SystemExit (code : Z)
| ValueError
| IndexError
| KeyError
| TypeError
| IOError.

Global Instance exn_eq_dec : EqDecision exn.
Proof. solve_decision. Defined.

(** A run returns, raises, or is still in a loop when the generator
    has no draw left. *)
Inductive outcome (A : Type) :=
| Val (a : A)
| Exc (e : exn)
| Loop.
Arguments Val {A} a.
Arguments Exc {A} e.
Arguments Loop {A}.

Definition M (A : Type) : Type := world → outcome A * world.

Definition ret {A} (a : A) : M A := λ w, (Val a, w).

Definition bind {A B} (m : M A) (k : A → M B) : M B :=
  λ w, match m w with
       | (Val a, w') => k a w'
       | (Exc e, w') => (Exc e, w')
       | (Loop, w') => (Loop, w')
       end.

Definition raise {A} (e : exn) : M A := λ w, (Exc e, w).

Definition get_fs : M (gmap string content) := λ w, (Val (fs w), w).

Definition set_fs (f : gmap string content) : M unit :=
  λ w, (Val tt, World f (rng w) (clicks w)).

(** [try: m except: h] with a bare [except], which also catches
    [SystemExit]. *)
Definition try_except {A} (m : M A) (h : M A) : M A :=
  λ w, match m w with
       | (Exc _, w') => h w'
       | r => r
       end.

(** An optional result whose absence raises [e]. *)
Definition or_raise {A} (e : exn) (o : option A) : M A :=
  match o with
  | Some a => ret a
  | None => raise e
  end.

Notation "x <- m ;; k" := (bind m (λ x, k))
  (at level 100, m at next level, right associativity).
Notation "m ;;; k" := (bind m (λ _, k))
  (at level 100, right associativity).

(** [for x in l: body], threading an accumulator. *)
Fixpoint for_each {A S} (l : list A) (body : S → A → M S) (s : S) : M S :=
  match l with
  | [] => ret s
  | x :: l' => s' <- body s x ;; for_each l' body s'
  end.

(** ** pysar._readfile (not part of the listed sources) *)

(** Modelled from the spec: [multi_group_hdf5_file] of [pysar._readfile],
    the file types stored one subgroup per epoch, with per-epoch
    attributes (§3, §6). *)
Definition multi_group_hdf5_file : list string :=
  ["interferograms"; "coherence"; "wrapped"; "snaphu_connect_component"].

(** Modelled from the spec: the name of the file-type group of a
    container, which holds one such group (§3). *)
Definition h5_file_type (groups : gmap string h5group) : option string :=
  head (sorted (map fst (map_to_list groups))).

(** Modelled from the spec: [readfile.read_attribute] of
    [pysar._readfile].  A raster file yields its attribute dictionary; a
    container yields the attributes of its first epoch (file types with
    per-epoch attributes) or of its file-type group, with [FILE_TYPE] set
    to the group name (§3, §6).  Anything else cannot be read. *)
Definition read_attribute (path : string) : M attrs :=
  f <- get_fs ;;
  match f !! path with
  | Some (Raster atr _) => ret atr
  | Some (H5 groups) =>
      k <- or_raise IOError (h5_file_type groups) ;;
      g <- or_raise KeyError (groups !! k) ;;
      if bool_decide (k ∈ multi_group_hdf5_file) then
        e <- or_raise IndexError (head (sorted (map fst (map_to_list (members g))))) ;;
        n <- or_raise KeyError (members g !! e) ;;
        ret (<["FILE_TYPE" := PStr k]> (nattrs n))
      else ret (<["FILE_TYPE" := PStr k]> (gattrs g))
  | _ => raise IOError
  end.

(** Modelled from the spec: [readfile.read] of [pysar._readfile] on a
    single raster: its samples and its attribute dictionary. *)
Definition read (path : string) : M (raster * attrs) :=
  f <- get_fs ;;
  match f !! path with
  | Some (Raster atr data) => ret (data, atr)
  | _ => raise IOError
  end.

(** Modelled from the spec: [readfile.read_roipac_rsc], the dictionary
    of a .rsc companion file (§4.2). *)
Definition read_roipac_rsc (path : string) : M attrs :=
  f <- get_fs ;;
  match f !! path with
  | Some (Rsc atr) => ret atr
  | _ => raise IOError
  end.

(** [atr[key]]. *)
Definition getitem (atr : attrs) (key : string) : M pyval :=
  or_raise KeyError (atr !! key).

(** A string operand of [+] in a message: anything else is a
    [TypeError]. *)
Definition as_str (v : pyval) : M string :=
  match v with
  | PStr s => ret s
  | _ => raise TypeError
  end.

(** ** HDF5 primitives of [h5py] *)

Definition isfile (path : string) : M bool :=
  f <- get_fs ;; ret (bool_decide (is_Some (f !! path))).

(** [os.system('rm '+path)]. *)
Definition rm (path : string) : M unit :=
  f <- get_fs ;; set_fs (delete path f).

(** The groups of a file opened as HDF5. *)
Definition h5_groups (path : string) : M (gmap string h5group) :=
  f <- get_fs ;;
  match f !! path with
  | Some (H5 groups) => ret groups
  | _ => raise IOError
  end.

(** [sorted(h5[k].keys())]. *)
Definition h5_epochs (path : string) (k : pyval) : M (list string) :=
  groups <- h5_groups path ;;
  match k with
  | PStr k =>
      g <- or_raise KeyError (groups !! k) ;;
      ret (sorted (map fst (map_to_list (members g))))
  | _ => raise KeyError
  end.

(** [h5py.File(path, 'w')]: a new, empty file in place of whatever was
    there. *)
Definition h5_open_w (path : string) : M unit :=
  f <- get_fs ;; set_fs (<[path := H5 ∅]> f).

(** [h5py.File(path, 'r+')]: the file has to exist and be HDF5. *)
Definition h5_open_rplus (path : string) : M unit :=
  h5_groups path ;;; ret tt.

(** [h5file.create_group(k)] at the top level. *)
Definition h5_create_group (path k : string) (atr : attrs) : M unit :=
  groups <- h5_groups path ;;
  match groups !! k with
  | Some _ => raise ValueError
  | None =>
      f <- get_fs ;;
      set_fs (<[path := H5 (<[k := H5Group atr ∅]> groups)]> f)
  end.

(** A new member [name] of group [k]: [create_group(name)] or
    [create_dataset(name)]; the name has to be free and not empty. *)
Definition h5_create_member (path k name : string) (n : h5node) : M unit :=
  groups <- h5_groups path ;;
  g <- or_raise KeyError (groups !! k) ;;
  if bool_decide (name = EmptyString ∨ is_Some (members g !! name)) then
    raise ValueError
  else
    f <- get_fs ;;
    set_fs (<[path :=
      H5 (<[k := H5Group (gattrs g) (<[name := n]> (members g))]> groups)]> f).

(** [group.attrs[key] = value] for every item of [atr]. *)
Definition h5_set_group_attrs (path k : string) (atr : attrs) : M unit :=
  groups <- h5_groups path ;;
  g <- or_raise KeyError (groups !! k) ;;
  f <- get_fs ;;
  set_fs (<[path := H5 (<[k := H5Group (atr ∪ gattrs g) (members g)]> groups)]> f).

(** ** pysar._pysar_utilities and pysar._writefile (not part of the
    listed sources) *)

(** Modelled from the spec: the sum of the rasters of a list, which
    have to agree in shape; the stack of [get_file_stack]. *)
Fixpoint stacking (acc : raster) (rs : list raster) : option raster :=
  match rs with
  | [] => Some acc
  | r :: rs' => acc' ← raster_add acc r; stacking acc' rs'
  end.

(** Modelled from the spec: the epochs of a group in the order of
    their ids, as the utilities go through them. *)
Definition epoch_nodes (g : h5group) : list h5node :=
  omap (λ e, members g !! e) (sorted (map fst (map_to_list (members g)))).

(** Modelled from the spec: the file-type group of a container, as
    the utilities open it. *)
Definition h5_main_group (path : string) : M (string * h5group) :=
  groups <- h5_groups path ;;
  k <- or_raise IOError (h5_file_type groups) ;;
  g <- or_raise KeyError (groups !! k) ;;
  ret (k, g).

(** ['' or None] is no file name. *)
Definition given (o : option string) : option string :=
  match o with
  | Some s => if String.eqb s EmptyString then None else Some s
  | None => None
  end.

(** Modelled from the spec: [ut.get_file_stack] of
    [pysar._pysar_utilities].  The stack of a container is defined
    exactly where every epoch is (their sum), that of a single raster is
    the raster; where the mask file is zero the stack is NaN, so that
    [~isnan(stack)] is the ValidityMask of §3. *)
Definition get_file_stack (File : string) (mask_file : option string)
    : M raster :=
  f <- get_fs ;;
  stack <- match f !! File with
           | Some (H5 _) =>
               kg <- h5_main_group File ;;
               match ndata <$> epoch_nodes kg.2 with
               | [] => raise IndexError
               | r :: rs => or_raise ValueError (stacking r rs)
               end
           | Some (Raster _ data) => ret data
           | _ => raise IOError
           end ;;
  match given mask_file with
  | Some maskFile =>
      m <- read maskFile ;;
      let zero := map (map (λ p : pixel,
                    match p with Some q => Qeq_bool q 0 | None => false end)) m.1 in
      or_raise IndexError (assign_where stack zero None)
  | None => ret stack
  end.

(** Modelled from the spec: the mean of [data] over the pixels of the
    box [(x0, y0, x1, y1)] where [mask] is true; one value of
    [spatial_average]. *)
Definition masked_mean (data : raster) (mask : bgrid) (box : Z * Z * Z * Z)
    : option pixel :=
  let '(x0, y0, x1, y1) := box in
  let d := (λ row, py_slice row x0 x1) <$> py_slice data y0 y1 in
  let m := (λ row, py_slice row x0 x1) <$> py_slice mask y0 y1 in
  if decide (shape d = shape m)
  then Some (mean (concat (zip_with
               (λ dr mr, fst <$> filter (λ pm, snd pm = true) (zip dr mr)) d m)))
  else None.

(** Modelled from the spec: [ut.spatial_average] of
    [pysar._pysar_utilities], the windowed masked mean of §4.3: one
    value per epoch, in the order of the epoch ids; one value for a
    single raster. *)
Definition spatial_average (File : string) (mask : bgrid)
    (box : Z * Z * Z * Z) : M (list pixel) :=
  f <- get_fs ;;
  match f !! File with
  | Some (H5 _) =>
      kg <- h5_main_group File ;;
      for_each (epoch_nodes kg.2) (λ acc n,
        v <- or_raise IndexError (masked_mean (ndata n) mask box) ;;
        ret (acc ++ [v])) []
  | Some (Raster _ data) =>
      v <- or_raise IndexError (masked_mean data mask box) ;;
      ret [v]
  | _ => raise IOError
  end.

(** Modelled from the spec: [ut.add_attribute] of
    [pysar._pysar_utilities], the mark mode of §4.5: the new attributes
    are written where the file keeps its attributes (every epoch of a
    file type with per-epoch attributes, else the file-type group or the
    raster), the samples are left as they are; the file is returned. *)
Definition add_attribute (File : string) (atr_new : attrs) : M string :=
  f <- get_fs ;;
  match f !! File with
  | Some (H5 groups) =>
      kg <- h5_main_group File ;;
      let '(k, g) := kg in
      let g' :=
        if bool_decide (k ∈ multi_group_hdf5_file)
        then H5Group (gattrs g)
               ((λ n, H5Node (atr_new ∪ nattrs n) (ndata n)) <$> members g)
        else H5Group (atr_new ∪ gattrs g) (members g) in
      set_fs (<[File := H5 (<[k := g']> groups)]> f) ;;;
      ret File
  | Some (Raster atr data) =>
      set_fs (<[File := Raster (atr_new ∪ atr) data]> f) ;;;
      ret File
  | _ => raise IOError
  end.

(** Modelled from the spec: [writefile.write] of [pysar._writefile]: a
    single raster with its attributes under the given name. *)
Definition write (data : raster) (atr : attrs) (outName : string) : M unit :=
  f <- get_fs ;; set_fs (<[outName := Raster atr data]> f).

(** * load_data.py *)

Module LoadData.

(** ** [mode] *)

Section mode.
Context `{Countable A}.

(** [counts[item] = counts.get(item, 0) + 1] over the list. *)
Definition count_items (thelist : list A) : gmap A nat :=
  foldl (λ counts item, <[item := default 0 (counts !! item) + 1]> counts)
        ∅ thelist.

(** The loop over [counts.items()]: the first key, in the order of the
    dictionary, whose count is above all counts seen before it. *)
Definition max_item (items : list (A * nat)) : option A * nat :=
  foldl (λ acc kv, if (acc.2 <? kv.2)%nat then (Some kv.1, kv.2) else acc)
        (None, 0) items.

(** [l.count(x)]. *)
Definition list_count `{EqDecision B} (x : B) (l : list B) : nat :=
  length (filter (x =.) l).

Definition mode (thelist : list A) : option A :=
  match thelist with
  | [] => None
  | [x] => Some x
  | _ =>
      let counts := count_items thelist in
      let '(maxitem, maxcount) := max_item (map_to_list counts) in
      if (maxcount =? 1)%nat then None
      else if (1 <? list_count maxcount (map snd (map_to_list counts)))%nat
           then None
      else maxitem
  end.

(** [v] is a most frequent value of the list. *)
Definition most_frequent (l : list A) (v : A) : Prop :=
  v ∈ l ∧ ∀ w, list_count w l ≤ list_count v l.

(** The policy of §4.1: a most frequent value occurs exactly once, or
    two values tie for most frequent. *)
Definition undefined_mode (l : list A) : Prop :=
  (∃ v, most_frequent l v ∧ list_count v l = 1)
  ∨ (∃ v w, v ≠ w ∧ most_frequent l v ∧ most_frequent l w).

(** The mode is undefined under that policy, and the only most
    frequent value otherwise. *)
Definition mode_policy (l : list A) : Prop :=
  (undefined_mode l → mode l = None)
  ∧ (¬ undefined_mode l →
     ∃ v, mode l = Some v ∧ most_frequent l v
          ∧ ∀ w, w ≠ v → list_count w l < list_count v l).
End mode.

(** [l.remove(x)]: drops the first occurrence, [ValueError] without
    one. *)
Fixpoint py_remove (x : string) (l : list string) : option (list string) :=
  match l with
  | [] => None
  | y :: l' => if decide (x = y) then Some l' else (y ::.) <$> py_remove x l'
  end.

(** ** [check_file_size] *)

Definition check_file_size (fileList : list string)
    (mode_width mode_length : pyval) : M (list string * pyval * pyval) :=
  match fileList with
  | [] => ret (fileList, PNone, PNone)
  | _ =>
      (* Read Width/Length list *)
      sizes <- for_each fileList (λ acc file,
                 rsc <- read_attribute file ;;
                 w <- getitem rsc "WIDTH" ;;
                 l <- getitem rsc "FILE_LENGTH" ;;
                 ret (acc ++ [(w, l)])) [] ;;
      let widthList := sizes.*1 in
      let lengthList := sizes.*2 in
      (* Mode of Width and Length *)
      let mode_width :=
        if truthy mode_width then mode_width
        else default PNone (mode widthList) in
      let mode_length :=
        if truthy mode_length then mode_length
        else default PNone (mode lengthList) in
      (* Update Input List *)
      if bool_decide (list_count mode_width widthList ≠ length widthList
                      ∨ list_count mode_length lengthList ≠ length lengthList)
      then
        fileListOut <- for_each (zip fileList sizes) (λ out fwl,
            let '(file, (w, l)) := fwl in
            if bool_decide (w ≠ mode_width ∨ l ≠ mode_length) then
              as_str w ;;; as_str l ;;;
              or_raise ValueError (py_remove file out)
            else ret out) fileList ;;
        ret (fileListOut, mode_width, mode_length)
      else ret (fileList, mode_width, mode_length)
  end.

(** ** [check_existed_hdf5_file] *)

Definition check_existed_hdf5_file (roipacFileList : list string)
    (hdf5File : string) : M (option (list string)) :=
  let outFileList := roipacFileList in
  match outFileList with
  | [] => ret (Some outFileList)
  | _ =>
      existed <- isfile hdf5File ;;
      if existed : bool then
        r <- try_except (atr <- read_attribute hdf5File ;; ret (Some atr))
                        (rm hdf5File ;;; ret None) ;;
        match r with
        | None => ret (Some outFileList)
        | Some atr =>
            k <- getitem atr "FILE_TYPE" ;;
            epochList <- h5_epochs hdf5File k ;;
            (* Remove file/epoch that already existed *)
            outFileList <- for_each epochList (λ out epoch,
                for_each roipacFileList (λ out file,
                  if contains epoch file
                  then or_raise ValueError (py_remove file out)
                  else ret out) out) outFileList ;;
            (* Check mode length/width with existed hdf5 file *)
            match outFileList with
            | [] => ret (Some outFileList)
            | _ =>
                r <- check_file_size outFileList PNone PNone ;;
                let '(outFileList, mode_width, mode_length) := r in
                width <- getitem atr "WIDTH" ;;
                differ <- (if bool_decide (mode_width ≠ width) then ret true
                           else len <- getitem atr "FILE_LENGTH" ;;
                                ret (bool_decide (mode_length ≠ len))) ;;
                if differ : bool then
                  as_str mode_length ;;; as_str mode_width ;;;
                  len <- getitem atr "FILE_LENGTH" ;;
                  as_str len ;;; as_str width ;;;
                  ret None
                else ret (Some outFileList)
            end
        end
      else ret (Some outFileList)
  end.

(** ** [roipac2multi_group_hdf5] *)

(** The attributes of one source: its own, updated with those of the
    baseline companion when the processor is ROI_PAC and the companion
    can be read. *)
Definition baseline_attrs (file : string) (atr : attrs) : M attrs :=
  if bool_decide (atr !! "PROCESSOR" = Some (PStr "roipac")) then
    try_except
      (date12 <- getitem atr "DATE12" ;;
       date12 <- as_str date12 ;;
       match split_on "-" date12 with
       | [d1; d2] =>
           let baseline_file :=
             dirname file +:+ "/" +:+ d1 +:+ "_" +:+ d2 +:+ "_baseline.rsc" in
           baseline_rsc <- read_roipac_rsc baseline_file ;;
           ret (baseline_rsc ∪ atr)
       | _ => raise ValueError
       end)
      (ret atr)
  else ret atr.

Definition roipac2multi_group_hdf5 (fileType : string)
    (fileList : list string) (hdf5File : string) (extra_meta_dict : attrs)
    : M (option string * option (list string)) :=
  (* ext = os.path.splitext(fileList[0])[1] *)
  or_raise IndexError (head fileList) ;;;
  (* Check width/length mode of input files *)
  r <- check_file_size fileList PNone PNone ;;
  let '(fileList, mode_width, mode_length) := r in
  match fileList with
  | [] => ret (None, None)
  | _ =>
      (* Check conflict with existing hdf5 file *)
      fileList2 <- check_existed_hdf5_file fileList hdf5File ;;
      (* Open(Create) HDF5 file with r+/w mode based on fileList2 *)
      fileList <-
        (if bool_decide (fileList2 = Some fileList) then
           h5_open_w hdf5File ;;; ret (Some fileList)
         else match fileList2 with
              | Some (f :: fs2) => h5_open_rplus hdf5File ;;; ret (Some (f :: fs2))
              | _ => ret None
              end) ;;
      (* Loop - Writing ROI_PAC files into hdf5 file *)
      match fileList with
      | Some (f :: fs') =>
          groups <- h5_groups hdf5File ;;
          (if bool_decide (is_Some (groups !! fileType)) then ret tt
           else h5_create_group hdf5File fileType ∅) ;;;
          for_each (f :: fs') (λ _ file,
            r <- read file ;;
            let '(data, atr) := r in
            atr <- baseline_attrs file atr ;;
            (* PySAR attributes *)
            let atr := <["drop_ifgram" := PStr "no"]> atr in
            let atr := <["PROJECT_NAME" :=
              default (PStr "PYSAR") (extra_meta_dict !! "project_name")]> atr in
            (* Write dataset and attributes *)
            h5_create_member hdf5File fileType (basename file)
              (H5Node ((λ v, PStr (py_str v)) <$> atr) data)) tt ;;;
          ret (Some hdf5File, fileList)
      | _ => ret (Some hdf5File, fileList)
      end
  end.

End LoadData.

(** * seed_data.py *)

Module SeedData.

Inductive method_t :=
| input_coord
| max_coherence
| manual
| random
| global_average.

Global Instance method_eq_dec : EqDecision method_t.
Proof. solve_decision. Defined.

(** The namespace of the command line.  The model covers the runs
    without [--lat/--lon], [--reference] and [--template], one file
    after the other (no [joblib] workers). *)
Record namespace := Inps {
  file : list string;
  mask_file : option string;
  outfile : option string;
  mark_attribute : bool;
  ref_y : pyval;
  ref_x : pyval;
  coherence_file : option string;
  min_coherence : Q;
  method : method_t
}.

Definition set_ref (inps : namespace) (y x : pyval) : namespace :=
  Inps (file inps) (mask_file inps) (outfile inps) (mark_attribute inps)
       y x (coherence_file inps) (min_coherence inps) (method inps).

Definition set_method (inps : namespace) (m : method_t) : namespace :=
  Inps (file inps) (mask_file inps) (outfile inps) (mark_attribute inps)
       (ref_y inps) (ref_x inps) (coherence_file inps) (min_coherence inps) m.

Definition set_coherence_file (inps : namespace) (c : option string)
    : namespace :=
  Inps (file inps) (mask_file inps) (outfile inps) (mark_attribute inps)
       (ref_y inps) (ref_x inps) c (min_coherence inps) (method inps).

(** [m[y, x]] with the indices as Python holds them. *)
Definition getitem2 {A} (m : list (list A)) (y x : pyval) : M A :=
  match y, x with
  | PInt y, PInt x => or_raise IndexError (index2 m y x)
  | _, _ => raise IndexError
  end.

(** [~np.isnan(stack)]. *)
Definition notnan (stack : raster) : bgrid :=
  map (map (λ p : pixel, bool_decide (is_Some p))) stack.

(** [np.nansum(mask)]. *)
Definition nansum (mask : bgrid) : nat :=
  length (filter (λ b, b = true) (concat mask)).

Section seed.
(** [subset.coord_radar2geo], the affine transform from a pixel
    coordinate to a geographic one: not part of the listed sources. *)
Variable coord_radar2geo : pyval → attrs → string → pyval.

(** ** [seed_attributes] *)

Definition seed_attributes (atr_in : attrs) (x y : pyval) : attrs :=
  let atr : attrs := (λ v, PStr (py_str v)) <$> atr_in in
  let atr := <["ref_y" := y]> atr in
  let atr := <["ref_x" := x]> atr in
  if bool_decide (is_Some (atr !! "X_FIRST")) then
    let atr := <["ref_lat" := coord_radar2geo y atr "y"]> atr in
    <["ref_lon" := coord_radar2geo x atr "x"]> atr
  else atr.

(** ** [seed_file_reference_value]

    The progress bar of [ptime] and the date list that feeds it are
    display only and are left out.  Opening the output under the name of
    the input, which is still open for reading, is refused by HDF5. *)

(** [data -= refList] on a single raster: the list broadcasts along
    the rows, a list of one value as a scalar. *)
Definition broadcast_sub (data : raster) (refList : list pixel)
    : option raster :=
  match refList with
  | [r] => Some (raster_sub data r)
  | _ => if bool_decide (Forall (λ row, length row = length refList) data)
         then Some (map (λ row, zip_with pixel_sub row refList) data)
         else None
  end.

Definition seed_file_reference_value (File outName : string)
    (refList : list pixel) (ref_y ref_x : pyval) : M string :=
  (* IO Info *)
  atr <- read_attribute File ;;
  k <- getitem atr "FILE_TYPE" ;;
  (* print 'file type: '+k *)
  k <- as_str k ;;
  (* Multiple Dataset File *)
  if bool_decide (k ∈ ["timeseries"; "interferograms"; "wrapped"; "coherence"])
  then
    (* Input File Info *)
    groups <- h5_groups File ;;
    epochList <- h5_epochs File (PStr k) ;;
    let epochNum := length epochList in
    g <- or_raise KeyError (groups !! k) ;;
    (* Check Epoch Number *)
    if bool_decide (epochNum ≠ length refList) then raise (SystemExit 1)
    else
      (* Output File Info *)
      (if bool_decide (outName = File) then raise IOError
       else h5_open_w outName) ;;;
      h5_create_group outName k ∅ ;;;
      (* Loop *)
      (if bool_decide (k = "timeseries") then
         for_each (zip epochList refList) (λ _ er,
           let '(epoch, r) := er in
           n <- or_raise KeyError (members g !! epoch) ;;
           let data := raster_sub (ndata n) r in
           h5_create_member outName k epoch (H5Node ∅ data)) tt ;;;
         let atr := seed_attributes atr ref_x ref_y in
         h5_set_group_attrs outName k atr
       else
         for_each (zip epochList refList) (λ _ er,
           let '(epoch, r) := er in
           n <- or_raise KeyError (members g !! epoch) ;;
           let data := raster_sub (ndata n) r in
           let atr := seed_attributes (nattrs n) ref_x ref_y in
           h5_create_member outName k epoch (H5Node atr data)) tt) ;;;
      ret outName
  else
    (* Single Dataset File *)
    r <- read File ;;
    let '(data, atr) := r in
    data <- or_raise ValueError (broadcast_sub data refList) ;;
    let atr := seed_attributes atr ref_x ref_y in
    write data atr outName ;;;
    ret outName.

(** ** [random_select_reference_yx] *)

(** [random.choice(range(n))]: the next draw of the generator, reduced
    to the range; an empty range is an [IndexError]. *)
Definition choice (n : nat) : M Z :=
  match n with
  | 0 => raise IndexError
  | _ => λ w, match rng w with
              | [] => (Loop, w)
              | r :: rs => (Val (Z.of_nat (r mod n)), World (fs w) rs (clicks w))
              end
  end.

(** [while data_mat[y,x] == 0: draw again], for at most [fuel]
    rounds. *)
Fixpoint redraw (fuel : nat) (data_mat : bgrid) (nrow ncol : nat) (y x : Z)
    : M (Z * Z) :=
  v <- or_raise IndexError (index2 data_mat y x) ;;
  if v : bool then ret (y, x)
  else match fuel with
       | 0 => λ w, (Loop, w)
       | S fuel' =>
           y <- choice nrow ;;
           x <- choice ncol ;;
           redraw fuel' data_mat nrow ncol y x
       end.

Definition random_select_reference_yx (data_mat : bgrid) : M (Z * Z) :=
  let nrow := length data_mat in
  let ncol := from_option length 0 (head data_mat) in
  y <- choice nrow ;;
  x <- choice ncol ;;
  fuel <- (λ w, (Val (length (rng w)), w)) ;;
  redraw fuel data_mat nrow ncol y x.

(** ** [select_max_coherence_yx] *)

Definition select_max_coherence_yx (cohFile : string) (mask : option bgrid)
    (min_coh : Q) : M (Z * Z) :=
  r <- read cohFile ;;
  let coh := r.1 in
  coh <- match mask with
         | Some mask =>
             or_raise IndexError
               (assign_where coh (map (map negb) mask) (Some 0%Q))
         | None => ret coh
         end ;;
  let coh_mask := map (map (λ p : pixel,
                    match p with
                    | Some c => Qle_bool min_coh c
                    | None => false
                    end)) coh in
  random_select_reference_yx coh_mask.

(** ** [manual_select_reference_yx] *)

(** [onclick]: a click on a pixel that is not NaN in the stack moves
    the reference there; any other click leaves it. *)
Definition onclick (stack : raster) (inps : namespace) (yx : nat * nat)
    : namespace :=
  let y := Z.of_nat yx.1 in
  let x := Z.of_nat yx.2 in
  match index2 stack y x with
  | Some (Some _) => set_ref inps (PInt y) (PInt x)
  | _ => inps
  end.

(** The clicks of the user until the window is closed. *)
Definition manual_select_reference_yx (stack : raster) (inps : namespace)
    : M namespace :=
  λ w, (Val (foldl (onclick stack) inps (clicks w)),
        World (fs w) (rng w) []).

(** ** [seed_file_inps] *)

(** Step 2.1 of [seed_file_inps], "Find reference y/x". *)
Definition find_reference_yx (stack : raster) (mask : bgrid)
    (inps : namespace) : M namespace :=
  if negb (truthy (ref_y inps)) || negb (truthy (ref_x inps)) then
    match given (coherence_file inps) with
    | Some cohFile =>
        let inps := set_method inps max_coherence in
        yx <- select_max_coherence_yx cohFile (Some mask)
                (min_coherence inps) ;;
        ret (set_ref inps (PInt yx.1) (PInt yx.2))
    | None =>
        if bool_decide (method inps = random) then
          yx <- random_select_reference_yx mask ;;
          ret (set_ref inps (PInt yx.1) (PInt yx.2))
        else if bool_decide (method inps = manual) then
          manual_select_reference_yx stack inps
        else ret inps
    end
  else ret inps.

(** Step 2.2 of [seed_file_inps], "Seeding file with reference
    y/x". *)
Definition seed_reference_yx (File outFile : string) (mask : bgrid)
    (inps : namespace) : M (string * namespace) :=
  valid <- (if truthy (ref_y inps) && truthy (ref_x inps)
            then getitem2 mask (ref_y inps) (ref_x inps)
            else ret false) ;;
  if valid : bool then
    if mark_attribute inps then
      let atr_ref : attrs :=
        <["ref_y" := ref_y inps]> (<["ref_x" := ref_x inps]> ∅) in
      outFile <- add_attribute File atr_ref ;;
      ret (outFile, inps)
    else
      match ref_y inps, ref_x inps with
      | PInt y, PInt x =>
          let box := (x, y, x + 1, y + 1)%Z in
          refList <- spatial_average File mask box ;;
          outFile <- seed_file_reference_value File outFile refList
                       (ref_y inps) (ref_x inps) ;;
          ret (outFile, inps)
      | _, _ => raise TypeError
      end
  else raise ValueError.

Definition seed_file_inps (File : string) (inps : namespace)
    (outFile : option string) : M (string * namespace) :=
  (* Optional inputs *)
  let outFile := default ("Seeded_" +:+ basename File) (given outFile) in
  (* Get stack and mask *)
  stack <- get_file_stack File (mask_file inps) ;;
  let mask := notnan stack in
  if bool_decide (nansum mask = 0) then raise (SystemExit 1)
  else
  (* 1. Reference using global average *)
  if bool_decide (method inps = global_average) then
    atr <- read_attribute File ;;
    w <- getitem atr "WIDTH" ;;
    width <- or_raise ValueError (py_int w) ;;
    l <- getitem atr "FILE_LENGTH" ;;
    len <- or_raise ValueError (py_int l) ;;
    let box := (0, 0, width, len)%Z in
    meanList <- spatial_average File mask box ;;
    let inps := set_ref inps (PStr EmptyString) (PStr EmptyString) in
    outFile <- seed_file_reference_value File outFile meanList
                 (ref_y inps) (ref_x inps) ;;
    ret (outFile, inps)
  else
  (* 2. Reference using specific pixel *)
  inps <- find_reference_yx stack mask inps ;;
  seed_reference_yx File outFile mask inps.

(** ** [main], after the command line is parsed *)

(** [0 <= v <= n]. *)
Definition in_coverage (v : pyval) (n : Z) : bool :=
  match v with
  | PInt z => bool_decide (0 ≤ z ≤ n)%Z
  | _ => false
  end.

(** [main] from "Do not use ref_y/x outside of data coverage" on, with
    the [FILE_LENGTH] and [WIDTH] of the first file. *)
Definition check_and_seed (len width : Z) (inps : namespace)
    : M (list string * namespace) :=
  (* Do not use ref_y/x outside of data coverage *)
  let inps :=
    if truthy (ref_y inps) && truthy (ref_x inps)
       && negb (in_coverage (ref_y inps) len && in_coverage (ref_x inps) width)
    then set_ref inps PNone PNone else inps in
  (* Do not use ref_y/x in masked out area *)
  inps <-
    (if truthy (ref_y inps) && truthy (ref_x inps) then
       match given (mask_file inps) with
       | Some maskFile =>
           m <- read maskFile ;;
           v <- getitem2 m.1 (ref_y inps) (ref_x inps) ;;
           match v with
           | Some q => if Qeq_bool q 0 then ret (set_ref inps PNone PNone)
                       else ret inps
           | None => ret inps
           end
       | None => ret inps
       end
     else ret inps) ;;
  (* Select method *)
  inps <-
    (if truthy (ref_y inps) && truthy (ref_x inps)
     then ret (set_method inps input_coord)
     else match given (coherence_file inps) with
          | Some cohFile =>
              existed <- isfile cohFile ;;
              if existed : bool then ret (set_method inps max_coherence)
              else ret (set_coherence_file inps None)
          | None => ret inps
          end) ;;
  (* Seeding file by file *)
  match file inps with
  | [File] =>
      r <- seed_file_inps File inps (outfile inps) ;;
      ret ([r.1], r.2)
  | files =>
      for_each files (λ acc File,
        r <- seed_file_inps File acc.2 None ;;
        ret (acc.1 ++ [r.1], r.2)) ([], inps)
  end.

(** [main] on the parsed command line.  The source returns nothing; the
    names of the seeded files and the namespace as the run leaves it are
    returned here to be observed. *)
Definition main (inps : namespace) : M (list string * namespace) :=
  file0 <- or_raise IndexError (head (file inps)) ;;
  atr <- read_attribute file0 ;;
  l <- getitem atr "FILE_LENGTH" ;;
  len <- or_raise ValueError (py_int l) ;;
  w <- getitem atr "WIDTH" ;;
  width <- or_raise ValueError (py_int w) ;;
  check_and_seed len width inps.
End seed.

End SeedData.

Import LoadData SeedData.

(** * Specification vocabulary *)

(** ** Frame properties of computations *)

(** The computation leaves the file system as it found it. *)
Definition keeps_fs {A} (m : M A) : Prop := ∀ w, fs (m w).2 = fs w.

(** The computation leaves the whole world as it found it. *)
Definition readonly {A} (m : M A) : Prop := ∀ w, (m w).2 = w.

(** The computation never ends in [sys.exit]. *)
Definition no_exit {A} (m : M A) : Prop :=
  ∀ w code, (m w).1 ≠ Exc (SystemExit code).

(** The run ended in an exception of some kind. *)
Definition aborts {A} (o : outcome A) : Prop := ∃ e, o = Exc e.

(** ** The output of [seed_file_reference_value] *)

(** The members written by the epoch loop: every pair of an epoch name and
    its reference value stores the source member rebuilt by [mk]. *)
Definition seeded_members (g : h5group) (mk : h5node → pixel → h5node)
    (pairs : list (string * pixel)) (m : gmap string h5node)
    : gmap string h5node :=
  foldl (λ m er, <[er.1 := mk (default (H5Node ∅ []) (members g !! er.1)) er.2]> m)
        m pairs.

(** The group that the multi-epoch branch leaves in the output file: for a
    time series the seed attributes go on the group, otherwise on every
    member. *)
Definition seeded_group (coord_radar2geo : pyval → attrs → string → pyval)
    (k : string) (atr : attrs) (g : h5group)
    (refList : list pixel) (ref_y ref_x : pyval) : h5group :=
  let epochList := sorted (map fst (map_to_list (members g))) in
  if bool_decide (k = "timeseries") then
    H5Group (seed_attributes coord_radar2geo atr ref_x ref_y ∪ ∅)
      (seeded_members g (λ n r, H5Node ∅ (raster_sub (ndata n) r))
         (zip epochList refList) ∅)
  else
    H5Group ∅
      (seeded_members g
         (λ n r, H5Node (seed_attributes coord_radar2geo (nattrs n) ref_x ref_y)
                        (raster_sub (ndata n) r))
         (zip epochList refList) ∅).

(** The values of every epoch at one pixel, as [spatial_average] computes
    them over the one-pixel box. *)
Definition pixel_refs (g : h5group) (y x : Z) : list pixel :=
  (λ n, mean [default None (index2 (ndata n) y x)]) <$> epoch_nodes g.

(** The file types stored as one member per epoch. *)
Definition multi_epoch_types : list string :=
  ["timeseries"; "interferograms"; "wrapped"; "coherence"].

(** The output file holds one group [k] with the epochs of [g], and the
    [i]-th epoch in sorted order is the source epoch minus the [i]-th
    reference value at every pixel. *)
Definition rereferenced (w' : world) (outName k : string) (g : h5group)
    (refList : list pixel) : Prop :=
  ∃ g', fs w' !! outName = Some (H5 (<[k := g']> ∅))
    ∧ (∀ e, is_Some (members g' !! e) ↔ is_Some (members g !! e))
    ∧ ∀ i e n,
        sorted (map fst (map_to_list (members g))) !! i = Some e →
        members g !! e = Some n →
        ∃ r n', refList !! i = Some r ∧ members g' !! e = Some n'
          ∧ ∀ y x : nat, ndata n' !! y ≫= (.!! x)
                         = (λ a, pixel_sub a r) <$> (ndata n !! y ≫= (.!! x)).

(** Every epoch of the output file is zero at the pixel [(y, x)]. *)
Definition zero_at (w' : world) (outName k : string) (y x : Z) : Prop :=
  ∃ g', fs w' !! outName = Some (H5 (<[k := g']> ∅))
    ∧ ∀ e n', members g' !! e = Some n' →
        ∃ q, index2 (ndata n') y x = Some (Some q) ∧ (q == 0)%Q.

(** ** Statements about the loader *)

(** The specification's account of a merge with nothing to add: the
    container path comes back with the empty list of added epochs, and
    nothing is written. *)
Definition all_present_claim (w : world) (fileType : string)
    (fileList : list string) (hdf5File : string) (extra : attrs) : Prop :=
  ∀ survivors mw ml groups (atr : attrs) k g,
    check_file_size fileList PNone PNone w = (Val (survivors, mw, ml), w) →
    fs w !! hdf5File = Some (H5 groups) →
    read_attribute hdf5File w = (Val atr, w) →
    atr !! "FILE_TYPE" = Some (PStr k) →
    groups !! k = Some g →
    (∀ f, f ∈ survivors → is_Some (members g !! basename f)) →
    roipac2multi_group_hdf5 fileType fileList hdf5File extra w
    = (Val (Some hdf5File, Some []), w).

(** ** Statements about the seeding front ends *)

(** The specification's account of the abort of the mid-level seeder: it
    aborts exactly when the validity mask has no true entry. *)
Definition abort_iff_empty_mask (coord_radar2geo : pyval → attrs → string → pyval)
    (File : string) (inps : namespace) (outFile : option string) (w : world)
    : Prop :=
  ∀ stack, get_file_stack File (mask_file inps) w = (Val stack, w) →
    (aborts (seed_file_inps coord_radar2geo File inps outFile w).1
     ↔ nansum (notnan stack) = 0).

(** A pixel of the mask file, when it is a number, is zero. *)
Definition is_zero (p : pixel) : bool :=
  match p with Some q => Qeq_bool q 0 | None => false end.

(** If a mask file is given, it is readable and not zero at [(y, x)]. *)
Definition mask_file_nonzero (w : world) (inps : namespace) (y x : Z) : Prop :=
  ∀ maskFile, given (mask_file inps) = Some maskFile →
    ∃ m p, read maskFile w = (Val m, w) ∧ index2 m.1 y x = Some p
           ∧ is_zero p = false.

(** The run behaves as the run without an explicit coordinate. *)
Definition falls_through (coord_radar2geo : pyval → attrs → string → pyval)
    (inps : namespace) (w : world) : Prop :=
  main coord_radar2geo inps w
  = main coord_radar2geo (set_ref inps PNone PNone) w.

(** The run ends with the explicit coordinate [(y, x)] as the reference and
    the method [input_coord]. *)
Definition committed (coord_radar2geo : pyval → attrs → string → pyval)
    (inps : namespace) (w : world) (y x : Z) : Prop :=
  ∃ outs inps' w',
    main coord_radar2geo inps w = (Val (outs, inps'), w')
    ∧ method inps' = input_coord
    ∧ ref_y inps' = PInt y ∧ ref_x inps' = PInt x.

(** The specification's account of the explicit coordinate: committed
    exactly when inside the raster and true in the validity mask, otherwise
    the selection falls through. *)
Definition explicit_commit_claim
    (coord_radar2geo : pyval → attrs → string → pyval) (inps : namespace)
    (w : world) (height width y x : Z) (stack : raster) : Prop :=
  let valid := (0 ≤ y < height)%Z ∧ (0 ≤ x < width)%Z
               ∧ index2 (notnan stack) y x = Some true in
  (committed coord_radar2geo inps w y x ↔ valid)
  ∧ (¬ valid → falls_through coord_radar2geo inps w).

(** What [main] does with an explicit coordinate: outside the coverage test
    and where the mask file is zero it falls through; strictly inside the
    raster it commits where the validity mask is true and raises where it is
    false. *)
Definition explicit_resolution
    (coord_radar2geo : pyval → attrs → string → pyval) (inps : namespace)
    (w : world) (File : string) (atr : attrs) (len width y x : Z) : Prop :=
  (¬ ((0 ≤ y ≤ len)%Z ∧ (0 ≤ x ≤ width)%Z) →
   falls_through coord_radar2geo inps w)
  ∧ (∀ maskFile m q,
       given (mask_file inps) = Some maskFile →
       read maskFile w = (Val m, w) →
       index2 m.1 y x = Some (Some q) → (q == 0)%Q →
       falls_through coord_radar2geo inps w)
  ∧ (∀ stack groups k g,
       (0 < y < len)%Z → (0 < x < width)%Z →
       get_file_stack File (mask_file inps) w = (Val stack, w) →
       index2 (notnan stack) y x = Some true →
       fs w !! File = Some (H5 groups) →
       atr !! "FILE_TYPE" = Some (PStr k) →
       groups !! k = Some g →
       mark_attribute inps = true
       ∨ (mark_attribute inps = false ∧ k ∈ multi_epoch_types
          ∧ members g !! EmptyString = None
          ∧ default ("Seeded_" +:+ basename File) (given (outfile inps)) ≠ File) →
       committed coord_radar2geo inps w y x)
  ∧ (∀ stack,
       (0 < y < len)%Z → (0 < x < width)%Z →
       get_file_stack File (mask_file inps) w = (Val stack, w) →
       mask_file_nonzero w inps y x →
       nansum (notnan stack) ≠ 0 →
       index2 (notnan stack) y x = Some false →
       main coord_radar2geo inps w = (Exc ValueError, w)).

(** * Examples *)

(** ** Sources and a container for the loader *)

Definition rsc (width len : string) : attrs :=
  <["WIDTH" := PStr width]> (<["FILE_LENGTH" := PStr len]> ∅).

Definition ones : raster := [[Some 1%Q; Some 1%Q]; [Some 1%Q; Some 1%Q]].
Definition twos : raster := [[Some 2%Q; Some 2%Q]; [Some 2%Q; Some 2%Q]].

(** A container with the epochs [A.unw] and [B.unw]. *)
Definition container_AB : content :=
  H5 (<["interferograms" :=
        H5Group ∅ (<["A.unw" := H5Node (rsc "2" "2") ones]>
                   (<["B.unw" := H5Node (rsc "2" "2") twos]> ∅))]> ∅).

(** The container next to a source of the stored epoch [A.unw] and a
    source of the new epoch [C.unw]. *)
Definition world_AB : world :=
  World (<["unwrapIfgram.h5" := container_AB]>
         (<["/data/A.unw" := Raster (rsc "2" "2") ones]>
          (<["/data/C.unw" := Raster (rsc "2" "2") twos]> ∅))) [] [].

(** Four sources of widths 100, 100, 100 and 50. *)
Definition world_sizes : world :=
  World (<["/d/a.unw" := Raster (rsc "100" "60") []]>
         (<["/d/b.unw" := Raster (rsc "100" "60") []]>
          (<["/d/c.unw" := Raster (rsc "100" "60") []]>
           (<["/d/d.unw" := Raster (rsc "50" "60") []]> ∅)))) [] [].

(** ** A container and a coherence raster for the seeding *)

(** Two epochs of three rows and three columns; the first one is NaN
    at row 1, column 2. *)
Definition epoch_A : raster :=
  [[Some 1%Q; Some 2%Q; Some 3%Q];
   [Some 4%Q; Some 5%Q; None];
   [Some 7%Q; Some 8%Q; Some 9%Q]].

Definition epoch_B : raster :=
  [[Some 1%Q; Some 1%Q; Some 1%Q];
   [Some 2%Q; Some 3%Q; Some 4%Q];
   [Some 7%Q; Some 8%Q; Some 10%Q]].

Definition ifgram_group : h5group :=
  H5Group ∅ (<["A" := H5Node (rsc "3" "3") epoch_A]>
             (<["B" := H5Node (rsc "3" "3") epoch_B]> ∅)).

Definition ifgram_3x3 : gmap string h5group :=
  <["interferograms" := ifgram_group]> ∅.

(** The stack of the two epochs: NaN where the first one is. *)
Definition stack_3x3 : raster :=
  [[Some 2%Q; Some 3%Q; Some 4%Q];
   [Some 6%Q; Some 8%Q; None];
   [Some 14%Q; Some 16%Q; Some 19%Q]].

Definition coherence_3x3 : content :=
  Raster (rsc "3" "3")
    [[Some (9 # 10); Some (1 # 2); Some (1 # 2)];
     [Some (1 # 2); Some (9 # 10); Some (1 # 1)];
     [Some (1 # 2); Some (1 # 2); Some (1 # 2)]].

Definition seed_world : world :=
  World (<["coh.h5" := coherence_3x3]> (<["ifg.h5" := H5 ifgram_3x3]> ∅))
        [5; 7; 4; 4; 1; 1] [].

(** What [read_attribute] yields on [ifg.h5]. *)
Definition ifgram_attrs : attrs :=
  <["FILE_TYPE" := PStr "interferograms"]> (rsc "3" "3").

(** A stand-in for [subset.coord_radar2geo]. *)
Definition no_geo (_ : pyval) (_ : attrs) (_ : string) : pyval := PNone.

(** The command line [seed_data.py ifg.h5 -y y -x x], with a coherence
    file or a method when given. *)
Definition cmdline (y x : pyval) (coh : option string) (m : method_t)
    : namespace :=
  Inps ["ifg.h5"] None None false y x coh (85 # 100) m.

(** A mask file that is zero at row 1, column 1, next to the
    container. *)
Definition mask_3x3 : content :=
  Raster (rsc "3" "3")
    [[Some 1%Q; Some 1%Q; Some 1%Q];
     [Some 1%Q; Some 0%Q; Some 1%Q];
     [Some 1%Q; Some 1%Q; Some 1%Q]].

Definition seed_world_masked : world :=
  World (<["mask.h5" := mask_3x3]> (fs seed_world)) (rng seed_world) [].

(** The command line [seed_data.py ifg.h5 -m mask.h5 -y y -x x]. *)
Definition cmdline_masked (y x : pyval) : namespace :=
  Inps ["ifg.h5"] (Some "mask.h5") None false y x None (85 # 100) random.

(** * More of seed_data.py, and tropcor_pyaps.py *)

(** ** [nearest] of seed_data.py *)

(** [np.sqrt((t - x)**2)]: the distance of two samples, NaN when one of
    them is. *)
Definition pixel_dist (t x : pixel) : pixel :=
  match t, x with
  | Some t, Some x => Some (Qabs (t - x))
  | _, _ => None
  end.

(** [np.abs]. *)
Definition pixel_abs (a : pixel) : pixel := Qabs <$> a.

(** [a < b], [a <= b] and [a == b] on floats: false when one is NaN. *)
Definition pixel_ltb (a b : pixel) : bool :=
  match a, b with
  | Some a, Some b => negb (Qle_bool b a)
  | _, _ => false
  end.

Definition pixel_leb (a b : pixel) : bool :=
  match a, b with
  | Some a, Some b => Qle_bool a b
  | _, _ => false
  end.

Definition pixel_eqb (a b : pixel) : bool :=
  match a, b with
  | Some a, Some b => Qeq_bool a b
  | _, _ => false
  end.

(** Python's [min] of a sequence: the first item that no later item is
    below; [ValueError] on an empty one. *)
Definition py_min (l : list pixel) : option pixel :=
  match l with
  | [] => None
  | a :: l' => Some (foldl (λ cur it, if pixel_ltb it cur then it else cur) a l')
  end.

Definition nearest (x : pixel) (tbase : list pixel) (xstep : pixel)
    : M (list bool) :=
  let dist := (λ t, pixel_dist t x) <$> tbase in
  m <- or_raise ValueError (py_min dist) ;;
  if pixel_leb m (pixel_abs xstep) then
    m <- or_raise ValueError (py_min dist) ;;
    ret ((λ d, pixel_eqb d m) <$> dist)
  else ret [].

(** ** [closest_weather_product_time] of tropcor_pyaps.py *)

(** [int(q)] of a float: towards zero. *)
Definition py_trunc (q : Q) : Z := Z.quot (Qnum q) (Z.pos (Qden q)).

(** [min(l, key=key)]: the first item of the least key. *)
Definition min_by (key : Z → Z) (a : Z) (l : list Z) : Z :=
  foldl (λ cur x, if (key x <? key cur)%Z then x else cur) a l.

(** ["%02d" % n]. *)
Definition pad2 (n : Z) : string :=
  if bool_decide (0 ≤ n < 10)%Z then "0" +:+ pretty n else pretty n.

(** The function from the float of its first argument on: [sar_time] is
    [float(sar_acquisition_time)], the seconds of the day, as an exact
    rational; [sar_mm] is computed and never used. *)
Definition closest_weather_product_time (sar_time : Q) (grib_source : string)
    : string :=
  let sar_hh := py_trunc (sar_time / 3600) in
  let grib_hr := min_by (λ x, Z.abs (x - sar_hh)) 0 [6; 12; 18]%Z in
  if String.eqb grib_source "NARR" then pad2 grib_hr
  else pad2 grib_hr +:+ ":00".

(** ** [read_seed_template2inps] and [read_seed_reference2inps] of
    seed_data.py *)

(** White space, as [str.strip] and [int] see it. *)
Definition is_space (c : ascii) : bool :=
  bool_decide (c ∈ [" "; "009"; "010"; "011"; "012"; "013"]%char).

Fixpoint lstrip (s : string) : string :=
  match s with
  | String c s' => if is_space c then lstrip s' else s
  | EmptyString => EmptyString
  end.

Definition strip (s : string) : string :=
  String.rev (lstrip (String.rev (lstrip s))).

(** [int(s)] on a string: white space around, an optional sign, and at
    least one decimal digit.  ([py_int] above reads the sizes of the
    attribute files, which carry neither white space nor a plus sign.) *)
Definition int_of_str (s : string) : option Z :=
  match strip s with
  | String "-" s' =>
      (λ u, (- Z.of_uint u)%Z) <$> DecimalString.NilZero.uint_of_string s'
  | String "+" s' => Z.of_uint <$> DecimalString.NilZero.uint_of_string s'
  | s' => Z.of_uint <$> DecimalString.NilZero.uint_of_string s'
  end.

(** [int(v)] on an attribute. *)
Definition int_of (v : pyval) : M Z :=
  match v with
  | PInt z => ret z
  | PStr s => or_raise ValueError (int_of_str s)
  | PNone => raise TypeError
  end.

(** The namespace of the command line with the options that the runs
    of [main] above leave out. *)
Record options := Opts {
  base : namespace;
  ref_lat : option Q;
  ref_lon : option Q;
  template_file : option string;
  reference_file : option string
}.

Definition with_base (opts : options) (inps : namespace) : options :=
  Opts inps (ref_lat opts) (ref_lon opts) (template_file opts)
       (reference_file opts).

Definition with_lalo (opts : options) (lat lon : option Q) : options :=
  Opts (base opts) lat lon (template_file opts) (reference_file opts).

Definition set_mask_file (inps : namespace) (m : option string) : namespace :=
  Inps (file inps) m (outfile inps) (mark_attribute inps)
       (ref_y inps) (ref_x inps) (coherence_file inps) (min_coherence inps)
       (method inps).

Definition set_min_coherence (inps : namespace) (c : Q) : namespace :=
  Inps (file inps) (mask_file inps) (outfile inps) (mark_attribute inps)
       (ref_y inps) (ref_x inps) (coherence_file inps) c (method inps).

(** A float that is [None] or zero is false. *)
Definition truthy_float (o : option Q) : bool :=
  match o with
  | Some q => negb (Qeq_bool q 0)
  | None => false
  end.

Section reference_info.
(** [readfile.read_template], the dictionary of a template file, and
    [float] on a string: not part of the listed sources, and left
    open. *)
Variable read_template : string → M (gmap string string).
Variable float_of_str : string → option Q.

(** [float(v)] on an attribute. *)
Definition float_of (v : pyval) : M Q :=
  match v with
  | PInt z => ret (inject_Z z)
  | PStr s => or_raise ValueError (float_of_str s)
  | PNone => raise TypeError
  end.

(** [main] hands its namespace to both functions: the default
    [inps=None] is not taken.  An assignment to two targets from a list
    that has not two items is a [ValueError], as a failing [int] or
    [float] is. *)
Definition read_seed_template2inps (template_file : string) (opts : options)
    : M options :=
  template <- read_template template_file ;;
  let prefix := "pysar.reference." in
  opts <- match template !! (prefix +:+ "yx") with
          | Some value =>
              if bool_decide (value ∉ ["auto"; "no"]) then
                yx <- or_raise ValueError
                        (mapM int_of_str (split_on "," value)) ;;
                match yx with
                | [y; x] =>
                    ret (with_base opts (set_ref (base opts) (PInt y) (PInt x)))
                | _ => raise ValueError
                end
              else ret opts
          | None => ret opts
          end ;;
  opts <- match template !! (prefix +:+ "lalo") with
          | Some value =>
              if bool_decide (value ∉ ["auto"; "no"]) then
                lalo <- or_raise ValueError
                          (mapM float_of_str (split_on "," value)) ;;
                match lalo with
                | [lat; lon] => ret (with_lalo opts (Some lat) (Some lon))
                | _ => raise ValueError
                end
              else ret opts
          | None => ret opts
          end ;;
  let opts :=
    match template !! (prefix +:+ "maskFile") with
    | Some value =>
        if bool_decide (value = "auto") then
          with_base opts (set_mask_file (base opts) None)
        else if bool_decide (value = "no") then
          with_base opts (set_mask_file (base opts) None)
        else with_base opts (set_mask_file (base opts) (Some value))
    | None => opts
    end in
  let opts :=
    match template !! (prefix +:+ "coherenceFile") with
    | Some value =>
        if bool_decide (value = "auto") then
          with_base opts (set_coherence_file (base opts)
                            (Some "averageSpatialCoherence.h5"))
        else with_base opts (set_coherence_file (base opts) (Some value))
    | None => opts
    end in
  match template !! (prefix +:+ "minCoherence") with
  | Some value =>
      if bool_decide (value = "auto") then
        ret (with_base opts (set_min_coherence (base opts) (85 # 100)))
      else
        c <- or_raise ValueError (float_of_str value) ;;
        ret (with_base opts (set_min_coherence (base opts) c))
  | None => ret opts
  end.

(** The function reads the file that the namespace names, whatever its
    first argument; [main] calls it only when the namespace names one. *)
Definition read_seed_reference2inps (reference_file_arg : string)
    (opts : options) : M options :=
  atr_ref <- match reference_file opts with
             | Some f => read_attribute f
             | None => raise TypeError
             end ;;
  opts <-
    (if (negb (truthy (ref_y (base opts))) || negb (truthy (ref_x (base opts))))
        && bool_decide (is_Some (atr_ref !! "ref_x")) then
       y <- getitem atr_ref "ref_y" ;;
       y <- int_of y ;;
       x <- getitem atr_ref "ref_x" ;;
       x <- int_of x ;;
       ret (with_base opts (set_ref (base opts) (PInt y) (PInt x)))
     else ret opts) ;;
  if (negb (truthy_float (ref_lat opts)) || negb (truthy_float (ref_lon opts)))
     && bool_decide (is_Some (atr_ref !! "ref_lon")) then
    lat <- getitem atr_ref "ref_lat" ;;
    lat <- float_of lat ;;
    lon <- getitem atr_ref "ref_lon" ;;
    lon <- float_of lon ;;
    ret (with_lalo opts (Some lat) (Some lon))
  else ret opts.

(** [main], "Read ref_y/x/lat/lon from reference/template". *)
Definition read_reference_info (opts : options) : M options :=
  opts <- match given (template_file opts) with
          | Some f => read_seed_template2inps f opts
          | None => ret opts
          end ;;
  match given (reference_file opts) with
  | Some f => read_seed_reference2inps f opts
  | None => ret opts
  end.
End reference_info.

(** The attributes hold no geographic frame and no geographic
    reference. *)
Definition no_geo_reference (atr : attrs) : Prop :=
  atr !! "X_FIRST" = None ∧ atr !! "ref_lon" = None.

(** * Vocabulary and examples of the further properties *)

(** The size pair that [check_file_size] reads for a file whose
    attributes are [atr]. *)
Definition size_is (w : world) (file : string) (wd ln : string) : Prop :=
  ∃ atr : attrs, (read_attribute file w).1 = Val atr
    ∧ atr !! "WIDTH" = Some (PStr wd) ∧ atr !! "FILE_LENGTH" = Some (PStr ln).

(** The size that [check_file_size] settles on: the one the caller gives,
    the mode of the list otherwise. *)
Definition settled (given_size : pyval) (sizes : list pyval) : pyval :=
  if truthy given_size then given_size else default PNone (mode sizes).

(** Whatever its outcome, the computation changes no path of the file
    system outside [ps]. *)
Definition touches_only {A} (ps : list string) (m : M A) : Prop :=
  ∀ w q, q ∉ ps → fs (m w).2 !! q = fs w !! q.

(** What [baseline_attrs] returns on a file system: the attributes of
    the source, updated with those of the baseline companion when the
    processor is ROI_PAC and the companion is there. *)
Definition baseline_of (files : gmap string content) (file : string)
    (atr : attrs) : attrs :=
  if bool_decide (atr !! "PROCESSOR" = Some (PStr "roipac")) then
    match atr !! "DATE12" with
    | Some (PStr date12) =>
        match split_on "-" date12 with
        | [d1; d2] =>
            match files !! (dirname file +:+ "/" +:+ d1 +:+ "_" +:+ d2
                            +:+ "_baseline.rsc") with
            | Some (Rsc baseline_rsc) => baseline_rsc ∪ atr
            | _ => atr
            end
        | _ => atr
        end
    | _ => atr
    end
  else atr.

(** The attributes that the loader stores for a source whose attributes
    are [atr]: [drop_ifgram] and [PROJECT_NAME] are set, and every value
    is turned into a string. *)
Definition stored_attrs (extra atr : attrs) : attrs :=
  (λ v, PStr (py_str v)) <$>
    (<["PROJECT_NAME" := default (PStr "PYSAR") (extra !! "project_name")]>
       (<["drop_ifgram" := PStr "no"]> atr)).

(** The epoch that the loader stores for a source file. *)
Definition source_node (files : gmap string content) (extra : attrs)
    (file : string) : h5node :=
  match files !! file with
  | Some (Raster atr data) =>
      H5Node (stored_attrs extra (baseline_of files file atr)) data
  | _ => H5Node ∅ []
  end.

(** The members of the group after the loading loop over [fileList]. *)
Definition loaded_members (files : gmap string content) (extra : attrs)
    (fileList : list string) (m : gmap string h5node) : gmap string h5node :=
  foldl (λ m f, <[basename f := source_node files extra f]> m) m fileList.

(** The source is a raster file of the given declared size. *)
Definition raster_source (w : world) (file wd ln : string) : Prop :=
  ∃ (atr : attrs) data, fs w !! file = Some (Raster atr data)
    ∧ atr !! "WIDTH" = Some (PStr wd) ∧ atr !! "FILE_LENGTH" = Some (PStr ln).

(** Two sources of the same base name in two directories. *)
Definition world_twins : world :=
  World (<["/x/f.unw" := Raster (rsc "2" "2") ones]>
         (<["/y/f.unw" := Raster (rsc "2" "2") twos]> ∅)) [] [].

(** A container path that holds something that is not HDF5, next to a
    source. *)
Definition world_corrupt : world :=
  World (<["unwrapIfgram.h5" := Corrupt]>
         (<["/data/A.unw" := Raster (rsc "2" "2") ones]> ∅)) [] [].

(** A container whose epoch ids are [0.unw] and [10.unw], next to a
    source of the second one. *)
Definition container_nested : gmap string h5group :=
  <["interferograms" :=
     H5Group ∅ (<["0.unw" := H5Node (rsc "2" "2") ones]>
                (<["10.unw" := H5Node (rsc "2" "2") twos]> ∅))]> ∅.

Definition world_nested : world :=
  World (<["unwrapIfgram.h5" := H5 container_nested]>
         (<["/d/10.unw" := Raster (rsc "2" "2") twos]> ∅)) [] [].

(** The container of [A.unw] and [B.unw], of size 2 by 2, next to a new
    source of size 3 by 3. *)
Definition world_AB_larger : world :=
  World (<["unwrapIfgram.h5" := container_AB]>
         (<["/data/D.unw" := Raster (rsc "3" "3") []]> ∅)) [] [].

(** The parts of [container_AB]. *)
Definition members_AB : gmap string h5node :=
  <["A.unw" := H5Node (rsc "2" "2") ones]>
    (<["B.unw" := H5Node (rsc "2" "2") twos]> ∅).

Definition group_AB : h5group := H5Group ∅ members_AB.

Definition groups_AB : gmap string h5group :=
  <["interferograms" := group_AB]> ∅.

(** What [read_attribute] yields on [container_AB]. *)
Definition attrs_AB : attrs :=
  <["FILE_TYPE" := PStr "interferograms"]> (rsc "2" "2").

(** The pixel that a pair of draws stands for in a grid of [nrow] rows
    and [ncol] columns. *)
Definition drawn (nrow ncol : nat) (pair : nat * nat) : Z * Z :=
  (Z.of_nat (pair.1 mod nrow), Z.of_nat (pair.2 mod ncol)).

(** The draws of a list of pairs, in the order the generator gives
    them. *)
Definition draws (pairs : list (nat * nat)) : list nat :=
  concat ((λ p : nat * nat, [p.1; p.2]) <$> pairs).

(** The click is on a pixel of the stack that is not NaN. *)
Definition valid_click (stack : raster) (yx : nat * nat) : Prop :=
  ∃ q, index2 stack (Z.of_nat yx.1) (Z.of_nat yx.2) = Some (Some q).

Global Instance valid_click_dec stack yx : Decision (valid_click stack yx).
Proof.
  unfold valid_click.
  destruct (index2 stack (Z.of_nat yx.1) (Z.of_nat yx.2)) as [[q|]|].
  - left. by exists q.
  - right. by intros [? ?].
  - right. by intros [? ?].
Defined.

(** The attribute dictionary records the reference [(ref_y, ref_x)] and
    holds every other attribute of [atr], but the geographic reference,
    as its string. *)
Definition records_reference (atr' atr : attrs) (ref_y ref_x : pyval) : Prop :=
  atr' !! "ref_y" = Some ref_y ∧ atr' !! "ref_x" = Some ref_x
  ∧ ∀ key, key ∉ ["ref_y"; "ref_x"; "ref_lat"; "ref_lon"] →
           atr' !! key = (λ v, PStr (py_str v)) <$> atr !! key.

(** A raster file of a single-dataset type. *)
Definition velocity_world : world :=
  World (<["velocity.h5" :=
           Raster (<["FILE_TYPE" := PStr "velocity"]> (rsc "3" "3")) epoch_B]> ∅)
        [] [].

(** Two files of interferograms, to be seeded in one run. *)
Definition seed_world_two : world :=
  World (<["ifg2.h5" := H5 ifgram_3x3]> (fs seed_world)) (rng seed_world) [].

(** A template reader that finds the same entries under every name, and
    a [float] that reads nothing. *)
Definition template_of (t : gmap string string) (_ : string)
    : M (gmap string string) := ret t.

Definition no_float (_ : string) : option Q := None.

(** The command line [seed_data.py ifg.h5 -y y -x x -t template -r reference]. *)
Definition cmdline_opts (y x : pyval) (t r : option string) : options :=
  Opts (cmdline y x None random) None None t r.

(** * Proofs *)

(** ** The mode of a list *)

Section mode_facts.
Context `{Countable A}.
Implicit Types (l : list A) (x v w : A).

Lemma list_count_cons `{EqDecision B} (x a : B) (l : list B) :
  list_count x (a :: l) = (if decide (x = a) then 1 else 0) + list_count x l.
Proof.
  unfold list_count. rewrite filter_cons.
  destruct (decide (x = a)); reflexivity.
Qed.

Lemma list_count_pos `{EqDecision B} (x : B) (l : list B) :
  0 < list_count x l ↔ x ∈ l.
Proof.
  induction l as [|a l IH].
  - split; [inversion 1 | intros Hin; inversion Hin].
  - rewrite list_count_cons, elem_of_cons.
    destruct (decide (x = a)); [ split; [auto | simpl; lia] | ].
    simpl. rewrite IH. split; [auto | intros [?|?]; [congruence | done]].
Qed.

Lemma list_count_two `{EqDecision B} (a b : B) (l : list B) :
  a ≠ b → list_count a l + list_count b l ≤ length l.
Proof.
  intros Hab. induction l as [|c l IH]; [reflexivity|].
  rewrite !list_count_cons. simpl.
  destruct (decide (a = c)), (decide (b = c)); simpl; try lia; congruence.
Qed.

Lemma count_items_acc l x (acc : gmap A nat) :
  foldl (λ counts item, <[item := default 0 (counts !! item) + 1]> counts) acc l !! x
  = if decide (list_count x l = 0) then acc !! x
    else Some (default 0 (acc !! x) + list_count x l).
Proof.
  revert acc. induction l as [|a l IH]; intros acc; [reflexivity|].
  simpl foldl. rewrite IH, list_count_cons.
  destruct (decide (x = a)) as [->|Hne].
  - rewrite lookup_insert_eq. simpl.
    repeat case_decide; try lia; f_equal; lia.
  - rewrite lookup_insert_ne by congruence. simpl.
    repeat case_decide; try lia; reflexivity.
Qed.

Lemma count_items_lookup l x n :
  count_items l !! x = Some n ↔ x ∈ l ∧ n = list_count x l.
Proof.
  unfold count_items. rewrite count_items_acc, lookup_empty.
  rewrite <- list_count_pos. case_decide; simpl; split.
  - discriminate.
  - lia.
  - intros [= <-]. lia.
  - intros [_ ->]. reflexivity.
Qed.

Lemma max_item_acc (items : list (A * nat)) (mi0 : option A) (mc0 : nat) :
  let r := foldl (λ acc kv, if (acc.2 <? kv.2)%nat then (Some kv.1, kv.2) else acc)
                 (mi0, mc0) items in
  mc0 ≤ r.2 ∧ (∀ kv, kv ∈ items → kv.2 ≤ r.2)
  ∧ (r = (mi0, mc0) ∨ ∃ k, r.1 = Some k ∧ (k, r.2) ∈ items).
Proof.
  revert mi0 mc0. induction items as [|[k v] items IH]; intros mi0 mc0; simpl.
  - split; [lia|]. split; [intros kv Hkv; inversion Hkv | by left].
  - destruct (Nat.ltb_spec mc0 v) as [Hlt|Hge].
    + destruct (IH (Some k) v) as (Hle & Hall & Hor).
      split; [lia|]. split.
      * intros kv [->|Hin]%elem_of_cons; [exact Hle | by apply Hall].
      * right. destruct Hor as [->|(k' & Hk' & Hin)].
        -- exists k. split; [reflexivity | by left].
        -- exists k'. split; [exact Hk' | by right].
    + destruct (IH mi0 mc0) as (Hle & Hall & Hor).
      split; [lia|]. split.
      * intros kv [->|Hin]%elem_of_cons; [simpl; lia | by apply Hall].
      * destruct Hor as [Heq|(k' & Hk' & Hin)]; [by left|].
        right. exists k'. split; [exact Hk' | by right].
Qed.

Lemma list_count_snd_pos (items : list (A * nat)) (v : nat) :
  0 < list_count v items.*2 ↔ ∃ k, (k, v) ∈ items.
Proof.
  rewrite list_count_pos, list_elem_of_fmap. split.
  - intros ([k v'] & -> & Hin). by exists k.
  - intros (k & Hin). by exists (k, v).
Qed.

Lemma list_count_snd_tie (items : list (A * nat)) (v : nat) :
  NoDup items.*1 →
  1 < list_count v items.*2 ↔
  ∃ k1 k2, k1 ≠ k2 ∧ (k1, v) ∈ items ∧ (k2, v) ∈ items.
Proof.
  induction items as [|[k v'] items IH]; intros Hnd.
  - split; [inversion 1 | intros (? & ? & _ & Hin & _); inversion Hin].
  - apply NoDup_cons in Hnd as [Hk Hnd]. specialize (IH Hnd).
    change (((k, v') :: items).*2) with (v' :: items.*2).
    rewrite list_count_cons.
    assert (Hfresh : ∀ k' u, (k', u) ∈ items → k' ≠ k).
    { intros k' u Hin ->. apply Hk. apply list_elem_of_fmap. by exists (k, u). }
    destruct (decide (v = v')) as [<-|Hne]; simpl.
    + split.
      * intros Hgt. assert (Hpos : 0 < list_count v items.*2) by lia.
        apply list_count_snd_pos in Hpos as (k2 & Hin).
        exists k, k2. split; [intros ->; by eapply Hfresh|].
        split; [by left | by right].
      * intros (k1 & k2 & Hne & [[= -> ]|Hi1]%elem_of_cons & [[= ->]|Hi2]%elem_of_cons);
          try congruence.
        -- assert (0 < list_count v items.*2); [|lia].
           apply list_count_snd_pos. eauto.
        -- assert (0 < list_count v items.*2); [|lia].
           apply list_count_snd_pos. eauto.
        -- assert (1 < list_count v items.*2); [|lia].
           apply IH. eauto 6.
    + rewrite IH. split.
      * intros (k1 & k2 & Hne' & Hi1 & Hi2). exists k1, k2.
        split; [exact Hne'|]. split; by right.
      * intros (k1 & k2 & Hne' & [[= ]|Hi1]%elem_of_cons & [[= ]|Hi2]%elem_of_cons);
          try congruence. eauto 6.
Qed.

Lemma mode_unfold a b l' :
  let l := a :: b :: l' in
  mode l =
    let r := max_item (map_to_list (count_items l)) in
    if (r.2 =? 1)%nat then None
    else if (1 <? list_count r.2 (map_to_list (count_items l)).*2)%nat then None
    else r.1.
Proof. simpl. unfold mode. by destruct (max_item _). Qed.

Lemma mode_cases l :
  2 ≤ length l →
  match mode l with
  | None => undefined_mode l
  | Some v => most_frequent l v ∧ 1 < list_count v l
              ∧ ∀ w, w ≠ v → list_count w l < list_count v l
  end.
Proof.
  intros Hlen. destruct l as [|a [|b l']]; simpl in Hlen; try lia.
  rewrite mode_unfold. set (l := a :: b :: l').
  set (items := map_to_list (count_items l)). simpl.
  assert (Hitems : ∀ k (n : nat), (k, n) ∈ items ↔ k ∈ l ∧ n = list_count k l).
  { intros k n. unfold items. rewrite elem_of_map_to_list. apply count_items_lookup. }
  pose proof (max_item_acc items None 0) as Hmax.
  fold (max_item items) in Hmax. destruct (max_item items) as [mi mc].
  simpl in *. destruct Hmax as (_ & Hall & Hor).
  assert (Ha : a ∈ l) by (subst l; left).
  assert (Hpos : 0 < mc).
  { pose proof Ha as Hc. apply list_count_pos in Hc.
    specialize (Hall (a, list_count a l)). simpl in Hall.
    assert (list_count a l ≤ mc) by (by apply Hall, Hitems). lia. }
  destruct Hor as [[= _ ->]|(k & -> & Hk)]; [lia|].
  apply Hitems in Hk as [Hkl Hmc].
  assert (Hle : ∀ w, list_count w l ≤ mc).
  { intros w. destruct (decide (w ∈ l)) as [Hw|Hw].
    - apply (Hall (w, list_count w l)). by apply Hitems.
    - destruct (list_count w l) eqn:Hc; [lia|].
      exfalso. apply Hw, list_count_pos. lia. }
  assert (Hmf : most_frequent l k).
  { split; [exact Hkl|]. intros w. rewrite <- Hmc. apply Hle. }
  destruct (Nat.eqb_spec mc 1) as [H1|H1].
  { left. exists k. split; [exact Hmf | congruence]. }
  pose proof (list_count_snd_tie items mc (NoDup_fst_map_to_list _)) as Htie.
  destruct (Nat.ltb_spec 1 (list_count mc items.*2)) as [Hgt|Hngt].
  - apply Htie in Hgt as (k1 & k2 & Hne & [Hk1 Hc1]%Hitems & [Hk2 Hc2]%Hitems).
    right. exists k1, k2. split; [exact Hne|]. split.
    + split; [exact Hk1|]. intros w. rewrite <- Hc1. apply Hle.
    + split; [exact Hk2|]. intros w. rewrite <- Hc2. apply Hle.
  - split; [exact Hmf|]. split; [lia|]. intros w Hw.
    destruct (decide (list_count w l = mc)) as [Heq|Hneq].
    + exfalso. assert (1 < list_count mc items.*2); [|lia].
      apply Htie. exists w, k. split; [exact Hw|].
      split; apply Hitems; split; auto.
      apply list_count_pos. lia.
    + specialize (Hle w). lia.
Qed.

Lemma mode_policy_two_or_more l : 2 ≤ length l → mode_policy l.
Proof.
  intros Hlen. pose proof (mode_cases l Hlen) as Hc.
  unfold mode_policy. destruct (mode l) as [v|]; split.
  - destruct Hc as ((Hv & Hmax) & Hgt & Huniq).
    intros [(u & [Hu Humax] & Hone)|(u & w & Hne & [Hu Humax] & [Hw Hwmax])]; exfalso.
    + specialize (Humax v). lia.
    + destruct (decide (u = v)) as [->|Huv].
      * specialize (Huniq w ltac:(congruence)). specialize (Hwmax v). lia.
      * specialize (Huniq u Huv). specialize (Humax v). lia.
  - intros _. exists v. destruct Hc as (Hmf & _ & Huniq).
    split; [reflexivity | split; assumption].
  - reflexivity.
  - intros Hn. contradiction.
Qed.

Lemma mode_majority l v :
  length l < 2 * list_count v l → mode l = Some v.
Proof.
  intros Hmaj. destruct l as [|a [|b l']].
  - unfold list_count in Hmaj. simpl in Hmaj. lia.
  - rewrite list_count_cons in Hmaj. unfold list_count in Hmaj. simpl in Hmaj.
    destruct (decide (v = a)) as [->|]; [reflexivity | simpl in Hmaj; lia].
  - set (l := a :: b :: l') in *.
    pose proof (mode_cases l ltac:(simpl; lia)) as Hc.
    destruct (mode l) as [u|].
    + destruct Hc as (_ & _ & Huniq). destruct (decide (v = u)) as [->|Hne]; [done|].
      specialize (Huniq v Hne). pose proof (list_count_two v u l Hne). lia.
    + exfalso.
      destruct Hc as [(u & [Hu Humax] & Hone)|(u & w & Hne & [Hu Humax] & [Hw Hwmax])].
      * specialize (Humax v). subst l. simpl in Hmaj. lia.
      * pose proof (list_count_two u w l Hne).
        specialize (Humax v). specialize (Hwmax v). lia.
Qed.
End mode_facts.

(** ** Running the monad *)

Lemma bind_Val {A B} (m : M A) (k : A → M B) w a w' :
  m w = (Val a, w') → bind m k w = k a w'.
Proof. unfold bind. by intros ->. Qed.

Lemma bind_Exc {A B} (m : M A) (k : A → M B) w e w' :
  m w = (Exc e, w') → bind m k w = (Exc e, w').
Proof. unfold bind. by intros ->. Qed.

Lemma bind_Loop {A B} (m : M A) (k : A → M B) w w' :
  m w = (Loop, w') → bind m k w = (Loop, w').
Proof. unfold bind. by intros ->. Qed.

Lemma getitem_Some (atr : attrs) key v w :
  atr !! key = Some v → getitem atr key w = (Val v, w).
Proof. unfold getitem. by intros ->. Qed.

Lemma py_remove_last (x : string) (l : list string) :
  x ∉ l → py_remove x (l ++ [x]) = Some l.
Proof.
  induction l as [|y l IH]; intros Hx; simpl.
  - by rewrite decide_True.
  - apply not_elem_of_cons in Hx as [Hxy Hx].
    rewrite decide_False by done. by rewrite IH.
Qed.

Lemma check_file_size_majority (w : world) (f1 f2 f3 f4 : string)
    (a1 a2 a3 a4 : attrs) (h h4 : string) :
  read_attribute f1 w = (Val a1, w) →
  read_attribute f2 w = (Val a2, w) →
  read_attribute f3 w = (Val a3, w) →
  read_attribute f4 w = (Val a4, w) →
  a1 !! "WIDTH" = Some (PStr "100") → a1 !! "FILE_LENGTH" = Some (PStr h) →
  a2 !! "WIDTH" = Some (PStr "100") → a2 !! "FILE_LENGTH" = Some (PStr h) →
  a3 !! "WIDTH" = Some (PStr "100") → a3 !! "FILE_LENGTH" = Some (PStr h) →
  a4 !! "WIDTH" = Some (PStr "50") → a4 !! "FILE_LENGTH" = Some (PStr h4) →
  check_file_size [f1; f2; f3; f4] PNone PNone w
  = (Val ([f1; f2; f3], PStr "100", PStr h), w).
Proof.
  intros R1 R2 R3 R4 W1 L1 W2 L2 W3 L3 W4 L4.
  assert (Hne : f4 ∉ [f1; f2; f3]).
  { intros Hin. repeat (apply elem_of_cons in Hin as [->|Hin]); [..|inversion Hin];
      congruence. }
  unfold check_file_size.
  set (body := λ (acc : list (pyval * pyval)) (file : string), _).
  assert (Hsizes : for_each [f1; f2; f3; f4] body [] w
    = (Val [(PStr "100", PStr h); (PStr "100", PStr h);
            (PStr "100", PStr h); (PStr "50", PStr h4)], w)).
  { subst body. simpl. unfold bind, getitem.
    rewrite R1, W1, L1; simpl. rewrite R2, W2, L2; simpl.
    rewrite R3, W3, L3; simpl. by rewrite R4, W4, L4. }
  rewrite (bind_Val _ _ _ _ _ Hsizes). clear Hsizes body.
  cbn [fmap list_fmap fst snd truthy].
  assert (Hmw : mode [PStr "100"; PStr "100"; PStr "100"; PStr "50"] = Some (PStr "100")) by (vm_compute; reflexivity).
  assert (Hml : mode [PStr h; PStr h; PStr h; PStr h4] = Some (PStr h)).
  { apply mode_majority. rewrite !list_count_cons. rewrite !decide_True by reflexivity. simpl. lia. }
  rewrite Hmw, Hml. cbn [from_option]. unfold id.
  rewrite bool_decide_true by (left; vm_compute; lia).
  cbn [zip zip_with for_each]. unfold bind.
  rewrite (bool_decide_false (PStr "100" ≠ PStr "100" ∨ PStr h ≠ PStr h))
    by (intros [?|?]; congruence).
  rewrite (bool_decide_true (PStr "50" ≠ PStr "100" ∨ PStr h4 ≠ PStr h))
    by (left; congruence).
  pose proof (py_remove_last f4 [f1; f2; f3] Hne) as Hrm.
  simpl in Hrm |- *. by rewrite Hrm.
Qed.

(** ** Strings *)

Lemma prefix_refl (s : string) : String.prefix s s = true.
Proof.
  induction s as [|a s IH]; [reflexivity|]. simpl.
  by destruct (Ascii.ascii_dec a a).
Qed.

Lemma contains_refl (s : string) : contains s s = true.
Proof. destruct s; cbn [contains]; by rewrite prefix_refl. Qed.

Lemma contains_tail (sub : string) (c : ascii) (s : string) :
  contains sub s = true → contains sub (String c s) = true.
Proof. intros Hs. cbn [contains]. rewrite Hs. apply orb_true_r. Qed.

Lemma contains_basename (s : string) : contains (basename s) s = true.
Proof.
  induction s as [|c s IH]; [reflexivity|]. cbn [basename].
  destruct (contains "/" s).
  - by apply contains_tail.
  - destruct (Ascii.eqb c "/").
    + apply contains_tail, contains_refl.
    + apply contains_refl.
Qed.

(** ** [list.remove] *)

Lemma py_remove_elem (a : string) (out : list string) :
  a ∈ out →
  ∃ out1, py_remove a out = Some out1
    ∧ (∀ f, list_count f out1
            = list_count f out - (if decide (f = a) then 1 else 0))
    ∧ ∀ (P : string → Prop) (HD : ∀ x, Decision (P x)),
        ¬ P a → filter P out1 = filter P out.
Proof.
  induction out as [|y out IH]; intros Hin; [inversion Hin|].
  cbn [py_remove]. destruct (decide (a = y)) as [<-|Hne].
  - exists out. split; [reflexivity|]. split.
    + intros f. rewrite list_count_cons. destruct (decide (f = a)); simpl; lia.
    + intros P ? HP. by rewrite filter_cons_False.
  - apply elem_of_cons in Hin as [?|Hin]; [done|].
    destruct (IH Hin) as (out1 & -> & Hcnt & Hfil).
    exists (y :: out1). split; [reflexivity|]. split.
    + intros f. rewrite !list_count_cons, Hcnt.
      destruct (decide (f = y)), (decide (f = a)); simpl; try lia; congruence.
    + intros P ? HP. rewrite !filter_cons, (Hfil P _ HP). reflexivity.
Qed.

(** The inner loop of the duplicate detection: every file of [L] that
    satisfies [P] is removed once from [out]. *)
Lemma remove_loop (P : string → bool) (L out : list string) (w : world) :
  (∀ f, P f = true → list_count f L ≤ list_count f out) →
  ∃ out',
    for_each L (λ out file,
      if P file then or_raise ValueError (py_remove file out) else ret out)
      out w = (Val out', w)
    ∧ filter (λ f, P f = false) out' = filter (λ f, P f = false) out
    ∧ ∀ f, P f = true → list_count f out' = list_count f out - list_count f L.
Proof.
  revert out. induction L as [|a L IH]; intros out Hcnt.
  - exists out. split; [reflexivity|]. split; [reflexivity|].
    intros f _. unfold list_count at 3. simpl. lia.
  - cbn [for_each]. destruct (P a) eqn:HPa.
    + assert (Ha : a ∈ out).
      { apply list_count_pos. specialize (Hcnt a HPa).
        rewrite list_count_cons, decide_True in Hcnt by done. lia. }
      destruct (py_remove_elem a out Ha) as (out1 & Hrm & Hc1 & Hf1).
      destruct (IH out1) as (out' & Hrun & Hfil & Hc').
      { intros f Hf. specialize (Hcnt f Hf). rewrite Hc1.
        rewrite list_count_cons in Hcnt. destruct (decide (f = a)); simpl in *; lia. }
      exists out'. split; [|split].
      * unfold bind. rewrite Hrm. simpl. exact Hrun.
      * rewrite Hfil. apply Hf1. by rewrite HPa.
      * intros f Hf. rewrite (Hc' f Hf), Hc1, list_count_cons.
        destruct (decide (f = a)); simpl; lia.
    + destruct (IH out) as (out' & Hrun & Hfil & Hc').
      { intros f Hf. specialize (Hcnt f Hf). rewrite list_count_cons in Hcnt.
        destruct (decide (f = a)); simpl in *; [congruence | lia]. }
      exists out'. split; [|split].
      * unfold bind. simpl. exact Hrun.
      * exact Hfil.
      * intros f Hf. rewrite (Hc' f Hf), list_count_cons.
        destruct (decide (f = a)); simpl; [congruence | lia].
Qed.

Lemma list_count_filter_True (P : string → Prop) `{∀ x, Decision (P x)}
    (f : string) (l : list string) :
  P f → list_count f (filter P l) = list_count f l.
Proof.
  intros HP. unfold list_count. rewrite list_filter_filter.
  f_equal. apply list_filter_iff. intros x. split; [tauto|].
  intros <-. tauto.
Qed.

Lemma filter_all (P : string → Prop) `{∀ x, Decision (P x)} (l : list string) :
  (∀ f, f ∈ l → P f) → filter P l = l.
Proof.
  induction l as [|a l IH]; intros Hall; [reflexivity|].
  rewrite filter_cons_True by (apply Hall; left).
  f_equal. apply IH. intros f Hf. apply Hall. by right.
Qed.

Lemma filter_iff_in (P Q : string → Prop) `{∀ x, Decision (P x)}
    `{∀ x, Decision (Q x)} (l : list string) :
  (∀ f, f ∈ l → (P f ↔ Q f)) → filter P l = filter Q l.
Proof.
  induction l as [|a l IH]; intros Hall; [reflexivity|].
  rewrite !filter_cons, IH by (intros f Hf; apply Hall; by right).
  specialize (Hall a ltac:(left)).
  repeat case_decide; try reflexivity; tauto.
Qed.

(** The outer loop: after the epochs [done], exactly the files whose
    name is none of them are left. *)
Lemma remove_existed_loop (survivors done rest : list string) (w : world) :
  NoDup (done ++ rest) →
  (∀ f e, f ∈ survivors → e ∈ rest →
          (contains e f = true ↔ e = basename f)) →
  for_each rest (λ out epoch,
      for_each survivors (λ out file,
        if contains epoch file
        then or_raise ValueError (py_remove file out)
        else ret out) out)
    (filter (λ f, basename f ∉ done) survivors) w
  = (Val (filter (λ f, basename f ∉ done ++ rest) survivors), w).
Proof.
  revert done. induction rest as [|e rest IH]; intros done Hnd Hiff.
  - by rewrite app_nil_r.
  - cbn [for_each].
    set (out := filter (λ f, basename f ∉ done) survivors).
    assert (He : e ∉ done).
    { apply NoDup_app in Hnd as (_ & Hdis & _). intros Hin.
      apply (Hdis e Hin). left. }
    destruct (remove_loop (contains e) survivors out w) as (out' & Hrun & Hfil & Hcnt).
    { intros f Hf. destruct (decide (f ∈ survivors)) as [Hin|Hnin].
      - subst out. rewrite list_count_filter_True; [done|].
        apply Hiff in Hf; [|done|left]. by rewrite <- Hf.
      - assert (list_count f survivors = 0); [|lia].
        destruct (list_count f survivors) eqn:Hc; [done|].
        exfalso. apply Hnin, list_count_pos. lia. }
    unfold bind at 1. rewrite Hrun.
    assert (Hout' : out' = filter (λ f, basename f ∉ (done ++ [e])) survivors).
    { assert (Hsub : ∀ f, f ∈ out' → f ∈ survivors ∧ contains e f = false).
      { intros f Hf. destruct (contains e f) eqn:Hc.
        - exfalso. specialize (Hcnt f Hc). apply list_count_pos in Hf.
          assert (list_count f out ≤ list_count f survivors); [|lia].
          subst out. unfold list_count. rewrite list_filter_filter.
          clear. induction survivors as [|a l IHl]; [done|].
          rewrite !filter_cons. repeat case_decide; simpl; try lia; tauto.
        - split; [|done].
          assert (Hin : f ∈ filter (λ f, contains e f = false) out').
          { apply list_elem_of_filter. done. }
          rewrite Hfil in Hin. apply list_elem_of_filter in Hin as [_ Hin].
          subst out. by apply list_elem_of_filter in Hin as [_ Hin]. }
      rewrite <- (filter_all (λ f, contains e f = false) out') by (intros f Hf; by apply Hsub).
      rewrite Hfil. subst out. rewrite list_filter_filter.
      apply filter_iff_in. intros f Hf. rewrite not_elem_of_app.
      assert (contains e f = false ↔ basename f ∉ [e]); [|tauto].
      rewrite list_elem_of_singleton.
      specialize (Hiff f e Hf ltac:(left)).
      destruct (contains e f) eqn:Hc; split.
      - discriminate.
      - intros Hn. exfalso. apply Hn. symmetry. by apply Hiff.
      - intros _ Heq. symmetry in Heq. apply Hiff in Heq. congruence.
      - reflexivity. }
    rewrite Hout'. rewrite (IH (done ++ [e])).
    + by rewrite <- app_assoc.
    + by rewrite <- app_assoc.
    + intros f e' Hf He'. apply Hiff; [done | by right].
Qed.

(** ** Epoch lists *)

Lemma sorted_keys_elem {V} (m : gmap string V) (e : string) :
  e ∈ sorted (map fst (map_to_list m)) ↔ is_Some (m !! e).
Proof.
  unfold sorted. rewrite merge_sort_Permutation.
  change (map fst (map_to_list m)) with ((map_to_list m).*1).
  rewrite list_elem_of_fmap. split.
  - intros ([k v] & -> & Hin). apply elem_of_map_to_list in Hin. by exists v.
  - intros [v Hv]. exists (e, v). split; [done|]. by apply elem_of_map_to_list.
Qed.

Lemma sorted_keys_NoDup {V} (m : gmap string V) :
  NoDup (sorted (map fst (map_to_list m))).
Proof.
  unfold sorted. rewrite merge_sort_Permutation. apply NoDup_fst_map_to_list.
Qed.

Lemma h5_epochs_run (w : world) (path k : string) groups g :
  fs w !! path = Some (H5 groups) → groups !! k = Some g →
  h5_epochs path (PStr k) w
  = (Val (sorted (map fst (map_to_list (members g)))), w).
Proof.
  intros Hf Hg. unfold h5_epochs, h5_groups, bind, get_fs. simpl.
  rewrite Hf. simpl. by rewrite Hg.
Qed.

Lemma check_existed_all_present (w : world) (survivors : list string)
    (hdf5File : string) groups (atr : attrs) k g :
  survivors ≠ [] →
  fs w !! hdf5File = Some (H5 groups) →
  read_attribute hdf5File w = (Val atr, w) →
  atr !! "FILE_TYPE" = Some (PStr k) →
  groups !! k = Some g →
  (∀ f, f ∈ survivors → is_Some (members g !! basename f)) →
  (∀ f e, f ∈ survivors → is_Some (members g !! e) →
          contains e f = true → e = basename f) →
  check_existed_hdf5_file survivors hdf5File w = (Val (Some []), w).
Proof.
  intros Hne Hfile Hattr Hk Hg Hpresent Honly.
  unfold check_existed_hdf5_file. destruct survivors as [|f0 fl]; [done|].
  set (survivors := f0 :: fl) in *.
  assert (Hisfile : isfile hdf5File w = (Val true, w)).
  { unfold isfile, bind, get_fs. simpl. rewrite Hfile.
    by rewrite bool_decide_true by eauto. }
  rewrite (bind_Val _ _ _ _ _ Hisfile).
  assert (Htry : try_except (atr <- read_attribute hdf5File ;; ret (Some atr))
                   (rm hdf5File ;;; ret None) w = (Val (Some atr), w)).
  { unfold try_except. by rewrite (bind_Val _ _ _ _ _ Hattr). }
  rewrite (bind_Val _ _ _ _ _ Htry).
  rewrite (bind_Val _ _ _ _ _ (getitem_Some _ _ _ _ Hk)).
  rewrite (bind_Val _ _ _ _ _ (h5_epochs_run _ _ _ _ _ Hfile Hg)).
  set (epochs := sorted _).
  pose proof (remove_existed_loop survivors [] epochs w) as Hloop.
  rewrite filter_all in Hloop by (intros; apply not_elem_of_nil).
  assert (Hnil : filter (λ f, basename f ∉ [] ++ epochs) survivors = []).
  { clear Hloop. induction survivors as [|a l IH] in Hpresent |- *; [done|].
    rewrite filter_cons_False.
    - apply IH. intros f Hf. apply Hpresent. by right.
    - intros Hn. apply Hn. simpl. apply sorted_keys_elem, Hpresent. left. }
  rewrite Hnil in Hloop. rewrite (bind_Val _ _ _ _ _ (Hloop
    (sorted_keys_NoDup _)
    (λ f e Hf He, conj (Honly f e Hf (proj1 (sorted_keys_elem _ _) He))
                       (λ Heq, eq_ind_r (λ e, contains e f = true)
                                 (contains_basename f) Heq)))).
  reflexivity.
Qed.

Lemma merge_all_present (w : world) (fileType : string)
    (fileList survivors : list string) (hdf5File : string) (extra : attrs)
    (mw ml : pyval) groups (atr : attrs) k g :
  check_file_size fileList PNone PNone w = (Val (survivors, mw, ml), w) →
  survivors ≠ [] →
  fs w !! hdf5File = Some (H5 groups) →
  read_attribute hdf5File w = (Val atr, w) →
  atr !! "FILE_TYPE" = Some (PStr k) →
  groups !! k = Some g →
  (∀ f, f ∈ survivors → is_Some (members g !! basename f)) →
  (∀ f e, f ∈ survivors → is_Some (members g !! e) →
          contains e f = true → e = basename f) →
  roipac2multi_group_hdf5 fileType fileList hdf5File extra w
  = (Val (Some hdf5File, None), w).
Proof.
  intros Hsize Hne Hfile Hattr Hk Hg Hpresent Honly.
  unfold roipac2multi_group_hdf5.
  destruct fileList as [|f0 fl].
  { simpl in Hsize. by injection Hsize as <-. }
  unfold bind at 1. cbn [head or_raise ret].
  rewrite (bind_Val _ _ _ _ _ Hsize).
  destruct survivors as [|s0 sl] eqn:Hs; [done|]. rewrite <- Hs in *.
  rewrite (bind_Val _ _ _ _ _
    (check_existed_all_present w _ _ _ _ _ _ Hne Hfile Hattr Hk Hg Hpresent Honly)).
  rewrite bool_decide_false by (subst; discriminate).
  reflexivity.
Qed.

(** ** Rasters *)

Lemma shape_length {A} (m : list (list A)) : length (shape m) = length m.
Proof. unfold shape. apply length_fmap. Qed.

Lemma shape_lookup {A} (m : list (list A)) (i : nat) :
  shape m !! i = length <$> m !! i.
Proof. unfold shape. apply list_lookup_fmap. Qed.

Lemma index2_fmap {A B} (f : A → B) (m : list (list A)) (y x : Z) :
  index2 (map (map f) m) y x = f <$> index2 m y x.
Proof.
  unfold index2. rewrite length_map.
  destruct (np_idx (length m) y) as [i|]; [|reflexivity]. simpl.
  change (map (map f) m) with (map f <$> m). rewrite list_lookup_fmap.
  destruct (m !! i) as [row|]; [|reflexivity]. simpl. rewrite length_map.
  destruct (np_idx (length row) x) as [j|]; [|reflexivity]. simpl.
  change (map f row) with (f <$> row). apply list_lookup_fmap.
Qed.

Lemma index2_zip_with {A B C} (f : A → B → C) (a : list (list A))
    (b : list (list B)) (y x : Z) :
  shape a = shape b →
  index2 (zip_with (zip_with f) a b) y x
  = match index2 a y x, index2 b y x with
    | Some p, Some q => Some (f p q)
    | _, _ => None
    end.
Proof.
  intros Hs. unfold index2.
  assert (Hlen : length a = length b) by (by rewrite <- !shape_length, Hs).
  rewrite length_zip_with, <- Hlen, Nat.min_id.
  destruct (np_idx (length a) y) as [i|]; [|reflexivity]. simpl.
  rewrite lookup_zip_with.
  pose proof (shape_lookup a i) as Ha. pose proof (shape_lookup b i) as Hb.
  rewrite Hs in Ha. rewrite Ha in Hb.
  destruct (a !! i) as [ra|], (b !! i) as [rb|]; simpl in *; try done.
  injection Hb as Hb.
  rewrite length_zip_with, <- Hb, Nat.min_id.
  destruct (np_idx (length ra) x) as [j|]; [|reflexivity]. simpl.
  rewrite lookup_zip_with.
  destruct (ra !! j), (rb !! j); reflexivity.
Qed.

Lemma index2_raster_sub (data : raster) (r : pixel) (y x : Z) :
  index2 (raster_sub data r) y x = (λ a, pixel_sub a r) <$> index2 data y x.
Proof. apply index2_fmap. Qed.

Lemma lookup_raster_sub (data : raster) (r : pixel) (y x : nat) :
  raster_sub data r !! y ≫= (.!! x)
  = (λ a, pixel_sub a r) <$> (data !! y ≫= (.!! x)).
Proof.
  change (raster_sub data r) with (map (λ a, pixel_sub a r) <$> data).
  rewrite list_lookup_fmap. destruct (data !! y) as [row|]; [|reflexivity].
  simpl. change (map (λ a, pixel_sub a r) row) with ((λ a, pixel_sub a r) <$> row).
  apply list_lookup_fmap.
Qed.

Lemma shape_zip_with {A B C} (f : A → B → C) (a : list (list A))
    (b : list (list B)) :
  shape a = shape b → shape (zip_with (zip_with f) a b) = shape a.
Proof.
  revert b. induction a as [|ra a IH]; intros [|rb b] Hs; try done.
  injection Hs as Hr Hs. unfold shape in *. simpl. f_equal.
  - rewrite length_zip_with. lia.
  - by apply IH.
Qed.

Lemma raster_add_Some (a b c : raster) :
  raster_add a b = Some c →
  shape c = shape a
  ∧ ∀ y x, index2 c y x
           = match index2 a y x, index2 b y x with
             | Some p, Some q => Some (pixel_add p q)
             | _, _ => None
             end.
Proof.
  unfold raster_add. case_decide as Hs; [|done]. intros [= <-]. split.
  - by apply shape_zip_with.
  - intros y x. by apply index2_zip_with.
Qed.

(** Where the sum of a list of rasters is a number, every one of them
    is. *)
Lemma stacking_defined (acc : raster) (rs : list raster) (s : raster)
    (y x : Z) (q : Q) :
  stacking acc rs = Some s →
  index2 s y x = Some (Some q) →
  ∀ r, r ∈ acc :: rs → ∃ q', index2 r y x = Some (Some q').
Proof.
  revert acc. induction rs as [|r0 rs IH]; intros acc Hst Hq r Hr.
  - injection Hst as <-. apply list_elem_of_singleton in Hr as ->. eauto.
  - simpl in Hst. destruct (raster_add acc r0) as [acc'|] eqn:Hadd; [|done].
    simpl in Hst. apply raster_add_Some in Hadd as [_ Hidx].
    assert (Hacc' : ∃ q', index2 acc' y x = Some (Some q')).
    { apply (IH acc' Hst Hq). left. }
    destruct Hacc' as [q' Hq']. rewrite Hidx in Hq'.
    destruct (index2 acc y x) as [[pa|]|] eqn:Ha,
             (index2 r0 y x) as [[pb|]|] eqn:Hb; simpl in Hq'; try done.
    apply elem_of_cons in Hr as [->|Hr]; [eauto|].
    apply elem_of_cons in Hr as [->|Hr]; [eauto|].
    apply (IH acc' Hst Hq). by right.
Qed.

Lemma assign_where_Some (data : raster) (cond : bgrid) (v : pixel) (s : raster) :
  assign_where data cond v = Some s →
  ∀ y x, index2 s y x
         = match index2 data y x, index2 cond y x with
           | Some p, Some c => Some (if c : bool then v else p)
           | _, _ => None
           end.
Proof.
  unfold assign_where. case_decide as Hs; [|done]. intros [= <-] y x.
  by apply index2_zip_with.
Qed.

Lemma index2_nonneg {A} (m : list (list A)) (y x : Z) (a : A) :
  (0 ≤ y)%Z → (0 ≤ x)%Z →
  index2 m y x = Some a ↔
  ∃ row, m !! Z.to_nat y = Some row ∧ row !! Z.to_nat x = Some a.
Proof.
  intros Hy Hx. unfold index2, np_idx. split.
  - intros H. repeat case_decide; simplify_option_eq; try lia; eauto.
  - intros (row & Hrow & Ha).
    pose proof (lookup_lt_Some _ _ _ Hrow). pose proof (lookup_lt_Some _ _ _ Ha).
    rewrite decide_True by lia. simpl. rewrite Hrow. simpl.
    rewrite decide_True by lia. simpl. exact Ha.
Qed.

Lemma py_slice_one {A} (l : list A) (i : Z) (a : A) :
  (0 ≤ i)%Z → l !! Z.to_nat i = Some a → py_slice l i (i + 1) = [a].
Proof.
  intros Hi Ha. pose proof (lookup_lt_Some _ _ _ Ha) as Hlt.
  unfold py_slice, slice_bound. rewrite !decide_False by lia.
  replace (Z.to_nat (Z.min i (Z.of_nat (length l)))) with (Z.to_nat i) by lia.
  replace (Z.to_nat (Z.min (i + 1) (Z.of_nat (length l))) - Z.to_nat i) with 1 by lia.
  rewrite (drop_S _ _ _ Ha). reflexivity.
Qed.

(** The windowed mean over the single pixel [(y, x)], where the mask is
    true, is that pixel. *)
Lemma masked_mean_pixel (data : raster) (mask : bgrid) (y x : Z) (p : pixel) :
  (0 ≤ y)%Z → (0 ≤ x)%Z →
  index2 data y x = Some p → index2 mask y x = Some true →
  masked_mean data mask (x, y, x + 1, y + 1)%Z = Some (mean [p]).
Proof.
  intros Hy Hx Hd Hm.
  apply index2_nonneg in Hd as (drow & Hdrow & Hp); [|done..].
  apply index2_nonneg in Hm as (mrow & Hmrow & Ht); [|done..].
  unfold masked_mean.
  rewrite (py_slice_one data y drow), (py_slice_one mask y mrow) by done.
  simpl. rewrite (py_slice_one drow x p), (py_slice_one mrow x true) by done.
  reflexivity.
Qed.

Lemma mean_one_sub (v : Q) :
  ∃ q, pixel_sub (Some v) (mean [Some v]) = Some q ∧ (q == 0)%Q.
Proof.
  simpl. eexists. split; [reflexivity|]. field.
Qed.

(** ** Reading *)

Ltac unfold_monad :=
  unfold h5_main_group, h5_epochs, h5_groups, getitem, as_str, or_raise,
    bind, ret, raise, get_fs, set_fs in *.

Lemma read_attribute_frame (path : string) (w w1 : world) :
  fs w1 = fs w → read_attribute path w1 = ((read_attribute path w).1, w1).
Proof.
  intros Hfs. unfold read_attribute. unfold_monad. cbn [fst snd]. rewrite Hfs.
  repeat (case_match; simplify_eq/=; try reflexivity).
Qed.

Lemma read_attribute_readonly (path : string) (w : world) :
  (read_attribute path w).2 = w.
Proof.
  unfold read_attribute. unfold_monad. cbn [fst snd].
  repeat (case_match; simplify_eq/=; try reflexivity).
Qed.

Lemma read_attribute_H5 (path : string) (w w' : world) groups (atr : attrs) :
  fs w !! path = Some (H5 groups) →
  read_attribute path w = (Val atr, w') →
  ∃ k g, h5_file_type groups = Some k ∧ groups !! k = Some g
         ∧ atr !! "FILE_TYPE" = Some (PStr k).
Proof.
  intros Hf. unfold read_attribute. unfold_monad. cbn [fst snd]. rewrite Hf.
  destruct (h5_file_type groups) as [k|]; [|done]. simpl.
  destruct (groups !! k) as [g|] eqn:Hg; [|done]. simpl.
  intros Hr. exists k, g. split; [done|]. split; [done|].
  repeat (case_match; simplify_eq/=); apply lookup_insert_eq.
Qed.

Lemma h5_main_group_run (path : string) (w : world) groups k g :
  fs w !! path = Some (H5 groups) →
  h5_file_type groups = Some k → groups !! k = Some g →
  h5_main_group path w = (Val (k, g), w).
Proof.
  intros Hf Hk Hg. unfold_monad. simpl. rewrite Hf. simpl. rewrite Hk. simpl.
  by rewrite Hg.
Qed.

(** ** Epochs in the order of their ids *)

Lemma epoch_nodes_Forall2 (g : h5group) :
  Forall2 (λ e n, members g !! e = Some n)
          (sorted (map fst (map_to_list (members g)))) (epoch_nodes g).
Proof.
  unfold epoch_nodes.
  assert (Hall : ∀ e, e ∈ sorted (map fst (map_to_list (members g)))
                      → is_Some (members g !! e)).
  { intros e. apply sorted_keys_elem. }
  induction (sorted _) as [|e l IH]; [constructor|].
  destruct (Hall e ltac:(left)) as [n Hn]. cbn [omap list_omap]. rewrite Hn.
  constructor; [done|]. apply IH. intros e' He'. apply Hall. by right.
Qed.

(** ** [spatial_average] *)

Lemma spatial_average_loop (mask : bgrid) (box : Z * Z * Z * Z)
    (nodes : list h5node) (vs acc : list pixel) (w : world) :
  Forall2 (λ n v, masked_mean (ndata n) mask box = Some v) nodes vs →
  for_each nodes (λ acc n,
      v <- or_raise IndexError (masked_mean (ndata n) mask box) ;;
      ret (acc ++ [v])) acc w
  = (Val (acc ++ vs), w).
Proof.
  intros Hall. revert acc. induction Hall as [|n v nodes vs Hn _ IH]; intros acc.
  - by rewrite app_nil_r.
  - cbn [for_each]. unfold bind at 1. unfold bind at 1. rewrite Hn. simpl.
    rewrite IH. by rewrite <- app_assoc.
Qed.

Lemma spatial_average_H5 (File : string) (w : world) groups k g
    (mask : bgrid) (box : Z * Z * Z * Z) (vs : list pixel) :
  fs w !! File = Some (H5 groups) →
  h5_file_type groups = Some k → groups !! k = Some g →
  Forall2 (λ n v, masked_mean (ndata n) mask box = Some v) (epoch_nodes g) vs →
  spatial_average File mask box w = (Val vs, w).
Proof.
  intros Hf Hk Hg Hall. unfold spatial_average.
  unfold bind at 1. unfold get_fs. rewrite Hf.
  rewrite (bind_Val _ _ _ _ _ (h5_main_group_run _ _ _ _ _ Hf Hk Hg)).
  apply (spatial_average_loop mask box _ vs [] w Hall).
Qed.

(** ** The epoch loop of [seed_file_reference_value] *)

Lemma world_eta (w : world) : World (fs w) (rng w) (clicks w) = w.
Proof. by destruct w. Qed.

Lemma seed_loop (g : h5group) (mk : h5node → pixel → h5node)
    (outName k : string) (ga : attrs) (pairs : list (string * pixel))
    (m : gmap string h5node) (w : world) :
  fs w !! outName = Some (H5 (<[k := H5Group ga m]> ∅)) →
  NoDup pairs.*1 →
  (∀ e, e ∈ pairs.*1 → e ≠ EmptyString ∧ m !! e = None ∧ is_Some (members g !! e)) →
  for_each pairs (λ _ er,
      let '(epoch, r) := er in
      n <- or_raise KeyError (members g !! epoch) ;;
      h5_create_member outName k epoch (mk n r)) tt w
  = (Val tt,
     World (<[outName := H5 (<[k := H5Group ga (seeded_members g mk pairs m)]> ∅)]>
              (fs w)) (rng w) (clicks w)).
Proof.
  revert m w. induction pairs as [|[e r] pairs IH]; intros m w Hout Hnd Hall.
  - simpl. unfold ret. by rewrite insert_id, world_eta.
  - cbn [for_each]. destruct (Hall e ltac:(left)) as (He & Hm & [n Hn]).
    apply NoDup_cons in Hnd as [Hfresh Hnd].
    unfold bind at 1. unfold bind at 1. rewrite Hn. cbn [or_raise ret].
    unfold h5_create_member. unfold bind at 1. unfold h5_groups at 1.
    unfold bind at 1. unfold get_fs at 1. rewrite Hout. cbn [ret].
    unfold bind at 1. rewrite lookup_insert_eq. cbn [or_raise ret].
    rewrite bool_decide_false by (intros [?|[? ?]]; simpl in *; congruence).
    unfold bind at 1. unfold get_fs at 1. unfold set_fs at 1.
    cbn [gattrs members]. rewrite insert_insert_eq.
    rewrite IH with (m := <[e := mk n r]> m).
    + cbn [fs rng clicks]. rewrite insert_insert_eq.
      unfold seeded_members. cbn [foldl fst snd]. by rewrite Hn.
    + cbn [fs]. apply lookup_insert_eq.
    + exact Hnd.
    + intros e' He'. destruct (Hall e' ltac:(by right)) as (? & ? & ?).
      split; [done|]. split; [|done].
      rewrite lookup_insert_ne; [done|]. intros ->. done.
Qed.

Lemma seeded_members_cons g mk e r pairs m :
  seeded_members g mk ((e, r) :: pairs) m
  = seeded_members g mk pairs
      (<[e := mk (default (H5Node ∅ []) (members g !! e)) r]> m).
Proof. reflexivity. Qed.

Lemma seeded_members_notin g mk pairs m e :
  e ∉ pairs.*1 → seeded_members g mk pairs m !! e = m !! e.
Proof.
  revert m. induction pairs as [|[e' r] pairs IH]; intros m Hnin; [done|].
  apply not_elem_of_cons in Hnin as [Hne Hnin].
  rewrite seeded_members_cons, IH by done.
  by apply lookup_insert_ne.
Qed.

Lemma seeded_members_in g mk pairs m (i : nat) e r n :
  NoDup pairs.*1 → pairs !! i = Some (e, r) → members g !! e = Some n →
  seeded_members g mk pairs m !! e = Some (mk n r).
Proof.
  revert m i. induction pairs as [|[e' r'] pairs IH]; intros m i Hnd Hi Hn; [done|].
  apply NoDup_cons in Hnd as [Hfresh Hnd]. rewrite seeded_members_cons.
  destruct i as [|i].
  - injection Hi as -> ->.
    rewrite seeded_members_notin by done. rewrite Hn. apply lookup_insert_eq.
  - by apply (IH _ i).
Qed.

Section seed_value.
Variable coord_radar2geo : pyval → attrs → string → pyval.

Lemma seed_file_reference_value_multi (w : world) (File outName : string)
    (refList : list pixel) (ref_y ref_x : pyval) groups (atr : attrs) k g :
  fs w !! File = Some (H5 groups) →
  read_attribute File w = (Val atr, w) →
  atr !! "FILE_TYPE" = Some (PStr k) →
  k ∈ ["timeseries"; "interferograms"; "wrapped"; "coherence"] →
  groups !! k = Some g →
  members g !! EmptyString = None →
  length refList = size (members g) →
  outName ≠ File →
  seed_file_reference_value coord_radar2geo File outName refList ref_y ref_x w
  = (Val outName,
     World (<[outName := H5 (<[k := seeded_group coord_radar2geo k atr g refList ref_y ref_x]> ∅)]>
              (fs w)) (rng w) (clicks w)).
Proof.
  intros Hfile Hattr Hk Hin Hg Hempty Hlen Hout.
  unfold seed_file_reference_value.
  rewrite (bind_Val _ _ _ _ _ Hattr).
  rewrite (bind_Val _ _ _ _ _ (getitem_Some _ _ _ _ Hk)).
  unfold bind at 1. cbn [as_str ret].
  rewrite bool_decide_true by done.
  assert (Hgroups : h5_groups File w = (Val groups, w)).
  { unfold h5_groups, bind, get_fs. simpl. by rewrite Hfile. }
  rewrite (bind_Val _ _ _ _ _ Hgroups).
  rewrite (bind_Val _ _ _ _ _ (h5_epochs_run _ _ _ _ _ Hfile Hg)).
  set (epochList := sorted _).
  unfold bind at 1. rewrite Hg. cbn [or_raise ret].
  assert (Hsz : length epochList = size (members g)).
  { unfold epochList, sorted. rewrite merge_sort_Permutation, length_map.
    apply length_map_to_list. }
  rewrite bool_decide_false by lia.
  rewrite bool_decide_false by done.
  set (w1 := World (<[outName := H5 ∅]> (fs w)) (rng w) (clicks w)).
  assert (Hopen : h5_open_w outName w = (Val tt, w1)) by reflexivity.
  rewrite (bind_Val _ _ _ _ _ Hopen).
  set (w2 := World (<[outName := H5 (<[k := H5Group ∅ ∅]> ∅)]> (fs w))
                   (rng w) (clicks w)).
  assert (Hcreate : h5_create_group outName k ∅ w1 = (Val tt, w2)).
  { subst w1 w2. unfold h5_create_group, h5_groups, bind, get_fs, set_fs.
    cbn [fs rng clicks]. rewrite lookup_insert_eq. cbn [ret].
    rewrite lookup_empty. cbn [fs rng clicks]. by rewrite insert_insert_eq. }
  rewrite (bind_Val _ _ _ _ _ Hcreate).
  assert (Hw2 : fs w2 !! outName = Some (H5 (<[k := H5Group ∅ ∅]> ∅)))
    by apply lookup_insert_eq.
  assert (Hnd : NoDup (zip epochList refList).*1).
  { rewrite fst_zip by lia. apply sorted_keys_NoDup. }
  assert (Hall : ∀ e, e ∈ (zip epochList refList).*1 →
            e ≠ EmptyString ∧ (∅ : gmap string h5node) !! e = None
            ∧ is_Some (members g !! e)).
  { intros e He. rewrite fst_zip in He by lia.
    apply sorted_keys_elem in He. split; [|split; [apply lookup_empty | done]].
    intros ->. rewrite Hempty in He. by destruct He. }
  unfold seeded_group. fold epochList.
  destruct (bool_decide (k = "timeseries")).
  - pose proof (seed_loop g (λ n r, H5Node ∅ (raster_sub (ndata n) r))
                  outName k ∅ _ ∅ w2 Hw2 Hnd Hall) as Hloop.
    cbv beta in Hloop. unfold bind at 1. unfold bind at 1. rewrite Hloop.
    unfold h5_set_group_attrs, h5_groups, bind, get_fs, set_fs, ret. simpl.
    rewrite lookup_insert_eq. simpl. rewrite lookup_insert_eq. simpl.
    by rewrite !insert_insert_eq.
  - pose proof (seed_loop g
                  (λ n r, H5Node (seed_attributes coord_radar2geo (nattrs n) ref_x ref_y)
                                 (raster_sub (ndata n) r))
                  outName k ∅ _ ∅ w2 Hw2 Hnd Hall) as Hloop.
    cbv beta in Hloop. unfold bind at 1. rewrite Hloop.
    unfold ret. simpl. by rewrite !insert_insert_eq.
Qed.

Lemma seed_file_reference_value_mismatch (w : world) (File outName : string)
    (refList : list pixel) (ref_y ref_x : pyval) groups (atr : attrs) k g :
  fs w !! File = Some (H5 groups) →
  read_attribute File w = (Val atr, w) →
  atr !! "FILE_TYPE" = Some (PStr k) →
  k ∈ ["timeseries"; "interferograms"; "wrapped"; "coherence"] →
  groups !! k = Some g →
  length refList ≠ size (members g) →
  seed_file_reference_value coord_radar2geo File outName refList ref_y ref_x w
  = (Exc (SystemExit 1), w).
Proof.
  intros Hfile Hattr Hk Hin Hg Hlen.
  unfold seed_file_reference_value.
  rewrite (bind_Val _ _ _ _ _ Hattr).
  rewrite (bind_Val _ _ _ _ _ (getitem_Some _ _ _ _ Hk)).
  unfold bind at 1. cbn [as_str ret].
  rewrite bool_decide_true by done.
  assert (Hgroups : h5_groups File w = (Val groups, w)).
  { unfold h5_groups, bind, get_fs. simpl. by rewrite Hfile. }
  rewrite (bind_Val _ _ _ _ _ Hgroups).
  rewrite (bind_Val _ _ _ _ _ (h5_epochs_run _ _ _ _ _ Hfile Hg)).
  unfold bind at 1. rewrite Hg. cbn [or_raise ret].
  rewrite bool_decide_true; [reflexivity|].
  unfold sorted. rewrite merge_sort_Permutation, length_map, length_map_to_list.
  congruence.
Qed.

Lemma seeded_group_members (k : string) (atr : attrs) (g : h5group)
    (refList : list pixel) (ref_y ref_x : pyval) :
  ∃ mk, members (seeded_group coord_radar2geo k atr g refList ref_y ref_x)
        = seeded_members g mk
            (zip (sorted (map fst (map_to_list (members g)))) refList) ∅
        ∧ ∀ n r, ndata (mk n r) = raster_sub (ndata n) r.
Proof.
  unfold seeded_group. destruct (bool_decide (k = "timeseries"));
    eexists; (split; [reflexivity|]); reflexivity.
Qed.

Lemma seeded_group_lookup (k : string) (atr : attrs) (g : h5group)
    (refList : list pixel) (ref_y ref_x : pyval) (i : nat) e r n :
  sorted (map fst (map_to_list (members g))) !! i = Some e →
  refList !! i = Some r →
  members g !! e = Some n →
  ∃ n', members (seeded_group coord_radar2geo k atr g refList ref_y ref_x) !! e = Some n'
        ∧ ndata n' = raster_sub (ndata n) r.
Proof.
  intros He Hr Hn.
  destruct (seeded_group_members k atr g refList ref_y ref_x) as (mk & -> & Hmk).
  exists (mk n r). split; [|apply Hmk].
  apply (seeded_members_in g mk _ ∅ i e r n).
  - apply NoDup_fmap_fst.
    + intros e' r1 r2 H1 H2.
      apply list_elem_of_lookup in H1 as [i1 H1], H2 as [i2 H2].
      apply lookup_zip_Some in H1 as [H1 H1'], H2 as [H2 H2'].
      pose proof (NoDup_lookup _ _ _ _ (sorted_keys_NoDup (members g)) H1 H2).
      congruence.
    + apply NoDup_zip_l, sorted_keys_NoDup.
  - by apply lookup_zip_Some.
  - done.
Qed.

Lemma seeded_group_dom (k : string) (atr : attrs) (g : h5group)
    (refList : list pixel) (ref_y ref_x : pyval) (e : string) :
  length refList = size (members g) →
  is_Some (members (seeded_group coord_radar2geo k atr g refList ref_y ref_x) !! e)
  ↔ is_Some (members g !! e).
Proof.
  intros Hlen.
  assert (Hsz : length (sorted (map fst (map_to_list (members g))))
                = length refList).
  { unfold sorted. by rewrite merge_sort_Permutation, length_map, length_map_to_list. }
  split.
  - destruct (seeded_group_members k atr g refList ref_y ref_x) as (mk & -> & _).
    intros Hs. apply sorted_keys_elem.
    destruct (decide (e ∈ sorted (map fst (map_to_list (members g)))))
      as [|Hnin]; [done|].
    rewrite seeded_members_notin, lookup_empty in Hs.
    + by destruct Hs.
    + rewrite fst_zip by lia. done.
  - intros [n Hn].
    assert (He : e ∈ sorted (map fst (map_to_list (members g))))
      by (apply sorted_keys_elem; eauto).
    apply list_elem_of_lookup in He as [i Hi].
    destruct (lookup_lt_is_Some_2 refList i) as [r Hr].
    { rewrite <- Hsz. by eapply lookup_lt_Some. }
    destruct (seeded_group_lookup k atr g refList ref_y ref_x i e r n Hi Hr Hn)
      as (n' & Hn' & _).
    eauto.
Qed.
End seed_value.

(** ** Computations that keep the file system *)

Lemma keeps_fs_ret {A} (a : A) : keeps_fs (ret a).
Proof. by intros w. Qed.

Lemma keeps_fs_raise {A} (e : exn) : keeps_fs (@raise A e).
Proof. by intros w. Qed.

Lemma keeps_fs_or_raise {A} (e : exn) (o : option A) : keeps_fs (or_raise e o).
Proof. destruct o; [apply keeps_fs_ret | apply keeps_fs_raise]. Qed.

Lemma keeps_fs_bind {A B} (m : M A) (k : A → M B) :
  keeps_fs m → (∀ a, keeps_fs (k a)) → keeps_fs (bind m k).
Proof.
  intros Hm Hk w. unfold bind. specialize (Hm w).
  destruct (m w) as [[a|e|] w']; simpl in *; [|done..].
  by rewrite Hk.
Qed.

Lemma keeps_fs_get_fs : keeps_fs get_fs.
Proof. by intros w. Qed.

Lemma keeps_fs_read (path : string) : keeps_fs (read path).
Proof.
  apply keeps_fs_bind; [apply keeps_fs_get_fs|]. intros f.
  repeat case_match; (apply keeps_fs_ret || apply keeps_fs_raise).
Qed.

Lemma keeps_fs_choice (n : nat) : keeps_fs (choice n).
Proof.
  intros w. unfold choice. destruct n; [done|]. by destruct (rng w).
Qed.

Lemma keeps_fs_redraw fuel data_mat nrow ncol y x :
  keeps_fs (redraw fuel data_mat nrow ncol y x).
Proof.
  revert y x. induction fuel as [|fuel IH]; intros y x; cbn [redraw].
  - apply keeps_fs_bind; [apply keeps_fs_or_raise|]. intros [|]; [apply keeps_fs_ret|].
    by intros w.
  - apply keeps_fs_bind; [apply keeps_fs_or_raise|]. intros [|]; [apply keeps_fs_ret|].
    apply keeps_fs_bind; [apply keeps_fs_choice|]. intros y'.
    apply keeps_fs_bind; [apply keeps_fs_choice|]. intros x'. apply IH.
Qed.

Lemma keeps_fs_random_select data_mat :
  keeps_fs (random_select_reference_yx data_mat).
Proof.
  unfold random_select_reference_yx.
  apply keeps_fs_bind; [apply keeps_fs_choice|]. intros y.
  apply keeps_fs_bind; [apply keeps_fs_choice|]. intros x.
  apply keeps_fs_bind; [by intros w|]. intros fuel. apply keeps_fs_redraw.
Qed.

Lemma keeps_fs_select_max_coherence cohFile mask min_coh :
  keeps_fs (select_max_coherence_yx cohFile mask min_coh).
Proof.
  unfold select_max_coherence_yx.
  apply keeps_fs_bind; [apply keeps_fs_read|]. intros r.
  apply keeps_fs_bind.
  - destruct mask; [apply keeps_fs_or_raise | apply keeps_fs_ret].
  - intros coh. apply keeps_fs_random_select.
Qed.

Lemma keeps_fs_find_reference_yx stack mask inps :
  keeps_fs (find_reference_yx stack mask inps).
Proof.
  unfold find_reference_yx.
  destruct (_ || _); [|apply keeps_fs_ret].
  destruct (given _).
  - apply keeps_fs_bind; [apply keeps_fs_select_max_coherence|].
    intros yx. apply keeps_fs_ret.
  - repeat case_bool_decide.
    + apply keeps_fs_bind; [apply keeps_fs_random_select|].
      intros yx. apply keeps_fs_ret.
    + by intros w.
    + apply keeps_fs_ret.
Qed.

(** ** The ValidityMask *)

Lemma index2_notnan (stack : raster) (y x : Z) :
  index2 (notnan stack) y x = Some true ↔ ∃ q, index2 stack y x = Some (Some q).
Proof.
  unfold notnan. rewrite index2_fmap.
  destruct (index2 stack y x) as [[q|]|]; simpl.
  - split; eauto.
  - split; [done|]. by intros [? ?].
  - split; [done|]. by intros [? ?].
Qed.

Lemma nansum_index2 (mask : bgrid) (y x : Z) :
  index2 mask y x = Some true → nansum mask ≠ 0.
Proof.
  unfold index2, nansum. intros H.
  destruct (np_idx (length mask) y) as [i|]; [|done]. simpl in H.
  destruct (mask !! i) as [row|] eqn:Hrow; [|done]. simpl in H.
  destruct (np_idx (length row) x) as [j|]; [|done]. simpl in H.
  assert (Hin : true ∈ filter (λ b, b = true) (concat mask)).
  { apply list_elem_of_filter. split; [done|].
    apply list_elem_of_In, in_concat. exists row.
    split; apply list_elem_of_In; by eapply list_elem_of_lookup_2. }
  destruct (filter _ _); [inversion Hin | simpl; lia].
Qed.

(** Where the ValidityMask is true, every epoch of the container is a
    number. *)
Lemma get_file_stack_valid (File : string) (mask_file : option string)
    (w w' : world) groups k g (stack : raster) (y x : Z) :
  fs w !! File = Some (H5 groups) →
  h5_file_type groups = Some k → groups !! k = Some g →
  get_file_stack File mask_file w = (Val stack, w') →
  index2 (notnan stack) y x = Some true →
  ∀ n, n ∈ epoch_nodes g → ∃ q, index2 (ndata n) y x = Some (Some q).
Proof.
  intros Hf Hk Hg Hst Hm n Hn. apply index2_notnan in Hm as [q Hq].
  unfold get_file_stack in Hst. unfold bind at 1 in Hst. unfold get_fs in Hst.
  unfold bind at 1 in Hst. rewrite Hf in Hst.
  rewrite (bind_Val _ _ _ _ _ (h5_main_group_run _ _ _ _ _ Hf Hk Hg)) in Hst.
  cbn [snd] in Hst.
  destruct (ndata <$> epoch_nodes g) as [|r rs] eqn:Hrs; [done|].
  destruct (stacking r rs) as [s0|] eqn:Hs0; [|done]. cbn [or_raise ret] in Hst.
  assert (Hq0 : ∃ q0, index2 s0 y x = Some (Some q0)).
  { destruct (given mask_file) as [maskFile|].
    - unfold bind in Hst. destruct (read maskFile w) as [[m| |] w1]; try done.
      destruct (assign_where s0 _ None) as [s|] eqn:Has; [|done].
      injection Hst as -> _. rewrite (assign_where_Some _ _ _ _ Has) in Hq.
      destruct (index2 s0 y x) as [p|]; [|done].
      destruct (index2 _ y x) as [[|]|]; simplify_eq. eauto.
    - injection Hst as -> _. eauto. }
  destruct Hq0 as [q0 Hq0].
  apply (stacking_defined r rs s0 y x q0 Hs0 Hq0).
  rewrite <- Hrs. by apply list_elem_of_fmap_2.
Qed.

(** ** Referencing to one pixel *)

Lemma epoch_nodes_length (g : h5group) :
  length (epoch_nodes g) = size (members g).
Proof.
  rewrite <- (Forall2_length _ _ _ (epoch_nodes_Forall2 g)).
  unfold sorted. by rewrite merge_sort_Permutation, length_map, length_map_to_list.
Qed.

Section seed_pixel.
Variable coord_radar2geo : pyval → attrs → string → pyval.

Lemma seed_reference_yx_value (w : world) (File out : string) (mask : bgrid)
    (inps : namespace) (y x : Z) groups (atr : attrs) k g :
  fs w !! File = Some (H5 groups) →
  read_attribute File w = (Val atr, w) →
  atr !! "FILE_TYPE" = Some (PStr k) →
  k ∈ ["timeseries"; "interferograms"; "wrapped"; "coherence"] →
  groups !! k = Some g →
  members g !! EmptyString = None →
  out ≠ File →
  ref_y inps = PInt y → ref_x inps = PInt x → (0 < y)%Z → (0 < x)%Z →
  index2 mask y x = Some true →
  mark_attribute inps = false →
  (∀ n, n ∈ epoch_nodes g → ∃ q, index2 (ndata n) y x = Some (Some q)) →
  seed_reference_yx coord_radar2geo File out mask inps w
  = (Val (out, inps),
     World (<[out := H5 (<[k := seeded_group coord_radar2geo k atr g
                                   (pixel_refs g y x) (PInt y) (PInt x)]> ∅)]>
              (fs w)) (rng w) (clicks w)).
Proof.
  intros Hfile Hattr Hk Hin Hg Hempty Hout Hy Hx Hypos Hxpos Hmask Hmark Hdef.
  destruct (read_attribute_H5 _ _ _ _ _ Hfile Hattr) as (k' & g' & Hft & Hg' & Hk').
  assert (k' = k) by congruence. subst k'.
  unfold seed_reference_yx. rewrite Hy, Hx, Hmark. cbn [truthy].
  replace (y =? 0)%Z with false by lia. replace (x =? 0)%Z with false by lia.
  cbn [negb andb getitem2]. unfold bind at 1. rewrite Hmask. cbn [or_raise ret].
  assert (Hsa : spatial_average File mask (x, y, x + 1, y + 1)%Z w
                = (Val (pixel_refs g y x), w)).
  { apply (spatial_average_H5 _ _ _ _ _ _ _ _ Hfile Hft Hg).
    unfold pixel_refs. apply Forall2_fmap_r, Forall_Forall2_diag, Forall_forall.
    intros n Hn. destruct (Hdef n Hn) as [q Hq]. unfold compose. cbv beta. rewrite Hq.
    cbn [default from_option id].
    apply masked_mean_pixel; (lia || done). }
  rewrite (bind_Val _ _ _ _ _ Hsa).
  assert (Hlen : length (pixel_refs g y x) = size (members g)).
  { unfold pixel_refs. rewrite length_fmap. apply epoch_nodes_length. }
  by rewrite (bind_Val _ _ _ _ _
    (seed_file_reference_value_multi coord_radar2geo w File out _ (PInt y) (PInt x)
       groups atr k g Hfile Hattr Hk Hin Hg Hempty Hlen Hout)).
Qed.

Lemma seeded_group_zero (k : string) (atr : attrs) (g : h5group) (y x : Z)
    (ref_y ref_x : pyval) (e : string) (n' : h5node) :
  (∀ n, n ∈ epoch_nodes g → ∃ q, index2 (ndata n) y x = Some (Some q)) →
  members (seeded_group coord_radar2geo k atr g (pixel_refs g y x) ref_y ref_x) !! e
    = Some n' →
  ∃ q, index2 (ndata n') y x = Some (Some q) ∧ (q == 0)%Q.
Proof.
  intros Hdef Hn'.
  assert (Hlen : length (pixel_refs g y x) = size (members g)).
  { unfold pixel_refs. rewrite length_fmap. apply epoch_nodes_length. }
  destruct (proj1 (seeded_group_dom coord_radar2geo k atr g _ ref_y ref_x e Hlen))
    as [n Hn]; [eauto|].
  assert (He : e ∈ sorted (map fst (map_to_list (members g))))
    by (apply sorted_keys_elem; eauto).
  apply list_elem_of_lookup in He as [i Hi].
  destruct (Forall2_lookup_l _ _ _ _ _ (epoch_nodes_Forall2 g) Hi) as (n0 & Hn0 & Hn0').
  assert (n0 = n) by congruence. subst n0.
  destruct (Hdef n ltac:(by eapply list_elem_of_lookup_2)) as [v Hv].
  assert (Hr : pixel_refs g y x !! i = Some (mean [Some v])).
  { unfold pixel_refs. rewrite list_lookup_fmap, Hn0. simpl. by rewrite Hv. }
  destruct (seeded_group_lookup coord_radar2geo k atr g _ ref_y ref_x i e _ n Hi Hr Hn)
    as (n'' & Hn'' & Hdata).
  assert (n'' = n') by congruence. subst n''.
  rewrite Hdata, index2_raster_sub, Hv. cbn [fmap option_fmap option_map].
  destruct (mean_one_sub v) as (q & -> & Hq). eauto.
Qed.
End seed_pixel.

Section c1_facts.
Variable coord_radar2geo : pyval → attrs → string → pyval.

Lemma seed_file_inps_pixel (w w1 : world) (File : string)
    (inps inps1 : namespace) (outFile : option string) (stack : raster)
    (y x : Z) groups (atr : attrs) k g :
  let out := default ("Seeded_" +:+ basename File) (given outFile) in
  fs w !! File = Some (H5 groups) →
  read_attribute File w = (Val atr, w) →
  atr !! "FILE_TYPE" = Some (PStr k) →
  k ∈ ["timeseries"; "interferograms"; "wrapped"; "coherence"] →
  groups !! k = Some g →
  members g !! EmptyString = None →
  out ≠ File →
  get_file_stack File (mask_file inps) w = (Val stack, w) →
  method inps ≠ global_average →
  find_reference_yx stack (notnan stack) inps w = (Val inps1, w1) →
  ref_y inps1 = PInt y → ref_x inps1 = PInt x → (0 < y)%Z → (0 < x)%Z →
  index2 (notnan stack) y x = Some true →
  mark_attribute inps1 = false →
  seed_file_inps coord_radar2geo File inps outFile w
  = (Val (out, inps1),
     World (<[out := H5 (<[k := seeded_group coord_radar2geo k atr g
                                   (pixel_refs g y x) (PInt y) (PInt x)]> ∅)]>
              (fs w)) (rng w1) (clicks w1))
  ∧ ∀ n, n ∈ epoch_nodes g → ∃ q, index2 (ndata n) y x = Some (Some q).
Proof.
  intros out Hfile Hattr Hk Hin Hg Hempty Hout Hstack Hmeth Hfind Hy Hx Hypos
    Hxpos Hmask Hmark.
  destruct (read_attribute_H5 _ _ _ _ _ Hfile Hattr) as (k' & g' & Hft & Hg' & Hk').
  assert (k' = k) by congruence. subst k'.
  pose proof (get_file_stack_valid _ _ _ _ _ _ _ _ _ _ Hfile Hft Hg Hstack Hmask)
    as Hdef.
  split; [|exact Hdef].
  unfold seed_file_inps. rewrite (bind_Val _ _ _ _ _ Hstack).
  rewrite bool_decide_false by (by eapply nansum_index2).
  rewrite bool_decide_false by done.
  rewrite (bind_Val _ _ _ _ _ Hfind).
  pose proof (keeps_fs_find_reference_yx stack (notnan stack) inps w)
    as Hfs. rewrite Hfind in Hfs. cbn [snd] in Hfs.
  fold out. rewrite <- Hfs.
  apply (seed_reference_yx_value coord_radar2geo w1 File out _ inps1 y x
           groups atr k g); try done.
  - by rewrite Hfs.
  - rewrite (read_attribute_frame File w w1 Hfs), Hattr. reflexivity.
Qed.
End c1_facts.

(** ** Where [sys.exit] comes from *)

Lemma no_exit_ret {A} (a : A) : no_exit (ret a).
Proof. by intros w code. Qed.

Lemma no_exit_bind {A B} (m : M A) (k : A → M B) :
  no_exit m → (∀ a, no_exit (k a)) → no_exit (bind m k).
Proof.
  intros Hm Hk w code. unfold bind. specialize (Hm w code).
  destruct (m w) as [[a|e|] w']; simpl in *; [apply Hk| |done].
  intros [= ->]. by apply Hm.
Qed.

Lemma bind_assoc {A B C} (m : M A) (f : A → M B) (k : B → M C) (w : world) :
  bind (bind m f) k w = bind m (λ a, bind (f a) k) w.
Proof. unfold bind. destruct (m w) as [[a| |] w']; reflexivity. Qed.

Lemma no_exit_ext {A} (m m' : M A) :
  (∀ w, m w = m' w) → no_exit m → no_exit m'.
Proof. intros Heq Hm w code. rewrite <- Heq. apply Hm. Qed.

Lemma no_exit_or_raise {A} (e : exn) (o : option A) :
  (∀ code, e ≠ SystemExit code) → no_exit (or_raise e o).
Proof. intros He w code. destruct o; simpl; [done|]. intros [= ->]. by eapply He. Qed.

Lemma no_exit_raise {A} (e : exn) :
  (∀ code, e ≠ SystemExit code) → no_exit (@raise A e).
Proof. intros He w code. simpl. intros [= ->]. by eapply He. Qed.

Lemma no_exit_get_fs : no_exit get_fs.
Proof. by intros w code. Qed.

Lemma no_exit_set_fs f : no_exit (set_fs f).
Proof. by intros w code. Qed.

Lemma no_exit_for_each {A S} (l : list A) (body : S → A → M S) (s : S) :
  (∀ s a, no_exit (body s a)) → no_exit (for_each l body s).
Proof.
  intros Hb. revert s. induction l as [|a l IH]; intros s; cbn [for_each].
  - apply no_exit_ret.
  - apply no_exit_bind; [apply Hb | apply IH].
Qed.

Create HintDb no_exit.
#[local] Hint Resolve no_exit_ret no_exit_bind no_exit_or_raise no_exit_raise
  no_exit_get_fs no_exit_set_fs no_exit_for_each : no_exit.
#[local] Hint Extern 1 (_ ≠ SystemExit _) => discriminate : no_exit.
#[local] Hint Extern 2 (no_exit (match ?x with _ => _ end)) => destruct x : no_exit.
#[local] Hint Extern 2 (no_exit (if ?x then _ else _)) => destruct x : no_exit.
#[local] Hint Extern 3 (no_exit (let (_, _) := ?x in _)) => destruct x : no_exit.

Ltac no_exit := intros; eauto 30 with no_exit.

Lemma no_exit_h5_groups path : no_exit (h5_groups path).
Proof. unfold h5_groups. no_exit. Qed.
#[local] Hint Resolve no_exit_h5_groups : no_exit.

Lemma no_exit_h5_main_group path : no_exit (h5_main_group path).
Proof. unfold h5_main_group. no_exit. Qed.

Lemma no_exit_read path : no_exit (read path).
Proof. unfold read. no_exit. Qed.

Lemma no_exit_read_attribute path : no_exit (read_attribute path).
Proof. unfold read_attribute. no_exit. Qed.

Lemma no_exit_getitem atr key : no_exit (getitem atr key).
Proof. unfold getitem. no_exit. Qed.

Lemma no_exit_as_str v : no_exit (as_str v).
Proof. unfold as_str. no_exit. Qed.

#[local] Hint Resolve no_exit_h5_main_group no_exit_read no_exit_read_attribute
  no_exit_getitem no_exit_as_str : no_exit.

Lemma no_exit_spatial_average File mask box : no_exit (spatial_average File mask box).
Proof. unfold spatial_average. no_exit. Qed.

Lemma no_exit_add_attribute File atr : no_exit (add_attribute File atr).
Proof. unfold add_attribute. no_exit. Qed.

Lemma no_exit_h5_create_member path k name n : no_exit (h5_create_member path k name n).
Proof. unfold h5_create_member. no_exit. Qed.

Lemma no_exit_h5_create_group path k atr : no_exit (h5_create_group path k atr).
Proof. unfold h5_create_group. no_exit. Qed.

Lemma no_exit_h5_set_group_attrs path k atr : no_exit (h5_set_group_attrs path k atr).
Proof. unfold h5_set_group_attrs. no_exit. Qed.

Lemma no_exit_h5_open_w path : no_exit (h5_open_w path).
Proof. unfold h5_open_w. no_exit. Qed.

Lemma no_exit_write data atr out : no_exit (write data atr out).
Proof. unfold write. no_exit. Qed.

Lemma no_exit_h5_epochs path k : no_exit (h5_epochs path k).
Proof. unfold h5_epochs. no_exit. Qed.

#[local] Hint Resolve no_exit_spatial_average no_exit_add_attribute
  no_exit_h5_create_member no_exit_h5_create_group no_exit_h5_set_group_attrs
  no_exit_h5_open_w no_exit_write no_exit_h5_epochs : no_exit.

Lemma no_exit_choice n : no_exit (choice n).
Proof.
  intros w code. unfold choice. destruct n; [done|]. by destruct (rng w).
Qed.
#[local] Hint Resolve no_exit_choice : no_exit.

Lemma no_exit_redraw fuel data_mat nrow ncol y x :
  no_exit (redraw fuel data_mat nrow ncol y x).
Proof.
  revert y x. induction fuel as [|fuel IH]; intros y x; cbn [redraw].
  - apply no_exit_bind; [no_exit|]. intros [|]; [no_exit|]. by intros w code.
  - apply no_exit_bind; [no_exit|]. intros [|]; no_exit.
Qed.
#[local] Hint Resolve no_exit_redraw : no_exit.

Lemma no_exit_random_select data_mat : no_exit (random_select_reference_yx data_mat).
Proof.
  unfold random_select_reference_yx.
  apply no_exit_bind; [no_exit|]. intros y.
  apply no_exit_bind; [no_exit|]. intros x.
  apply no_exit_bind; [by intros w code|]. no_exit.
Qed.
#[local] Hint Resolve no_exit_random_select : no_exit.

Lemma no_exit_select_max_coherence cohFile mask min_coh :
  no_exit (select_max_coherence_yx cohFile mask min_coh).
Proof. unfold select_max_coherence_yx. no_exit. Qed.
#[local] Hint Resolve no_exit_select_max_coherence : no_exit.

Lemma no_exit_find_reference_yx stack mask inps :
  no_exit (find_reference_yx stack mask inps).
Proof.
  unfold find_reference_yx.
  destruct (_ || _); [|no_exit].
  destruct (given _); [no_exit|].
  repeat case_bool_decide; [no_exit| |no_exit]. by intros w code.
Qed.

Lemma spatial_average_length (File : string) (mask : bgrid) (box : Z * Z * Z * Z)
    (w w' : world) (l : list pixel) groups k g :
  spatial_average File mask box w = (Val l, w') →
  fs w !! File = Some (H5 groups) →
  h5_file_type groups = Some k → groups !! k = Some g →
  length l = size (members g).
Proof.
  intros Hsa Hf Hk Hg. unfold spatial_average in Hsa.
  unfold bind at 1 in Hsa. unfold get_fs in Hsa. rewrite Hf in Hsa.
  rewrite (bind_Val _ _ _ _ _ (h5_main_group_run _ _ _ _ _ Hf Hk Hg)) in Hsa.
  cbn [snd] in Hsa. rewrite <- epoch_nodes_length.
  assert (Hgen : ∀ nodes acc w l w',
    for_each nodes (λ acc n,
        v <- or_raise IndexError (masked_mean (ndata n) mask box) ;;
        ret (acc ++ [v])) acc w = (Val l, w') →
    length l = length acc + length nodes).
  { clear. induction nodes as [|n nodes IH]; intros acc w l w' H.
    - injection H as <- _. simpl. lia.
    - cbn [for_each] in H. unfold bind at 1 in H. unfold bind at 1 in H.
      destruct (masked_mean _ _ _); [|done]. cbn [or_raise ret] in H.
      apply IH in H. rewrite H, length_app. simpl. lia. }
  by apply Hgen in Hsa.
Qed.

(** ** Computations that keep the world *)

Lemma readonly_ret {A} (a : A) : readonly (ret a).
Proof. by intros w. Qed.

Lemma readonly_raise {A} (e : exn) : readonly (@raise A e).
Proof. by intros w. Qed.

Lemma readonly_or_raise {A} (e : exn) (o : option A) : readonly (or_raise e o).
Proof. by destruct o. Qed.

Lemma readonly_get_fs : readonly get_fs.
Proof. by intros w. Qed.

Lemma readonly_bind {A B} (m : M A) (k : A → M B) :
  readonly m → (∀ a, readonly (k a)) → readonly (bind m k).
Proof.
  intros Hm Hk w. unfold bind. specialize (Hm w).
  destruct (m w) as [[a|e|] w']; simpl in *; subst; [apply Hk|done..].
Qed.

Lemma readonly_for_each {A S} (l : list A) (body : S → A → M S) (s : S) :
  (∀ s a, readonly (body s a)) → readonly (for_each l body s).
Proof.
  intros Hb. revert s. induction l as [|a l IH]; intros s; cbn [for_each].
  - apply readonly_ret.
  - apply readonly_bind; [apply Hb | apply IH].
Qed.

Create HintDb readonly.
#[local] Hint Resolve readonly_ret readonly_raise readonly_or_raise
  readonly_get_fs readonly_bind readonly_for_each : readonly.
#[local] Hint Extern 2 (readonly (match ?x with _ => _ end)) => destruct x : readonly.
#[local] Hint Extern 2 (readonly (if ?x then _ else _)) => destruct x : readonly.
#[local] Hint Extern 3 (readonly (let (_, _) := ?x in _)) => destruct x : readonly.

Ltac readonly := intros; eauto 30 with readonly.

Lemma readonly_h5_groups path : readonly (h5_groups path).
Proof. unfold h5_groups. readonly. Qed.
#[local] Hint Resolve readonly_h5_groups : readonly.

Lemma readonly_h5_main_group path : readonly (h5_main_group path).
Proof. unfold h5_main_group. readonly. Qed.
#[local] Hint Resolve readonly_h5_main_group : readonly.

Lemma readonly_spatial_average File mask box :
  readonly (spatial_average File mask box).
Proof. unfold spatial_average. readonly. Qed.

(** ** The exit of [seed_file_inps] *)

Section exit_facts.
Variable coord_radar2geo : pyval → attrs → string → pyval.

Lemma seed_file_reference_value_exit (File outName : string)
    (refList : list pixel) (ref_y ref_x : pyval) (w : world) (code : Z) :
  (seed_file_reference_value coord_radar2geo File outName refList ref_y ref_x w).1
    = Exc (SystemExit code) →
  ∃ groups k g, fs w !! File = Some (H5 groups) ∧ h5_file_type groups = Some k
                ∧ groups !! k = Some g ∧ length refList ≠ size (members g).
Proof.
  unfold seed_file_reference_value. unfold bind at 1.
  pose proof (no_exit_read_attribute File w code) as Hne.
  pose proof (read_attribute_readonly File w) as Hro.
  destruct (read_attribute File w) as [[atr| |] w1] eqn:Hra; cbn [fst snd] in *;
    [|by intros [= ->]|done]. subst w1.
  unfold bind at 1. unfold getitem.
  destruct (atr !! "FILE_TYPE") as [kv|] eqn:Hkv; [|done]. cbn [or_raise ret].
  unfold bind at 1. destruct kv as [|z|k]; try done. cbn [as_str ret].
  case_bool_decide as Hin.
  - unfold bind at 1. unfold h5_groups at 1. unfold bind at 1. unfold get_fs at 1.
    destruct (fs w !! File) as [[groups| | |]|] eqn:Hfile; try done. cbn [ret].
    destruct (read_attribute_H5 _ _ _ _ _ Hfile Hra) as (k' & g & Hft & Hg & Hk').
    assert (k' = k) by congruence. subst k'.
    rewrite (bind_Val _ _ _ _ _ (h5_epochs_run _ _ _ _ _ Hfile Hg)).
    unfold bind at 1. rewrite Hg.
    cbn [or_raise ret].
    case_bool_decide as Hlen.
    + intros _. exists groups, k, g. repeat split; try done.
      intros Heq. apply Hlen. rewrite Heq. unfold sorted.
      by rewrite merge_sort_Permutation, length_map, length_map_to_list.
    + intros Hex. exfalso. revert Hex.
      match goal with |- (?m w).1 = _ → False =>
        assert (Hm : no_exit m); [|apply Hm] end.
      no_exit.
  - intros Hex. exfalso. revert Hex.
    match goal with |- (?m w).1 = _ → False =>
      assert (Hm : no_exit m); [|apply Hm] end.
    no_exit.
Qed.

Lemma no_exit_average_then_seed (File outName : string) (mask : bgrid)
    (box : Z * Z * Z * Z) (ref_y ref_x : pyval) :
  no_exit (refList <- spatial_average File mask box ;;
           seed_file_reference_value coord_radar2geo File outName refList
             ref_y ref_x).
Proof.
  intros w code. unfold bind.
  pose proof (no_exit_spatial_average File mask box w code) as Hne.
  pose proof (readonly_spatial_average File mask box w) as Hro.
  destruct (spatial_average File mask box w) as [[l| |] w1] eqn:Hsa;
    cbn [fst snd] in *; [|by intros [= ->]|done]. subst w1.
  intros Hex. apply seed_file_reference_value_exit in Hex
    as (groups & k & g & Hf & Hk & Hg & Hlen).
  apply Hlen. by eapply spatial_average_length.
Qed.

Lemma no_exit_average_seed_then {B} (File outName : string) (mask : bgrid)
    (box : Z * Z * Z * Z) (ref_y ref_x : pyval) (k : string → M B) :
  (∀ o, no_exit (k o)) →
  no_exit (refList <- spatial_average File mask box ;;
           o <- seed_file_reference_value coord_radar2geo File outName refList
                  ref_y ref_x ;;
           k o).
Proof.
  intros Hk. eapply no_exit_ext; [intros w; apply bind_assoc|].
  apply no_exit_bind; [apply no_exit_average_then_seed | exact Hk].
Qed.

Lemma no_exit_seed_reference_yx (File out : string) (mask : bgrid)
    (inps : namespace) :
  no_exit (seed_reference_yx coord_radar2geo File out mask inps).
Proof.
  unfold seed_reference_yx.
  apply no_exit_bind.
  { destruct (_ && _); [|no_exit]. unfold getitem2. no_exit. }
  intros [|]; [|no_exit].
  destruct (mark_attribute inps); [no_exit|].
  destruct (ref_y inps); [no_exit| |no_exit].
  destruct (ref_x inps); [no_exit| |no_exit].
  apply no_exit_average_seed_then. no_exit.
Qed.

(** The exit of [seed_file_inps] is the one on an empty ValidityMask. *)
Lemma seed_file_inps_exit (File : string) (inps : namespace)
    (outFile : option string) (w : world) (stack : raster) :
  get_file_stack File (mask_file inps) w = (Val stack, w) →
  ((seed_file_inps coord_radar2geo File inps outFile w).1 = Exc (SystemExit 1)
   ↔ nansum (notnan stack) = 0)
  ∧ (nansum (notnan stack) = 0 →
     seed_file_inps coord_radar2geo File inps outFile w
     = (Exc (SystemExit 1), w)).
Proof.
  intros Hstack. unfold seed_file_inps. rewrite (bind_Val _ _ _ _ _ Hstack).
  case_bool_decide as Hsum.
  - split; [|done]. split; done.
  - split; [|done]. split; [|done]. intros Hex. exfalso. revert Hex.
    case_bool_decide as Hm.
    + match goal with |- (?m w).1 = _ → False =>
        assert (Hn : no_exit m); [|apply Hn] end.
      do 5 (apply no_exit_bind; [no_exit|]; intros ?).
      apply no_exit_average_seed_then. no_exit.
    + match goal with |- (?m w).1 = _ → False =>
        assert (Hn : no_exit m); [|apply Hn] end.
      apply no_exit_bind; [apply no_exit_find_reference_yx|].
      intros inps1. apply no_exit_seed_reference_yx.
Qed.
End exit_facts.

(** ** [main] with and without coordinates *)

Lemma bind_ext {A B} (m : M A) (k k' : A → M B) (w : world) :
  (∀ a w', k a w' = k' a w') → bind m k w = bind m k' w.
Proof. intros Hk. unfold bind. destruct (m w) as [[a| |] w']; auto. Qed.

Lemma bind_ret {A B} (a : A) (k : A → M B) (w : world) :
  bind (ret a) k w = k a w.
Proof. reflexivity. Qed.

Lemma bind_Val_inv {A B} (m : M A) (k : A → M B) (w w' : world) (b : B) :
  bind m k w = (Val b, w') → ∃ a w1, m w = (Val a, w1) ∧ k a w1 = (Val b, w').
Proof. unfold bind. destruct (m w) as [[a| |] w1]; [eauto|done..]. Qed.

Lemma bind_get_fs {B} (k : gmap string content → M B) (w : world) :
  bind get_fs k w = k (fs w) w.
Proof. reflexivity. Qed.

(** ** Clicks *)

Lemma foldl_onclick (stack : raster) (inps inps' : namespace)
    (cs : list (nat * nat)) :
  (foldl (onclick stack) inps cs = inps ∧ foldl (onclick stack) inps' cs = inps')
  ∨ ∃ y x, foldl (onclick stack) inps cs = set_ref inps (PInt y) (PInt x)
           ∧ foldl (onclick stack) inps' cs = set_ref inps' (PInt y) (PInt x).
Proof.
  revert inps inps'. induction cs as [|c cs IH]; intros inps inps'; [by left|].
  cbn [foldl].
  assert (Hc : (∀ i, onclick stack i c = i)
               ∨ ∃ y x, ∀ i, onclick stack i c = set_ref i (PInt y) (PInt x)).
  { unfold onclick. destruct (index2 stack _ _) as [[q|]|]; eauto. }
  destruct Hc as [Hc|(y0 & x0 & Hc)]; rewrite !Hc; [apply IH|].
  destruct (IH (set_ref inps (PInt y0) (PInt x0)) (set_ref inps' (PInt y0) (PInt x0)))
    as [[-> ->]|(y & x & -> & ->)]; right; eauto.
Qed.

Section main_facts.
Variable coord_radar2geo : pyval → attrs → string → pyval.

Lemma seed_reference_yx_falsy (File out : string) (mask : bgrid)
    (inps : namespace) (w : world) :
  truthy (ref_y inps) && truthy (ref_x inps) = false →
  seed_reference_yx coord_radar2geo File out mask inps w = (Exc ValueError, w).
Proof. intros Hf. unfold seed_reference_yx. by rewrite Hf. Qed.

(** A pair of coordinates of which one is [None] or [0] is to
    [seed_file_inps] what no coordinates are. *)
Lemma seed_file_inps_falsy (File : string) (inps : namespace)
    (outFile : option string) (w : world) :
  truthy (ref_y inps) && truthy (ref_x inps) = false →
  seed_file_inps coord_radar2geo File inps outFile w
  = seed_file_inps coord_radar2geo File (set_ref inps PNone PNone) outFile w.
Proof.
  intros Hf. unfold seed_file_inps. cbn [mask_file set_ref method].
  apply bind_ext. intros stack w1.
  case_bool_decide; [done|]. case_bool_decide; [done|].
  unfold find_reference_yx. cbn [ref_y ref_x set_ref truthy negb orb].
  replace (negb (truthy (ref_y inps)) || negb (truthy (ref_x inps))) with true
    by (by destruct (truthy (ref_y inps)), (truthy (ref_x inps))).
  cbn [coherence_file set_ref method set_method min_coherence].
  destruct (given (coherence_file inps)) as [cohFile|]; [done|].
  case_bool_decide; [done|]. case_bool_decide.
  - unfold manual_select_reference_yx, bind.
    destruct (foldl_onclick stack inps (set_ref inps PNone PNone) (clicks w1))
      as [[-> ->]|(y & x & -> & ->)]; [|done].
    by rewrite !seed_reference_yx_falsy.
  - unfold bind, ret. by rewrite !seed_reference_yx_falsy.
Qed.

Lemma check_and_seed_falsy (len width : Z) (inps : namespace) (w : world) :
  file inps ≠ [] →
  truthy (ref_y inps) && truthy (ref_x inps) = false →
  check_and_seed coord_radar2geo len width inps w
  = check_and_seed coord_radar2geo len width (set_ref inps PNone PNone) w.
Proof.
  intros Hfiles Hf. unfold check_and_seed.
  cbn [ref_y ref_x set_ref truthy andb]. repeat (rewrite Hf; cbn [andb]).
  rewrite !bind_ret. cbn [ref_y ref_x set_ref truthy andb].
  repeat (rewrite Hf; cbn [andb]). cbn [coherence_file set_ref].
  assert (Hseed : ∀ i w0, truthy (ref_y i) && truthy (ref_x i) = false →
    file i = file inps →
    match file i with
    | [File] => r <- seed_file_inps coord_radar2geo File i (outfile i) ;;
                ret ([r.1], r.2)
    | files => for_each files (λ acc File,
                 r <- seed_file_inps coord_radar2geo File acc.2 None ;;
                 ret (acc.1 ++ [r.1], r.2)) ([], i)
    end w0
    = match file (set_ref i PNone PNone) with
      | [File] => r <- seed_file_inps coord_radar2geo File (set_ref i PNone PNone)
                        (outfile (set_ref i PNone PNone)) ;;
                  ret ([r.1], r.2)
      | files => for_each files (λ acc File,
                   r <- seed_file_inps coord_radar2geo File acc.2 None ;;
                   ret (acc.1 ++ [r.1], r.2)) ([], set_ref i PNone PNone)
      end w0).
  { intros i w0 Hi Hfi. cbn [file outfile set_ref].
    destruct (file i) as [|f1 [|f2 fl]] eqn:Hfl; [congruence| |].
    - unfold bind. by rewrite (seed_file_inps_falsy f1 i _ w0 Hi).
    - cbn [for_each]. unfold bind at 1 3. unfold bind at 1 3. cbn [fst snd].
      by rewrite (seed_file_inps_falsy f1 i _ w0 Hi). }
  destruct (given (coherence_file inps)) as [cohFile|].
  - rewrite !bind_assoc. apply bind_ext. intros [|] w0; rewrite !bind_ret.
    + exact (Hseed (set_method inps max_coherence) w0 Hf eq_refl).
    + exact (Hseed (set_coherence_file inps None) w0 Hf eq_refl).
  - rewrite !bind_ret. exact (Hseed inps w Hf eq_refl).
Qed.

Lemma main_falsy (inps : namespace) (w : world) :
  truthy (ref_y inps) && truthy (ref_x inps) = false →
  main coord_radar2geo inps w = main coord_radar2geo (set_ref inps PNone PNone) w.
Proof.
  intros Hf. unfold main. cbn [file set_ref].
  destruct (file inps) as [|f0 fl] eqn:Hfl; [done|].
  do 6 (apply bind_ext; intros ? ?).
  apply check_and_seed_falsy; [by rewrite Hfl | done].
Qed.

Lemma seed_reference_yx_ref (File out : string) (mask : bgrid)
    (inps inps' : namespace) (w w' : world) (o : string) :
  seed_reference_yx coord_radar2geo File out mask inps w = (Val (o, inps'), w') →
  inps' = inps ∧ truthy (ref_y inps) && truthy (ref_x inps) = true.
Proof.
  unfold seed_reference_yx.
  destruct (truthy (ref_y inps) && truthy (ref_x inps)).
  - intros (valid & w1 & _ & Hk)%bind_Val_inv. destruct valid; [|done].
    destruct (mark_attribute inps).
    + apply bind_Val_inv in Hk as (? & ? & _ & [= _ <- _]). done.
    + destruct (ref_y inps); try done. destruct (ref_x inps); try done.
      apply bind_Val_inv in Hk as (? & ? & _ & Hk).
      apply bind_Val_inv in Hk as (? & ? & _ & [= _ <- _]). done.
  - rewrite bind_ret. done.
Qed.

(** What [seed_file_inps] returns carries the pixel it referenced to,
    or two empty strings after a global average. *)
Lemma seed_file_inps_ref (File : string) (inps inps' : namespace)
    (outFile : option string) (w w' : world) (o : string) :
  seed_file_inps coord_radar2geo File inps outFile w = (Val (o, inps'), w') →
  truthy (ref_y inps') && truthy (ref_x inps') = true
  ∨ (ref_y inps' = PStr EmptyString ∧ ref_x inps' = PStr EmptyString).
Proof.
  unfold seed_file_inps. intros (stack & w1 & _ & Hk)%bind_Val_inv.
  case_bool_decide; [done|]. case_bool_decide.
  - do 7 (apply bind_Val_inv in Hk as (? & ? & _ & Hk)).
    injection Hk as _ <- _. by right.
  - apply bind_Val_inv in Hk as (inps1 & w2 & _ & Hk).
    apply seed_reference_yx_ref in Hk as [-> Ht]. by left.
Qed.

Lemma check_and_seed_ref (len width : Z) (inps inps' : namespace)
    (w w' : world) (outs : list string) :
  file inps ≠ [] →
  check_and_seed coord_radar2geo len width inps w = (Val (outs, inps'), w') →
  truthy (ref_y inps') && truthy (ref_x inps') = true
  ∨ (ref_y inps' = PStr EmptyString ∧ ref_x inps' = PStr EmptyString).
Proof.
  intros Hfiles. unfold check_and_seed.
  intros (i1 & w1 & H1 & Hk)%bind_Val_inv.
  apply bind_Val_inv in Hk as (i2 & w2 & H2 & Hk).
  assert (Hfi : file i2 = file inps).
  { assert (Hf1 : file i1 = file inps).
    { revert H1. repeat (case_match; cbn [ret]); try by intros [= <- _].
      all: intros (? & ? & _ & Hm)%bind_Val_inv;
        apply bind_Val_inv in Hm as (? & ? & _ & Hm);
        repeat case_match; by injection Hm as <- _. }
    rewrite <- Hf1. revert H2. repeat (case_match; cbn [ret]); try by intros [= <- _].
    all: intros (? & ? & _ & Hm)%bind_Val_inv; repeat case_match;
      by injection Hm as <- _. }
  rewrite <- Hfi in Hfiles.
  assert (Hloop : ∀ files acc w0 r w1,
    files ≠ [] →
    for_each files (λ acc File,
        r <- seed_file_inps coord_radar2geo File acc.2 None ;;
        ret (acc.1 ++ [r.1], r.2)) acc w0 = (Val r, w1) →
    truthy (ref_y r.2) && truthy (ref_x r.2) = true
    ∨ (ref_y r.2 = PStr EmptyString ∧ ref_x r.2 = PStr EmptyString)).
  { clear. induction files as [|f files IH]; intros acc w0 r w1 Hne; [done|].
    cbn [for_each]. intros (acc1 & w2 & Hb & Hrest)%bind_Val_inv.
    apply bind_Val_inv in Hb as ([o i] & w3 & Hs & [= <- <-]).
    apply seed_file_inps_ref in Hs.
    destruct files as [|f' files'].
    - injection Hrest as <- _. exact Hs.
    - by apply (IH _ _ _ _ ltac:(done) Hrest). }
  destruct (file i2) as [|f1 [|f2 fl]] eqn:Hfl; [done| |].
  - apply bind_Val_inv in Hk as ([o i] & w3 & Hs & [= _ <- _]).
    by apply seed_file_inps_ref in Hs.
  - by apply (Hloop _ _ _ _ _ ltac:(done)) in Hk.
Qed.

Lemma main_ref (inps inps' : namespace) (w w' : world) (outs : list string) :
  main coord_radar2geo inps w = (Val (outs, inps'), w') →
  truthy (ref_y inps') && truthy (ref_x inps') = true
  ∨ (ref_y inps' = PStr EmptyString ∧ ref_x inps' = PStr EmptyString).
Proof.
  unfold main. intros (file0 & w1 & Hh & Hk)%bind_Val_inv.
  do 5 (apply bind_Val_inv in Hk as (? & ? & _ & Hk)).
  apply check_and_seed_ref in Hk; [done|].
  intros Hnil. by rewrite Hnil in Hh.
Qed.

Lemma main_run (inps : namespace) (w : world) (file0 : string) (atr : attrs)
    (lv wv : pyval) (len width : Z) :
  head (file inps) = Some file0 →
  read_attribute file0 w = (Val atr, w) →
  atr !! "FILE_LENGTH" = Some lv → py_int lv = Some len →
  atr !! "WIDTH" = Some wv → py_int wv = Some width →
  main coord_radar2geo inps w = check_and_seed coord_radar2geo len width inps w.
Proof.
  intros Hh Hra Hl Hlen Hw Hwidth. unfold main. rewrite Hh.
  unfold bind at 1. cbn [or_raise ret]. rewrite (bind_Val _ _ _ _ _ Hra).
  rewrite (bind_Val _ _ _ _ _ (getitem_Some _ _ _ _ Hl)).
  unfold bind at 1. rewrite Hlen. cbn [or_raise ret].
  rewrite (bind_Val _ _ _ _ _ (getitem_Some _ _ _ _ Hw)).
  unfold bind at 1. rewrite Hwidth. reflexivity.
Qed.
End main_facts.

(** ** [main] with an explicit coordinate *)

Lemma readonly_read path : readonly (read path).
Proof. unfold read. readonly. Qed.

(** Where the ValidityMask is true, the mask file is not zero. *)
Lemma get_file_stack_mask (File : string) (inps : namespace) (w : world)
    (stack : raster) (y x : Z) :
  get_file_stack File (mask_file inps) w = (Val stack, w) →
  index2 (notnan stack) y x = Some true →
  mask_file_nonzero w inps y x.
Proof.
  intros Hst Hm maskFile Hgiven. apply index2_notnan in Hm as [q Hq].
  unfold get_file_stack in Hst. rewrite bind_get_fs in Hst.
  apply bind_Val_inv in Hst as (s0 & w0 & Hs0 & Hk).
  assert (w0 = w) as ->.
  { assert (Hro : readonly (match fs w !! File with
      | Some (H5 _) => kg <- h5_main_group File ;;
          match ndata <$> epoch_nodes kg.2 with
          | [] => raise IndexError
          | r :: rs => or_raise ValueError (stacking r rs)
          end
      | Some (Raster _ data) => ret data
      | _ => raise IOError
      end)) by readonly.
    specialize (Hro w). by rewrite Hs0 in Hro. }
  rewrite Hgiven in Hk.
  apply bind_Val_inv in Hk as (m & w1 & Hread & Hk).
  pose proof (readonly_read maskFile w) as Hro. rewrite Hread in Hro.
  cbn [snd] in Hro. subst w1.
  destruct (assign_where s0 _ None) as [s|] eqn:Has; [|done].
  injection Hk as ->. rewrite (assign_where_Some _ _ _ _ Has) in Hq.
  destruct (index2 s0 y x) as [p0|]; [|done].
  rewrite index2_fmap in Hq.
  destruct (index2 m.1 y x) as [p|] eqn:Hp; [|done]. cbn in Hq.
  exists m, p. split; [done|]. split; [done|].
  unfold is_zero. destruct p as [qq|]; [|done]. by destruct (Qeq_bool qq 0).
Qed.

Section explicit_facts.
Variable coord_radar2geo : pyval → attrs → string → pyval.

Lemma check_and_seed_out_of_coverage (len width : Z) (inps : namespace)
    (w : world) :
  file inps ≠ [] →
  in_coverage (ref_y inps) len && in_coverage (ref_x inps) width = false →
  check_and_seed coord_radar2geo len width inps w
  = check_and_seed coord_radar2geo len width (set_ref inps PNone PNone) w.
Proof.
  intros Hfiles Hcov.
  destruct (truthy (ref_y inps) && truthy (ref_x inps)) eqn:Ht;
    [|by apply check_and_seed_falsy].
  unfold check_and_seed. rewrite Ht, Hcov. reflexivity.
Qed.

Lemma check_and_seed_masked_out (len width : Z) (inps : namespace)
    (w : world) (y x : Z) maskFile m (q : Q) :
  file inps ≠ [] →
  ref_y inps = PInt y → ref_x inps = PInt x →
  given (mask_file inps) = Some maskFile →
  read maskFile w = (Val m, w) →
  index2 m.1 y x = Some (Some q) → Qeq_bool q 0 = true →
  check_and_seed coord_radar2geo len width inps w
  = check_and_seed coord_radar2geo len width (set_ref inps PNone PNone) w.
Proof.
  intros Hfiles Hy Hx Hgiven Hread Hidx Hzero.
  destruct (in_coverage (ref_y inps) len && in_coverage (ref_x inps) width) eqn:Hcov;
    [|by apply check_and_seed_out_of_coverage].
  destruct (truthy (ref_y inps) && truthy (ref_x inps)) eqn:Ht;
    [|by apply check_and_seed_falsy].
  unfold check_and_seed. rewrite Ht, Hcov. cbn [negb andb]. rewrite Ht, Hgiven.
  cbn [ref_y ref_x set_ref truthy andb]. rewrite Hy, Hx. cbn [getitem2].
  rewrite !bind_assoc, (bind_Val _ _ _ _ _ Hread).
  rewrite bind_assoc. unfold bind at 1. rewrite Hidx. cbn [or_raise ret].
  rewrite Hzero. reflexivity.
Qed.

(** An explicit pair within coverage that the mask file lets through
    goes to [seed_file_inps] as it is, under the method
    [input-coord]. *)
Lemma check_and_seed_explicit (len width : Z) (inps : namespace) (w : world)
    (File : string) (y x : Z) :
  file inps = [File] →
  ref_y inps = PInt y → ref_x inps = PInt x →
  (0 < y ≤ len)%Z → (0 < x ≤ width)%Z →
  mask_file_nonzero w inps y x →
  check_and_seed coord_radar2geo len width inps w
  = (r <- seed_file_inps coord_radar2geo File (set_method inps input_coord)
            (outfile inps) ;;
     ret ([r.1], r.2)) w.
Proof.
  intros Hfile Hy Hx Hyr Hxr Hmask. unfold check_and_seed.
  rewrite Hy, Hx. cbn [truthy in_coverage].
  replace (y =? 0)%Z with false by lia. replace (x =? 0)%Z with false by lia.
  rewrite !bool_decide_true by lia. cbn [negb andb]. rewrite Hy, Hx.
  cbn [truthy]. replace (y =? 0)%Z with false by lia.
  replace (x =? 0)%Z with false by lia. cbn [negb andb].
  pose proof Hmask as Hmask'. unfold mask_file_nonzero in Hmask'.
  destruct (given (mask_file inps)) as [maskFile|] eqn:Hgiven.
  - destruct (Hmask' maskFile eq_refl) as (m & p & Hread & Hidx & Hz).
    rewrite !bind_assoc, (bind_Val _ _ _ _ _ Hread).
    rewrite bind_assoc. unfold bind at 1. cbn [getitem2]. rewrite Hidx.
    cbn [or_raise ret].
    assert (Hp : match p with
                 | Some q => if Qeq_bool q 0 then ret (set_ref inps PNone PNone)
                             else ret inps
                 | None => ret inps
                 end = ret inps).
    { destruct p as [q|]; [|done]. unfold is_zero in Hz. by rewrite Hz. }
    rewrite Hp, bind_ret, Hy, Hx. cbn [truthy].
    replace (y =? 0)%Z with false by lia. replace (x =? 0)%Z with false by lia.
    cbn [negb andb]. rewrite bind_ret. cbn [file set_method outfile].
    by rewrite Hfile.
  - rewrite bind_ret, Hy, Hx. cbn [truthy].
    replace (y =? 0)%Z with false by lia. replace (x =? 0)%Z with false by lia.
    cbn [negb andb]. rewrite bind_ret. cbn [file set_method outfile].
    by rewrite Hfile.
Qed.

Lemma find_reference_yx_explicit (stack : raster) (mask : bgrid)
    (inps : namespace) (w : world) :
  truthy (ref_y inps) && truthy (ref_x inps) = true →
  find_reference_yx stack mask inps w = (Val inps, w).
Proof.
  intros [Hy Hx]%andb_true_iff. unfold find_reference_yx. by rewrite Hy, Hx.
Qed.

Lemma truthy_PInt (z : Z) : z ≠ 0%Z → truthy (PInt z) = true.
Proof. intros Hz. cbn [truthy]. by replace (z =? 0)%Z with false by lia. Qed.

(** Step 2.2 on a pixel where the ValidityMask is false. *)
Lemma seed_file_inps_invalid (File : string) (inps : namespace)
    (outFile : option string) (w : world) (stack : raster) (y x : Z) :
  get_file_stack File (mask_file inps) w = (Val stack, w) →
  nansum (notnan stack) ≠ 0 →
  method inps ≠ global_average →
  ref_y inps = PInt y → ref_x inps = PInt x → y ≠ 0%Z → x ≠ 0%Z →
  index2 (notnan stack) y x = Some false →
  seed_file_inps coord_radar2geo File inps outFile w = (Exc ValueError, w).
Proof.
  intros Hstack Hsum Hmeth Hy Hx Hy0 Hx0 Hidx.
  unfold seed_file_inps. rewrite (bind_Val _ _ _ _ _ Hstack).
  rewrite !bool_decide_false by done.
  assert (Ht : truthy (ref_y inps) && truthy (ref_x inps) = true)
    by (by rewrite Hy, Hx, !truthy_PInt).
  rewrite (bind_Val _ _ _ _ _ (find_reference_yx_explicit _ _ _ _ Ht)).
  unfold seed_reference_yx. rewrite Ht, Hy, Hx. cbn [getitem2].
  unfold bind. rewrite Hidx. reflexivity.
Qed.

(** Mark mode on a pixel where the ValidityMask is true. *)
Lemma seed_file_inps_mark (File : string) (inps : namespace)
    (outFile : option string) (w : world) (stack : raster) (y x : Z)
    groups k g :
  fs w !! File = Some (H5 groups) →
  h5_file_type groups = Some k → groups !! k = Some g →
  get_file_stack File (mask_file inps) w = (Val stack, w) →
  method inps ≠ global_average →
  ref_y inps = PInt y → ref_x inps = PInt x → y ≠ 0%Z → x ≠ 0%Z →
  index2 (notnan stack) y x = Some true →
  mark_attribute inps = true →
  ∃ w', seed_file_inps coord_radar2geo File inps outFile w
        = (Val (File, inps), w').
Proof.
  intros Hfile Hft Hg Hstack Hmeth Hy Hx Hy0 Hx0 Hidx Hmark.
  unfold seed_file_inps. rewrite (bind_Val _ _ _ _ _ Hstack).
  rewrite bool_decide_false by (by eapply nansum_index2).
  rewrite bool_decide_false by done.
  assert (Ht : truthy (ref_y inps) && truthy (ref_x inps) = true)
    by (by rewrite Hy, Hx, !truthy_PInt).
  rewrite (bind_Val _ _ _ _ _ (find_reference_yx_explicit _ _ _ _ Ht)).
  unfold seed_reference_yx. rewrite Ht, Hmark, Hy, Hx. cbn [getitem2].
  unfold bind at 1. rewrite Hidx. cbn [or_raise ret].
  unfold add_attribute. rewrite bind_assoc, bind_get_fs, Hfile.
  rewrite bind_assoc, (bind_Val _ _ _ _ _ (h5_main_group_run _ _ _ _ _ Hfile Hft Hg)).
  eexists. reflexivity.
Qed.
End explicit_facts.

(** * The claims on load_data.py *)

(** C6, as stated, fails on a list of one value: its only value occurs
    exactly once, and [mode] returns it. *)
Lemma mode_of_one_value :
  ["100"] ≠ [] ∧ ¬ mode_policy ["100"].
Proof.
  split; [done|]. intros [Hundef _].
  assert (Hu : undefined_mode ["100"]).
  { left. exists "100". split; [|reflexivity]. split; [left|].
    intros w. rewrite list_count_cons. unfold list_count. simpl.
    destruct (decide (w = "100")); simpl; lia. }
  specialize (Hundef Hu). discriminate.
Qed.

(** C6, as amended: on a list of two or more size values [mode] is
    [None] whenever a most frequent value occurs exactly once or two
    values tie for most frequent, and the only most frequent value
    otherwise; on a list of one value it is that value. *)
Theorem mode_by_majority `{Countable A} (l : list A) :
  l ≠ [] →
  (length l = 1 → mode l = head l) ∧ (2 ≤ length l → mode_policy l).
Proof.
  intros Hne. split.
  - destruct l as [|x [|y l]]; simpl; [done|reflexivity|lia].
  - apply mode_policy_two_or_more.
Qed.

Lemma mode_by_majority_witness :
  (length ["100"; "100"; "100"; "50"] = 1
   → mode ["100"; "100"; "100"; "50"] = head ["100"; "100"; "100"; "50"])
  ∧ (2 ≤ length ["100"; "100"; "100"; "50"]
     → mode_policy ["100"; "100"; "100"; "50"]).
Proof. apply (mode_by_majority ["100"; "100"; "100"; "50"]). discriminate. Defined.

(** C5: of four candidates whose declared widths are 100, 100, 100 and
    50, with the same height [h] on the first three (and any height on
    the fourth), [check_file_size] returns the first three, drops the
    fourth without raising, and reports the mode width 100 and the mode
    height [h]. *)
Theorem dimension_gate_majority (w : world) (f1 f2 f3 f4 : string)
    (a1 a2 a3 a4 : attrs) (h h4 : string) :
  read_attribute f1 w = (Val a1, w) →
  read_attribute f2 w = (Val a2, w) →
  read_attribute f3 w = (Val a3, w) →
  read_attribute f4 w = (Val a4, w) →
  a1 !! "WIDTH" = Some (PStr "100") → a1 !! "FILE_LENGTH" = Some (PStr h) →
  a2 !! "WIDTH" = Some (PStr "100") → a2 !! "FILE_LENGTH" = Some (PStr h) →
  a3 !! "WIDTH" = Some (PStr "100") → a3 !! "FILE_LENGTH" = Some (PStr h) →
  a4 !! "WIDTH" = Some (PStr "50") → a4 !! "FILE_LENGTH" = Some (PStr h4) →
  check_file_size [f1; f2; f3; f4] PNone PNone w
  = (Val ([f1; f2; f3], PStr "100", PStr h), w).
Proof. apply check_file_size_majority. Qed.

Lemma dimension_gate_majority_witness :
  check_file_size ["/d/a.unw"; "/d/b.unw"; "/d/c.unw"; "/d/d.unw"]
    PNone PNone world_sizes
  = (Val (["/d/a.unw"; "/d/b.unw"; "/d/c.unw"], PStr "100", PStr "60"),
     world_sizes).
Proof.
  apply (dimension_gate_majority world_sizes _ _ _ _
           (rsc "100" "60") (rsc "100" "60") (rsc "100" "60") (rsc "50" "60")
           "60" "60"); reflexivity.
Defined.

(** C4, as stated, fails: with the one candidate already stored, the
    merge returns the container path with [None], not with the empty
    list. *)
Lemma merge_all_present_returns_None :
  ¬ all_present_claim world_AB "interferograms" ["/data/A.unw"]
      "unwrapIfgram.h5" ∅.
Proof.
  intros Hclaim.
  specialize (Hclaim ["/data/A.unw"] (PStr "2") (PStr "2")
    (<["interferograms" :=
        H5Group ∅ (<["A.unw" := H5Node (rsc "2" "2") ones]>
                   (<["B.unw" := H5Node (rsc "2" "2") twos]> ∅))]> ∅)
    (<["FILE_TYPE" := PStr "interferograms"]> (rsc "2" "2"))
    "interferograms"
    (H5Group ∅ (<["A.unw" := H5Node (rsc "2" "2") ones]>
                (<["B.unw" := H5Node (rsc "2" "2") twos]> ∅)))).
  assert (Hrun : roipac2multi_group_hdf5 "interferograms" ["/data/A.unw"]
                   "unwrapIfgram.h5" ∅ world_AB
                 = (Val (Some "unwrapIfgram.h5", None), world_AB))
    by (vm_compute; reflexivity).
  rewrite Hrun in Hclaim. enough (Hn : (None : option (list string)) = Some []) by discriminate.
  assert (Heq : (Val (Some "unwrapIfgram.h5", None : option (list string)), world_AB)
                = (Val (Some "unwrapIfgram.h5", Some []), world_AB)).
  { apply Hclaim; try (vm_compute; reflexivity).
    intros f ->%list_elem_of_singleton. vm_compute. eauto. }
  by injection Heq.
Qed.

(** C4, as amended: when at least one candidate survives the Dimension
    Gate, every survivor is stored in the readable target container
    under its base name, and no other stored epoch id occurs in the path
    of a survivor, the merge leaves the file system as it is and returns
    the container path together with [None]. *)
Theorem merge_all_present_writes_nothing (w : world) (fileType : string)
    (fileList survivors : list string) (hdf5File : string) (extra : attrs)
    (mw ml : pyval) groups (atr : attrs) k g :
  check_file_size fileList PNone PNone w = (Val (survivors, mw, ml), w) →
  survivors ≠ [] →
  fs w !! hdf5File = Some (H5 groups) →
  read_attribute hdf5File w = (Val atr, w) →
  atr !! "FILE_TYPE" = Some (PStr k) →
  groups !! k = Some g →
  (∀ f, f ∈ survivors → is_Some (members g !! basename f)) →
  (∀ f e, f ∈ survivors → is_Some (members g !! e) →
          contains e f = true → e = basename f) →
  roipac2multi_group_hdf5 fileType fileList hdf5File extra w
  = (Val (Some hdf5File, None), w).
Proof. apply merge_all_present. Qed.

Lemma merge_all_present_writes_nothing_witness :
  roipac2multi_group_hdf5 "interferograms" ["/data/A.unw"] "unwrapIfgram.h5"
    ∅ world_AB
  = (Val (Some "unwrapIfgram.h5", None), world_AB).
Proof.
  apply (merge_all_present_writes_nothing world_AB "interferograms"
    ["/data/A.unw"] ["/data/A.unw"] "unwrapIfgram.h5" ∅ (PStr "2") (PStr "2")
    (<["interferograms" :=
        H5Group ∅ (<["A.unw" := H5Node (rsc "2" "2") ones]>
                   (<["B.unw" := H5Node (rsc "2" "2") twos]> ∅))]> ∅)
    (<["FILE_TYPE" := PStr "interferograms"]> (rsc "2" "2"))
    "interferograms"
    (H5Group ∅ (<["A.unw" := H5Node (rsc "2" "2") ones]>
                (<["B.unw" := H5Node (rsc "2" "2") twos]> ∅))));
    try (vm_compute; reflexivity).
  - discriminate.
  - intros f ->%list_elem_of_singleton. vm_compute. eauto.
  - intros f e ->%list_elem_of_singleton Hsome Hcontains. cbn [members] in Hsome.
    destruct (decide (e = "A.unw")) as [->|HA]; [reflexivity|].
    rewrite lookup_insert_ne in Hsome by done.
    destruct (decide (e = "B.unw")) as [->|HB]; [discriminate Hcontains|].
    rewrite lookup_insert_ne, lookup_empty in Hsome by done.
    by destruct Hsome.
Defined.

(** C9 at its failing input: the container holds the epochs [A.unw] and
    [B.unw]; merging the one new source [C.unw] returns it as added and
    leaves a container that holds [C.unw] alone.  When a stored source
    comes along with the new one, the epochs are kept. *)
Theorem merge_of_new_sources_truncates :
  let merged := roipac2multi_group_hdf5 "interferograms" ["/data/C.unw"]
                  "unwrapIfgram.h5" ∅ world_AB in
  let mixed := roipac2multi_group_hdf5 "interferograms"
                 ["/data/A.unw"; "/data/C.unw"] "unwrapIfgram.h5" ∅ world_AB in
  h5_epochs "unwrapIfgram.h5" (PStr "interferograms") world_AB
    = (Val ["A.unw"; "B.unw"], world_AB)
  ∧ merged.1 = Val (Some "unwrapIfgram.h5", Some ["/data/C.unw"])
  ∧ (h5_epochs "unwrapIfgram.h5" (PStr "interferograms") merged.2).1
    = Val ["C.unw"]
  ∧ mixed.1 = Val (Some "unwrapIfgram.h5", Some ["/data/C.unw"])
  ∧ (h5_epochs "unwrapIfgram.h5" (PStr "interferograms") mixed.2).1
    = Val ["A.unw"; "B.unw"; "C.unw"].
Proof. vm_compute. repeat split; reflexivity. Qed.

(** * The claims on seed_data.py *)

Section seed_claims.
Variable coord_radar2geo : pyval → attrs → string → pyval.

Lemma seeded_group_rereferenced (w' : world) (outName k : string)
    (atr : attrs) (g : h5group) (refList : list pixel) (ref_y ref_x : pyval) :
  length refList = size (members g) →
  fs w' !! outName
  = Some (H5 (<[k := seeded_group coord_radar2geo k atr g refList ref_y ref_x]> ∅)) →
  rereferenced w' outName k g refList.
Proof.
  intros Hlen Hfs. eexists. split; [exact Hfs|]. split.
  - intros e. by apply seeded_group_dom.
  - intros i e n Hi Hn.
    destruct (lookup_lt_is_Some_2 refList i) as [r Hr].
    { rewrite Hlen, <- (length_map_to_list (members g)), <- (length_map fst).
      unfold sorted in Hi. rewrite <- (merge_sort_Permutation String.le).
      by eapply lookup_lt_Some. }
    destruct (seeded_group_lookup coord_radar2geo k atr g refList ref_y ref_x
                i e r n Hi Hr Hn) as (n' & Hn' & Hdata).
    exists r, n'. split; [done|]. split; [done|].
    intros y x. rewrite Hdata. apply lookup_raster_sub.
Qed.

(** C1: value mode writes, for every epoch, the input raster minus the
    reference value of that epoch, elementwise, under the epoch ids of
    the input; and when the seeding of a file references to a single
    pixel [(y, x)], resolved by any strategy, the reference value of an
    epoch is that pixel of the epoch and every epoch of the output is 0
    at [(y, x)]. *)
Theorem value_mode_rereferencing :
  (∀ (w : world) (File outName : string) (refList : list pixel)
     (ref_y ref_x : pyval) groups (atr : attrs) k g,
     fs w !! File = Some (H5 groups) →
     read_attribute File w = (Val atr, w) →
     atr !! "FILE_TYPE" = Some (PStr k) →
     k ∈ multi_epoch_types →
     groups !! k = Some g →
     members g !! EmptyString = None →
     length refList = size (members g) →
     outName ≠ File →
     ∃ w', seed_file_reference_value coord_radar2geo File outName refList
             ref_y ref_x w = (Val outName, w')
           ∧ rereferenced w' outName k g refList)
  ∧ (∀ (w w1 : world) (File : string) (inps inps1 : namespace)
       (outFile : option string) (stack : raster) (y x : Z) groups
       (atr : attrs) k g,
       fs w !! File = Some (H5 groups) →
       read_attribute File w = (Val atr, w) →
       atr !! "FILE_TYPE" = Some (PStr k) →
       k ∈ multi_epoch_types →
       groups !! k = Some g →
       members g !! EmptyString = None →
       default ("Seeded_" +:+ basename File) (given outFile) ≠ File →
       get_file_stack File (mask_file inps) w = (Val stack, w) →
       method inps ≠ global_average →
       find_reference_yx stack (notnan stack) inps w = (Val inps1, w1) →
       ref_y inps1 = PInt y → ref_x inps1 = PInt x → (0 < y)%Z → (0 < x)%Z →
       index2 (notnan stack) y x = Some true →
       mark_attribute inps1 = false →
       ∃ w', seed_file_inps coord_radar2geo File inps outFile w
             = (Val (default ("Seeded_" +:+ basename File) (given outFile), inps1), w')
           ∧ rereferenced w'
               (default ("Seeded_" +:+ basename File) (given outFile)) k g
               (pixel_refs g y x)
           ∧ zero_at w'
               (default ("Seeded_" +:+ basename File) (given outFile)) k y x).
Proof.
  split.
  - intros w File outName refList ref_y ref_x groups atr k g
      Hfile Hattr Hk Hin Hg Hempty Hlen Hout.
    eexists. split.
    + by apply (seed_file_reference_value_multi coord_radar2geo w File outName
                  refList ref_y ref_x groups atr k g).
    + apply (seeded_group_rereferenced _ _ _ atr g refList ref_y ref_x Hlen).
      cbn [fs]. apply lookup_insert_eq.
  - intros w w1 File inps inps1 outFile stack y x groups atr k g
      Hfile Hattr Hk Hin Hg Hempty Hout Hstack Hmeth Hfind Hy Hx Hypos Hxpos
      Hmask Hmark.
    destruct (seed_file_inps_pixel coord_radar2geo w w1 File inps inps1 outFile
                stack y x groups atr k g Hfile Hattr Hk Hin Hg Hempty Hout
                Hstack Hmeth Hfind Hy Hx Hypos Hxpos Hmask Hmark) as [Hrun Hdef].
    eexists. split; [exact Hrun|]. split.
    + apply (seeded_group_rereferenced _ _ _ atr g _ (PInt y) (PInt x)).
      * unfold pixel_refs. rewrite length_fmap. apply epoch_nodes_length.
      * cbn [fs]. apply lookup_insert_eq.
    + eexists. split; [cbn [fs]; apply lookup_insert_eq|].
      intros e n' Hn'. by eapply seeded_group_zero.
Qed.

(** C2: in value mode on a multi-epoch file type, a reference list
    whose length is not the number of epochs of the input ends the run
    with [sys.exit(1)], and the file system is as it was: no output file
    was opened. *)
Theorem value_mode_epoch_mismatch (w : world) (File outName : string)
    (refList : list pixel) (ref_y ref_x : pyval) groups (atr : attrs) k g :
  fs w !! File = Some (H5 groups) →
  read_attribute File w = (Val atr, w) →
  atr !! "FILE_TYPE" = Some (PStr k) →
  k ∈ multi_epoch_types →
  groups !! k = Some g →
  length refList ≠ size (members g) →
  seed_file_reference_value coord_radar2geo File outName refList ref_y ref_x w
  = (Exc (SystemExit 1), w).
Proof. apply seed_file_reference_value_mismatch. Qed.

(** C3, as amended: once the stack of the file is computed,
    [seed_file_inps] ends with its [sys.exit(1)] if and only if the
    ValidityMask has no true pixel; the world is then as it was: nothing
    is written, no pixel is drawn, no click is taken. *)
Theorem empty_mask_exit (File : string) (inps : namespace)
    (outFile : option string) (w : world) (stack : raster) :
  get_file_stack File (mask_file inps) w = (Val stack, w) →
  ((seed_file_inps coord_radar2geo File inps outFile w).1 = Exc (SystemExit 1)
   ↔ nansum (notnan stack) = 0)
  ∧ (nansum (notnan stack) = 0 →
     seed_file_inps coord_radar2geo File inps outFile w = (Exc (SystemExit 1), w)).
Proof. apply seed_file_inps_exit. Qed.
End seed_claims.

Section main_claims.
Variable coord_radar2geo : pyval → attrs → string → pyval.

(** C7, as amended: an explicit coordinate [(y, x)] outside
    [0..length] x [0..width], or at which the mask file is zero, is
    dropped and the resolution goes on as without coordinates; one with
    [0 < y < length] and [0 < x < width] at which the ValidityMask is
    true is committed; one there at which the mask file is not zero and
    the ValidityMask is false ends the run with [ValueError]. *)
Theorem explicit_coordinate_resolution (inps : namespace) (w : world)
    (File : string) (atr : attrs) (lv wv : pyval) (len width y x : Z) :
  file inps = [File] →
  read_attribute File w = (Val atr, w) →
  atr !! "FILE_LENGTH" = Some lv → py_int lv = Some len →
  atr !! "WIDTH" = Some wv → py_int wv = Some width →
  ref_y inps = PInt y → ref_x inps = PInt x →
  explicit_resolution coord_radar2geo inps w File atr len width y x.
Proof.
  intros Hfile Hattr Hl Hlen Hw Hwidth Hy Hx.
  assert (Hhead : head (file inps) = Some File) by (by rewrite Hfile).
  assert (Hne : file inps ≠ []) by (by rewrite Hfile).
  pose proof (main_run coord_radar2geo inps w File atr lv wv len width
                Hhead Hattr Hl Hlen Hw Hwidth) as Hmain.
  pose proof (main_run coord_radar2geo (set_ref inps PNone PNone) w File atr
                lv wv len width Hhead Hattr Hl Hlen Hw Hwidth) as Hmain'.
  split; [|split; [|split]].
  - intros Hout. unfold falls_through. rewrite Hmain, Hmain'.
    apply check_and_seed_out_of_coverage; [done|].
    rewrite Hy, Hx. cbn [in_coverage]. apply andb_false_iff.
    destruct (decide (0 ≤ y ≤ len)%Z).
    + right. apply bool_decide_eq_false. tauto.
    + left. by apply bool_decide_eq_false.
  - intros maskFile m q Hgiven Hread Hidx Hq. unfold falls_through.
    rewrite Hmain, Hmain'.
    apply (check_and_seed_masked_out coord_radar2geo len width inps w y x
             maskFile m q); try done.
    by apply Qeq_bool_iff.
  - intros stack groups k g Hyr Hxr Hstack Hmask Hfs Hk Hg Hmode.
    unfold committed. rewrite Hmain.
    rewrite (check_and_seed_explicit coord_radar2geo len width inps w File y x)
      by (try done; try lia; by eapply get_file_stack_mask).
    destruct (read_attribute_H5 _ _ _ _ _ Hfs Hattr) as (k' & g' & Hft & Hg' & Hk').
    assert (k' = k) by congruence. subst k'.
    assert (Ht : truthy (ref_y inps) && truthy (ref_x inps) = true).
    { rewrite Hy, Hx, !truthy_PInt by lia. done. }
    destruct Hmode as [Hmark|(Hmark & Hin & Hempty & Hout)].
    + destruct (seed_file_inps_mark coord_radar2geo File
                  (set_method inps input_coord) (outfile inps) w stack y x
                  groups k g) as [w' Hrun]; try done; try lia.
      rewrite (bind_Val _ _ _ _ _ Hrun). by eexists _, _, _.
    + destruct (seed_file_inps_pixel coord_radar2geo w w File
                  (set_method inps input_coord) (set_method inps input_coord)
                  (outfile inps) stack y x groups atr k g) as [Hrun _];
        try done; try lia.
      { by apply find_reference_yx_explicit. }
      rewrite (bind_Val _ _ _ _ _ Hrun). by eexists _, _, _.
  - intros stack Hyr Hxr Hstack Hnz Hsum Hidx. rewrite Hmain.
    rewrite (check_and_seed_explicit coord_radar2geo len width inps w File y x)
      by (try done; lia).
    rewrite (bind_Exc _ _ _ _ _
      (seed_file_inps_invalid coord_radar2geo File (set_method inps input_coord)
         (outfile inps) w stack y x Hstack Hsum ltac:(done) Hy Hx
         ltac:(lia) ltac:(lia) Hidx)).
    reflexivity.
Qed.

(** C10: a coordinate pair of which the row or the column is 0 is to
    [main] what no coordinates are, and a run that returns has not
    referenced to that pair. *)
Theorem zero_coordinate_is_no_coordinate (inps : namespace) (w : world) :
  ref_y inps = PInt 0 ∨ ref_x inps = PInt 0 →
  falls_through coord_radar2geo inps w
  ∧ ∀ outs inps' w',
      main coord_radar2geo inps w = (Val (outs, inps'), w') →
      ¬ (ref_y inps' = ref_y inps ∧ ref_x inps' = ref_x inps).
Proof.
  intros Hzero.
  assert (Hf : truthy (ref_y inps) && truthy (ref_x inps) = false).
  { destruct Hzero as [-> | ->]; [done|]. apply andb_false_r. }
  split; [by apply main_falsy|].
  intros outs inps' w' Hrun [Hy Hx].
  apply main_ref in Hrun as [Ht|[Hy' Hx']].
  - rewrite Hy, Hx in Ht. congruence.
  - rewrite Hy' in Hy. rewrite Hx' in Hx. destruct Hzero; congruence.
Qed.
End main_claims.

(** ** On the container of two epochs *)

Lemma ifgram_type_multi_epoch : "interferograms" ∈ multi_epoch_types.
Proof. right. left. Qed.

Lemma stack_of_seed_world (mask_file : option string) :
  given mask_file = None →
  get_file_stack "ifg.h5" mask_file seed_world = (Val stack_3x3, seed_world).
Proof.
  intros Hg. unfold get_file_stack. rewrite Hg. vm_compute. reflexivity.
Qed.

Lemma value_mode_rereferencing_witness :
  (∃ w', seed_file_reference_value no_geo "ifg.h5" "out.h5"
           [Some 1%Q; Some 2%Q] (PInt 1) (PInt 1) seed_world
         = (Val "out.h5", w')
       ∧ rereferenced w' "out.h5" "interferograms" ifgram_group
           [Some 1%Q; Some 2%Q])
  ∧ (∃ w', seed_file_inps no_geo "ifg.h5"
             (cmdline (PInt 1) (PInt 1) None random) None seed_world
           = (Val ("Seeded_ifg.h5", cmdline (PInt 1) (PInt 1) None random), w')
         ∧ rereferenced w' "Seeded_ifg.h5" "interferograms" ifgram_group
             (pixel_refs ifgram_group 1%Z 1%Z)
         ∧ zero_at w' "Seeded_ifg.h5" "interferograms" 1%Z 1%Z).
Proof.
  split.
  - apply (proj1 (value_mode_rereferencing no_geo) seed_world "ifg.h5" "out.h5"
             [Some 1%Q; Some 2%Q] (PInt 1) (PInt 1)
             ifgram_3x3 ifgram_attrs "interferograms" ifgram_group);
      try reflexivity; try (vm_compute; reflexivity); try discriminate.
    apply ifgram_type_multi_epoch.
  - apply (proj2 (value_mode_rereferencing no_geo) seed_world seed_world
             "ifg.h5" (cmdline (PInt 1) (PInt 1) None random)
             (cmdline (PInt 1) (PInt 1) None random) None stack_3x3 1%Z 1%Z
             ifgram_3x3 ifgram_attrs "interferograms" ifgram_group);
      try reflexivity; try (vm_compute; reflexivity); try discriminate.
    apply ifgram_type_multi_epoch.
Defined.

Lemma value_mode_epoch_mismatch_witness :
  seed_file_reference_value no_geo "ifg.h5" "Seeded_ifg.h5" [Some 1%Q]
    (PInt 1) (PInt 1) seed_world
  = (Exc (SystemExit 1), seed_world).
Proof.
  apply (value_mode_epoch_mismatch no_geo seed_world "ifg.h5" "Seeded_ifg.h5"
           [Some 1%Q] (PInt 1) (PInt 1) ifgram_3x3 ifgram_attrs
           "interferograms" ifgram_group);
    try reflexivity; try (vm_compute; reflexivity).
  - apply ifgram_type_multi_epoch.
  - vm_compute. discriminate.
Defined.

(** C3, as stated, fails: the ValidityMask of the container has eight
    true pixels, and seeding at the explicit pixel [(1, 2)], where it is
    false, aborts with an uncaught [ValueError]. *)
Lemma seeding_aborts_on_valid_mask :
  ¬ abort_iff_empty_mask no_geo "ifg.h5"
      (cmdline (PInt 1) (PInt 2) None random) None seed_world.
Proof.
  intros Hclaim.
  destruct (Hclaim stack_3x3 (stack_of_seed_world None eq_refl)) as [Habort _].
  assert (Hsum : nansum (notnan stack_3x3) = 0).
  { apply Habort. exists ValueError. vm_compute. reflexivity. }
  vm_compute in Hsum. discriminate.
Qed.

Lemma empty_mask_exit_witness :
  ((seed_file_inps no_geo "ifg.h5" (cmdline (PInt 1) (PInt 1) None random)
      None seed_world).1 = Exc (SystemExit 1)
   ↔ nansum (notnan stack_3x3) = 0)
  ∧ (nansum (notnan stack_3x3) = 0 →
     seed_file_inps no_geo "ifg.h5" (cmdline (PInt 1) (PInt 1) None random)
       None seed_world = (Exc (SystemExit 1), seed_world)).
Proof.
  apply (empty_mask_exit no_geo "ifg.h5" (cmdline (PInt 1) (PInt 1) None random)
           None seed_world stack_3x3).
  apply stack_of_seed_world. reflexivity.
Defined.

(** C7, as stated, fails: the explicit pixel [(1, 2)] lies within the
    three rows and columns, the ValidityMask is false there, a random
    pixel could still be drawn, and the run ends with [ValueError]
    instead. *)
Lemma explicit_invalid_pixel_raises :
  get_file_stack "ifg.h5" None seed_world = (Val stack_3x3, seed_world)
  ∧ ¬ explicit_commit_claim no_geo (cmdline (PInt 1) (PInt 2) None random)
        seed_world 3%Z 3%Z 1%Z 2%Z stack_3x3.
Proof.
  split; [by apply stack_of_seed_world|].
  intros [_ Hfall].
  assert (Hinvalid : ¬ ((0 ≤ 1 < 3)%Z ∧ (0 ≤ 2 < 3)%Z
                        ∧ index2 (notnan stack_3x3) 1%Z 2%Z = Some true)).
  { intros (_ & _ & Hm). vm_compute in Hm. discriminate. }
  specialize (Hfall Hinvalid). unfold falls_through in Hfall.
  vm_compute in Hfall. discriminate.
Qed.

Lemma explicit_coordinate_resolution_witness :
  explicit_resolution no_geo (cmdline (PInt 1) (PInt 1) None random)
    seed_world "ifg.h5" ifgram_attrs 3%Z 3%Z 1%Z 1%Z.
Proof.
  apply (explicit_coordinate_resolution no_geo
           (cmdline (PInt 1) (PInt 1) None random) seed_world "ifg.h5"
           ifgram_attrs (PStr "3") (PStr "3") 3%Z 3%Z 1%Z 1%Z);
    try reflexivity; vm_compute; reflexivity.
Defined.

(** The resolution at work on the container: the pixel
    [(1, 1)] is committed; row 4 is out of coverage and the run is the
    run without coordinates, which draws [(2, 1)]; so is the run at
    [(1, 1)] when the mask file is zero there. *)
Example explicit_pixel_is_committed :
  committed no_geo (cmdline (PInt 1) (PInt 1) None random) seed_world 1 1.
Proof.
  unfold committed.
  destruct (main no_geo (cmdline (PInt 1) (PInt 1) None random) seed_world)
    as [[[outs inps']| |] w'] eqn:Hrun; vm_compute in Hrun; try discriminate.
  exists outs, inps', w'. split; [reflexivity|].
  injection Hrun as <- <- _. repeat split.
Qed.

Example explicit_pixel_out_of_coverage :
  (main no_geo (cmdline (PInt 4) (PInt 1) None random) seed_world).1
  = Val (["Seeded_ifg.h5"], cmdline (PInt 2) (PInt 1) None random)
  ∧ (main no_geo (cmdline PNone PNone None random) seed_world).1
    = Val (["Seeded_ifg.h5"], cmdline (PInt 2) (PInt 1) None random).
Proof. vm_compute. split; reflexivity. Qed.

Example explicit_pixel_masked_out :
  (main no_geo (cmdline_masked (PInt 1) (PInt 1)) seed_world_masked).1
  = Val (["Seeded_ifg.h5"], cmdline_masked (PInt 2) (PInt 1)).
Proof. vm_compute. reflexivity. Qed.

(** C8 at its failing input: the raster has three rows, the explicit
    row 3 is outside of it, a coherence raster is supplied, and the run
    ends with [IndexError]; the coordinate passed the coverage check.
    With row 4 the coherence strategy is taken, and commits [(1, 1)]. *)
Theorem coverage_check_lets_in_row_past_the_end :
  py_int (PStr "3") = Some 3%Z
  ∧ main no_geo (cmdline (PInt 3) (PInt 1) (Some "coh.h5") random) seed_world
    = (Exc IndexError, seed_world)
  ∧ (main no_geo (cmdline (PInt 4) (PInt 1) (Some "coh.h5") random)
       seed_world).1
    = Val (["Seeded_ifg.h5"],
           cmdline (PInt 1) (PInt 1) (Some "coh.h5") max_coherence).
Proof. vm_compute. repeat split; reflexivity. Qed.

Lemma zero_coordinate_is_no_coordinate_witness :
  falls_through no_geo (cmdline (PInt 0) (PInt 1) None random) seed_world
  ∧ ∀ outs inps' w',
      main no_geo (cmdline (PInt 0) (PInt 1) None random) seed_world
      = (Val (outs, inps'), w') →
      ¬ (ref_y inps' = PInt 0 ∧ ref_x inps' = PInt 1).
Proof.
  apply (zero_coordinate_is_no_coordinate no_geo
           (cmdline (PInt 0) (PInt 1) None random) seed_world).
  left. reflexivity.
Defined.

(** * Further properties of the code *)

(** ** More on the mode *)

Section mode_order.
Context `{Countable A}.
Implicit Types (l : list A) (v : A).

Lemma list_count_Permutation `{EqDecision B} (x : B) (l l' : list B) :
  l ≡ₚ l' → list_count x l = list_count x l'.
Proof. intros Hp. unfold list_count. by rewrite Hp. Qed.

Lemma mode_Some_not_undefined l v :
  2 ≤ length l → mode l = Some v → ¬ undefined_mode l.
Proof.
  intros Hlen Hm Hu. pose proof (mode_cases l Hlen) as Hc. rewrite Hm in Hc.
  destruct Hc as (Hmf & Hcnt & Hstrict).
  destruct Hu as [(u & [_ Hu] & Hone)|(u & u' & Hne & [_ Hu] & [_ Hu'])].
  - specialize (Hu v). lia.
  - destruct (decide (u = v)) as [->|Huv].
    + specialize (Hstrict u' ltac:(congruence)). specialize (Hu' v). lia.
    + specialize (Hstrict u Huv). specialize (Hu v). lia.
Qed.

Lemma undefined_mode_Permutation l l' :
  l ≡ₚ l' → undefined_mode l → undefined_mode l'.
Proof.
  intros Hp.
  assert (Hmf : ∀ v, most_frequent l v → most_frequent l' v).
  { intros v [Hin Hmax]. split; [by rewrite <- Hp|].
    intros u. rewrite <- !(list_count_Permutation _ l l' Hp). apply Hmax. }
  intros [(u & Hu & Hone)|(u & u' & Hne & Hu & Hu')].
  - left. exists u. split; [by apply Hmf|].
    by rewrite <- (list_count_Permutation _ l l' Hp).
  - right. exists u, u'. auto.
Qed.

Lemma mode_Permutation_Some l l' v :
  2 ≤ length l → l ≡ₚ l' → mode l = Some v → mode l' = Some v.
Proof.
  intros Hlen Hp Hm.
  assert (Hlen' : 2 ≤ length l') by (by rewrite <- Hp).
  pose proof (mode_cases l Hlen) as Hc. rewrite Hm in Hc.
  destruct Hc as (_ & Hcnt & Hstrict).
  pose proof (mode_cases l' Hlen') as Hc'.
  destruct (mode l') as [v'|] eqn:Hm'.
  - destruct Hc' as (_ & _ & Hstrict'). f_equal.
    destruct (decide (v' = v)) as [|Hne]; [done|].
    specialize (Hstrict v' Hne). specialize (Hstrict' v ltac:(congruence)).
    rewrite <- !(list_count_Permutation _ l l' Hp) in Hstrict'. lia.
  - exfalso. apply (mode_Some_not_undefined l v Hlen Hm).
    by apply (undefined_mode_Permutation l' l).
Qed.

(** X1: the mode does not depend on the order of the list. *)
Theorem mode_Permutation l l' : l ≡ₚ l' → mode l = mode l'.
Proof.
  intros Hp.
  destruct l as [|a [|b l0]].
  - by apply Permutation_nil_l in Hp as ->.
  - by apply Permutation_singleton_l in Hp as ->.
  - assert (Hlen : 2 ≤ length (a :: b :: l0)) by (simpl; lia).
    assert (Hlen' : 2 ≤ length l') by (by rewrite <- Hp).
    destruct (mode (a :: b :: l0)) as [v|] eqn:Hm.
    + symmetry. by apply (mode_Permutation_Some (a :: b :: l0)).
    + destruct (mode l') as [v'|] eqn:Hm'; [|done].
      symmetry in Hp.
      by rewrite (mode_Permutation_Some l' (a :: b :: l0) v' Hlen' Hp Hm') in Hm.
Qed.

(** X2: a value that makes up more than half of the list is its mode. *)
Theorem mode_strict_majority l v :
  length l < 2 * list_count v l → mode l = Some v.
Proof. apply mode_majority. Qed.
End mode_order.

Lemma mode_Permutation_witness :
  mode ["100"; "50"; "100"] = mode ["50"; "100"; "100"].
Proof.
  apply (mode_Permutation ["100"; "50"; "100"] ["50"; "100"; "100"]).
  apply Permutation_swap.
Defined.

Lemma mode_strict_majority_witness :
  mode ["100"; "50"; "100"] = Some "100".
Proof.
  apply (mode_strict_majority ["100"; "50"; "100"] "100"). vm_compute. lia.
Defined.

(** ** [check_file_size] on any list *)

Lemma list_count_all `{EqDecision B} (x : B) (l : list B) :
  list_count x l = length l ↔ ∀ y, y ∈ l → y = x.
Proof.
  induction l as [|a l IH].
  - split; [by intros _ y ?%elem_of_nil|done].
  - rewrite list_count_cons. simpl.
    assert (Hle : list_count x l ≤ length l) by apply length_filter.
    destruct (decide (x = a)) as [->|Hne]; split.
    + intros Heq y [->|Hy]%elem_of_cons; [done|]. apply IH; [lia|done].
    + intros Hall. f_equal. apply IH. intros y Hy. apply Hall. by right.
    + lia.
    + intros Hall. exfalso. apply Hne. symmetry. apply Hall. by left.
Qed.

Lemma py_remove_app_notin (x : string) (l1 l2 : list string) :
  x ∉ l1 → py_remove x (l1 ++ x :: l2) = Some (l1 ++ l2).
Proof.
  induction l1 as [|a l1 IH]; intros Hnotin; simpl.
  - by rewrite decide_True.
  - apply not_elem_of_cons in Hnotin as [Hne Hnotin].
    rewrite decide_False by done. by rewrite IH.
Qed.

Section sizes.
Variables (w : world) (wd ln : string → string).
Variables (mw ml : pyval).

Let conform (f : string) : Prop := PStr (wd f) = mw ∧ PStr (ln f) = ml.

Lemma read_sizes_loop (l : list string) (acc : list (pyval * pyval)) :
  (∀ f, f ∈ l → size_is w f (wd f) (ln f)) →
  for_each l (λ acc file,
      rsc <- read_attribute file ;;
      w <- getitem rsc "WIDTH" ;;
      l <- getitem rsc "FILE_LENGTH" ;;
      ret (acc ++ [(w, l)])) acc w
  = (Val (acc ++ ((λ f, (PStr (wd f), PStr (ln f))) <$> l)), w).
Proof.
  revert acc. induction l as [|f l IH]; intros acc Hall; simpl.
  - by rewrite app_nil_r.
  - destruct (Hall f ltac:(left)) as (atr & Hread1 & Hw & Hl).
    assert (Hread : read_attribute f w = (Val atr, w)).
    { pose proof (read_attribute_readonly f w) as Hro.
      destruct (read_attribute f w) as [o w']. simpl in *. by subst. }
    erewrite bind_Val.
    2:{ rewrite (bind_Val _ _ _ _ _ Hread).
        rewrite (bind_Val _ _ _ _ _ (getitem_Some _ _ _ _ Hw)).
        rewrite (bind_Val _ _ _ _ _ (getitem_Some _ _ _ _ Hl)). reflexivity. }
    rewrite IH by (intros; apply Hall; by right).
    by rewrite <- app_assoc.
Qed.

Lemma drop_loop (done rest : list string) :
  for_each (zip rest ((λ f, (PStr (wd f), PStr (ln f))) <$> rest))
    (λ out fwl,
       let '(file, (w, l)) := fwl in
       if bool_decide (w ≠ mw ∨ l ≠ ml) then
         as_str w ;;; as_str l ;;;
         or_raise ValueError (py_remove file out)
       else ret out)
    (filter conform done ++ rest) w
  = (Val (filter conform (done ++ rest)), w).
Proof.
  revert done. induction rest as [|f rest IH]; intros done; simpl.
  - by rewrite !app_nil_r.
  - replace (done ++ f :: rest) with ((done ++ [f]) ++ rest)
      by (by rewrite <- app_assoc).
    rewrite <- IH. unfold bind at 1.
    case_bool_decide as Hc.
    + assert (Hnc : ¬ conform f).
      { unfold conform. intros [? ?]. destruct Hc; congruence. }
      unfold bind at 1. cbn [as_str ret]. unfold bind at 1. cbn [as_str ret].
      rewrite py_remove_app_notin.
      2:{ intros Hin. apply list_elem_of_filter in Hin as [? _]. done. }
      cbn [or_raise ret]. rewrite filter_app, filter_cons_False by done.
      by rewrite filter_nil, app_nil_r.
    + assert (Hcf : conform f).
      { unfold conform. split.
        - destruct (decide (PStr (wd f) = mw)); [done|]. exfalso. apply Hc. by left.
        - destruct (decide (PStr (ln f) = ml)); [done|]. exfalso. apply Hc. by right. }
      cbn [ret]. rewrite filter_app, filter_cons_True by done.
      rewrite filter_nil. by rewrite <- app_assoc.
Qed.
End sizes.

Lemma check_file_size_run (w : world) (fileList : list string)
    (wd ln : string → string) (mode_width mode_length : pyval) :
  fileList ≠ [] →
  (∀ f, f ∈ fileList → size_is w f (wd f) (ln f)) →
  let mw := settled mode_width ((λ f, PStr (wd f)) <$> fileList) in
  let ml := settled mode_length ((λ f, PStr (ln f)) <$> fileList) in
  check_file_size fileList mode_width mode_length w
  = (Val (filter (λ f, PStr (wd f) = mw ∧ PStr (ln f) = ml) fileList, mw, ml), w).
Proof.
  intros Hne Hall mw ml. unfold check_file_size.
  destruct fileList as [|f0 l0] eqn:Hl; [done|]. cbv beta iota.
  subst mw ml. rewrite <- Hl in *. clear Hne.
  set (mw := settled mode_width ((λ f, PStr (wd f)) <$> fileList)).
  set (ml := settled mode_length ((λ f, PStr (ln f)) <$> fileList)).
  pose proof (read_sizes_loop w wd ln fileList [] Hall) as Hread.
  rewrite app_nil_l in Hread. rewrite (bind_Val _ _ _ _ _ Hread).
  set (sizes := (λ f, (PStr (wd f), PStr (ln f))) <$> fileList).
  assert (Hw : sizes.*1 = (λ f, PStr (wd f)) <$> fileList).
  { unfold sizes. rewrite <- list_fmap_compose. done. }
  assert (Hln : sizes.*2 = (λ f, PStr (ln f)) <$> fileList).
  { unfold sizes. rewrite <- list_fmap_compose. done. }
  rewrite Hw, Hln. fold (settled mode_width ((λ f, PStr (wd f)) <$> fileList)).
  fold (settled mode_length ((λ f, PStr (ln f)) <$> fileList)). fold mw ml.
  case_bool_decide as Hc.
  - pose proof (drop_loop w wd ln mw ml [] fileList) as Hloop.
    rewrite filter_nil, !app_nil_l in Hloop. fold sizes in Hloop.
    rewrite (bind_Val _ _ _ _ _ Hloop). reflexivity.
  - unfold ret. rewrite filter_all; [reflexivity|]. intros f Hf.
    destruct (decide (list_count mw ((λ f, PStr (wd f)) <$> fileList)
                      = length ((λ f, PStr (wd f)) <$> fileList))) as [Hcw|Hcw];
      [|exfalso; apply Hc; by left].
    destruct (decide (list_count ml ((λ f, PStr (ln f)) <$> fileList)
                      = length ((λ f, PStr (ln f)) <$> fileList))) as [Hcl|Hcl];
      [|exfalso; apply Hc; by right].
    split.
    + apply (proj1 (list_count_all _ _) Hcw). by apply (list_elem_of_fmap_2 (λ f, PStr (wd f))).
    + apply (proj1 (list_count_all _ _) Hcl). by apply (list_elem_of_fmap_2 (λ f, PStr (ln f))).
Qed.

(** X3: [check_file_size] returns, in their order, exactly the files
    whose width and length are the settled ones. *)
Theorem check_file_size_filter (w : world) (fileList : list string)
    (wd ln : string → string) (mode_width mode_length : pyval) :
  fileList ≠ [] →
  (∀ f, f ∈ fileList → size_is w f (wd f) (ln f)) →
  let mw := settled mode_width ((λ f, PStr (wd f)) <$> fileList) in
  let ml := settled mode_length ((λ f, PStr (ln f)) <$> fileList) in
  check_file_size fileList mode_width mode_length w
  = (Val (filter (λ f, PStr (wd f) = mw ∧ PStr (ln f) = ml) fileList, mw, ml), w).
Proof. apply check_file_size_run. Qed.

(** X4: when the widths or the lengths have no mode, every file is
    dropped, and the loader returns without a container. *)
Theorem undefined_mode_loads_nothing (w : world) (fileType hdf5File : string)
    (extra : attrs) (fileList : list string) (wd ln : string → string) :
  fileList ≠ [] →
  (∀ f, f ∈ fileList → size_is w f (wd f) (ln f)) →
  mode ((λ f, PStr (wd f)) <$> fileList) = None
  ∨ mode ((λ f, PStr (ln f)) <$> fileList) = None →
  (∃ mw ml, check_file_size fileList PNone PNone w = (Val ([], mw, ml), w))
  ∧ roipac2multi_group_hdf5 fileType fileList hdf5File extra w
    = (Val (None, None), w).
Proof.
  intros Hne Hall Hmode.
  pose proof (check_file_size_run w fileList wd ln PNone PNone Hne Hall)
    as Hrun. cbv zeta in Hrun.
  rewrite (filter_iff_in _ (λ _, False)) in Hrun.
  2:{ intros f _. split; [|done]. unfold settled. cbn [truthy].
      intros [Hw Hl]. destruct Hmode as [Hm|Hm]; rewrite Hm in *; done. }
  assert (Hnil : filter (λ _ : string, False) fileList = []).
  { clear. induction fileList as [|a l IH]; [done|].
    rewrite filter_cons_False; [exact IH|tauto]. }
  rewrite Hnil in Hrun. split; [by eexists _, _|].
  unfold roipac2multi_group_hdf5.
  destruct fileList as [|f0 l0] eqn:Hl; [done|].
  cbn [head or_raise]. rewrite bind_ret.
  rewrite (bind_Val _ _ _ _ _ Hrun). reflexivity.
Qed.

Lemma check_file_size_filter_witness :
  check_file_size ["/d/a.unw"; "/d/d.unw"; "/d/b.unw"] (PStr "100") PNone
    world_sizes
  = (Val (["/d/a.unw"; "/d/b.unw"], PStr "100", PStr "60"), world_sizes).
Proof.
  etransitivity;
    [apply (check_file_size_filter world_sizes
              ["/d/a.unw"; "/d/d.unw"; "/d/b.unw"]
              (λ f, if decide (f = "/d/d.unw") then "50" else "100")
              (λ _, "60") (PStr "100") PNone)
    |vm_compute; reflexivity].
  - discriminate.
  - apply Forall_forall. repeat apply Forall_cons_2; [| | |by apply Forall_nil].
    + exists (rsc "100" "60").
      split; [vm_compute; reflexivity|split; vm_compute; reflexivity].
    + exists (rsc "50" "60").
      split; [vm_compute; reflexivity|split; vm_compute; reflexivity].
    + exists (rsc "100" "60").
      split; [vm_compute; reflexivity|split; vm_compute; reflexivity].
Defined.

Lemma undefined_mode_loads_nothing_witness :
  (∃ mw ml, check_file_size ["/d/a.unw"; "/d/d.unw"] PNone PNone world_sizes
            = (Val ([], mw, ml), world_sizes))
  ∧ roipac2multi_group_hdf5 "interferograms" ["/d/a.unw"; "/d/d.unw"]
      "unwrapIfgram.h5" ∅ world_sizes
    = (Val (None, None), world_sizes).
Proof.
  apply (undefined_mode_loads_nothing world_sizes "interferograms"
    "unwrapIfgram.h5" ∅ ["/d/a.unw"; "/d/d.unw"]
    (λ f, if decide (f = "/d/d.unw") then "50" else "100") (λ _, "60")).
  - discriminate.
  - apply Forall_forall. repeat apply Forall_cons_2; [| |by apply Forall_nil].
    + exists (rsc "100" "60").
      split; [vm_compute; reflexivity|split; vm_compute; reflexivity].
    + exists (rsc "50" "60").
      split; [vm_compute; reflexivity|split; vm_compute; reflexivity].
  - left. vm_compute. reflexivity.
Defined.

(** ** Which files a computation may change *)

Lemma touches_only_keeps {A} (ps : list string) (m : M A) :
  keeps_fs m → touches_only ps m.
Proof. intros Hk w q _. by rewrite Hk. Qed.

Lemma touches_only_readonly {A} (ps : list string) (m : M A) :
  readonly m → touches_only ps m.
Proof. intros Hr w q _. by rewrite Hr. Qed.

Lemma touches_only_ret {A} ps (a : A) : touches_only ps (ret a).
Proof. by intros w q _. Qed.

Lemma touches_only_raise {A} ps (e : exn) : touches_only ps (@raise A e).
Proof. by intros w q _. Qed.

Lemma touches_only_or_raise {A} ps (e : exn) (o : option A) :
  touches_only ps (or_raise e o).
Proof. destruct o; [apply touches_only_ret|apply touches_only_raise]. Qed.

Lemma touches_only_get_fs ps : touches_only ps get_fs.
Proof. by intros w q _. Qed.

Lemma touches_only_bind {A B} ps (m : M A) (k : A → M B) :
  touches_only ps m → (∀ a, touches_only ps (k a)) → touches_only ps (bind m k).
Proof.
  intros Hm Hk w q Hq. unfold bind. specialize (Hm w q Hq).
  destruct (m w) as [[a| |] w1]; simpl in *; [|done..].
  by rewrite Hk.
Qed.

Lemma touches_only_try_except {A} ps (m h : M A) :
  touches_only ps m → touches_only ps h → touches_only ps (try_except m h).
Proof.
  intros Hm Hh w q Hq. unfold try_except. specialize (Hm w q Hq).
  destruct (m w) as [[a| |] w1]; simpl in *; [done| |done].
  by rewrite Hh.
Qed.

Lemma touches_only_for_each {A S} ps (l : list A) (body : S → A → M S) (s : S) :
  (∀ s a, touches_only ps (body s a)) → touches_only ps (for_each l body s).
Proof.
  intros Hb. revert s. induction l as [|a l IH]; intros s; simpl.
  - apply touches_only_ret.
  - apply touches_only_bind; [apply Hb|apply IH].
Qed.

Lemma touches_only_insert ps (p : string) (c : gmap string content → content) :
  p ∈ ps → touches_only ps (f <- get_fs ;; set_fs (<[p := c f]> f)).
Proof.
  intros Hp w q Hq. unfold bind, get_fs, set_fs. simpl.
  apply lookup_insert_ne. by intros ->.
Qed.

Create HintDb touches.
#[local] Hint Resolve touches_only_ret touches_only_raise touches_only_or_raise
  touches_only_get_fs touches_only_bind touches_only_try_except
  touches_only_for_each : touches.
#[local] Hint Extern 2 (touches_only _ (match ?x with _ => _ end)) =>
  destruct x : touches.
#[local] Hint Extern 2 (touches_only _ (if ?x then _ else _)) =>
  destruct x : touches.
#[local] Hint Extern 3 (touches_only _ (let (_, _) := ?x in _)) =>
  destruct x : touches.

Ltac touches := intros; eauto 30 with touches.

Lemma touches_only_h5_groups ps path : touches_only ps (h5_groups path).
Proof. unfold h5_groups. touches. Qed.
#[local] Hint Resolve touches_only_h5_groups : touches.

Lemma touches_only_read ps path : touches_only ps (read path).
Proof. unfold read. touches. Qed.

Lemma touches_only_read_attribute ps path : touches_only ps (read_attribute path).
Proof. apply touches_only_readonly. intros w. apply read_attribute_readonly. Qed.

Lemma touches_only_read_roipac_rsc ps path :
  touches_only ps (read_roipac_rsc path).
Proof. unfold read_roipac_rsc. touches. Qed.

Lemma touches_only_getitem ps atr key : touches_only ps (getitem atr key).
Proof. unfold getitem. touches. Qed.

Lemma touches_only_as_str ps v : touches_only ps (as_str v).
Proof. unfold as_str. touches. Qed.

#[local] Hint Resolve touches_only_read touches_only_read_attribute
  touches_only_read_roipac_rsc touches_only_getitem touches_only_as_str
  : touches.

Lemma touches_only_isfile ps path : touches_only ps (isfile path).
Proof. unfold isfile. touches. Qed.

Lemma touches_only_h5_epochs ps path k : touches_only ps (h5_epochs path k).
Proof. unfold h5_epochs. touches. Qed.

Lemma touches_only_rm ps path : path ∈ ps → touches_only ps (rm path).
Proof.
  intros Hp w q Hq. unfold rm, bind, get_fs, set_fs. simpl.
  apply lookup_delete_ne. by intros ->.
Qed.

Lemma touches_only_h5_open_w ps path : path ∈ ps → touches_only ps (h5_open_w path).
Proof. intros Hp. unfold h5_open_w. by apply (touches_only_insert ps path (λ _, H5 ∅)). Qed.

Lemma touches_only_h5_open_rplus ps path : touches_only ps (h5_open_rplus path).
Proof. unfold h5_open_rplus. touches. Qed.

Lemma touches_only_h5_create_group ps path k atr :
  path ∈ ps → touches_only ps (h5_create_group path k atr).
Proof.
  intros Hp. unfold h5_create_group.
  apply touches_only_bind; [touches|]. intros groups.
  destruct (groups !! k); [touches|].
  by apply (touches_only_insert ps path (λ _, H5 _)).
Qed.

Lemma touches_only_h5_create_member ps path k name n :
  path ∈ ps → touches_only ps (h5_create_member path k name n).
Proof.
  intros Hp. unfold h5_create_member.
  apply touches_only_bind; [touches|]. intros groups.
  apply touches_only_bind; [touches|]. intros g.
  case_bool_decide; [touches|].
  by apply (touches_only_insert ps path (λ _, H5 _)).
Qed.

Lemma touches_only_h5_set_group_attrs ps path k atr :
  path ∈ ps → touches_only ps (h5_set_group_attrs path k atr).
Proof.
  intros Hp. unfold h5_set_group_attrs.
  apply touches_only_bind; [touches|]. intros groups.
  apply touches_only_bind; [touches|]. intros g.
  by apply (touches_only_insert ps path (λ _, H5 _)).
Qed.

Lemma touches_only_write ps data atr out :
  out ∈ ps → touches_only ps (write data atr out).
Proof. intros Hp. unfold write. by apply (touches_only_insert ps out (λ _, Raster _ _)). Qed.

#[local] Hint Resolve touches_only_isfile touches_only_h5_epochs
  touches_only_h5_open_rplus : touches.

Lemma touches_only_check_file_size ps fileList mw ml :
  touches_only ps (check_file_size fileList mw ml).
Proof. unfold check_file_size. touches. Qed.
#[local] Hint Resolve touches_only_check_file_size : touches.

Lemma touches_only_check_existed ps fileList hdf5File :
  hdf5File ∈ ps → touches_only ps (check_existed_hdf5_file fileList hdf5File).
Proof.
  intros Hp. unfold check_existed_hdf5_file.
  destruct fileList as [|f0 l0]; [touches|].
  apply touches_only_bind; [touches|]. intros [|]; [|touches].
  apply touches_only_bind.
  { apply touches_only_try_except; [touches|].
    apply touches_only_bind; [by apply touches_only_rm|touches]. }
  intros [atr|]; [|touches].
  apply touches_only_bind; [touches|]. intros k.
  apply touches_only_bind; [touches|]. intros epochList.
  apply touches_only_bind; [touches|]. intros out.
  destruct out; [touches|].
  apply touches_only_bind; [touches|]. intros [[out' mw] ml].
  touches.
Qed.

Lemma touches_only_baseline_attrs ps file atr :
  touches_only ps (baseline_attrs file atr).
Proof. unfold baseline_attrs. touches. Qed.


Section seed_frames.
Variable coord_radar2geo : pyval → attrs → string → pyval.

Lemma touches_only_seed_file_reference_value (File outName : string)
    (refList : list pixel) (ref_y ref_x : pyval) :
  touches_only [outName]
    (seed_file_reference_value coord_radar2geo File outName refList ref_y ref_x).
Proof.
  assert (Hp : outName ∈ [outName]) by (by left).
  unfold seed_file_reference_value.
  apply touches_only_bind; [touches|]. intros atr.
  apply touches_only_bind; [touches|]. intros kv.
  apply touches_only_bind; [touches|]. intros k.
  case_bool_decide.
  - apply touches_only_bind; [touches|]. intros groups.
    apply touches_only_bind; [touches|]. intros epochList.
    apply touches_only_bind; [touches|]. intros g.
    case_bool_decide; [touches|].
    apply touches_only_bind.
    { case_bool_decide; [touches|by apply touches_only_h5_open_w]. }
    intros _.
    apply touches_only_bind; [by apply touches_only_h5_create_group|]. intros _.
    apply touches_only_bind; [|touches].
    case_bool_decide.
    + apply touches_only_bind; [|intros _; by apply touches_only_h5_set_group_attrs].
      apply touches_only_for_each. intros _ [epoch r].
      apply touches_only_bind; [touches|]. intros n.
      by apply touches_only_h5_create_member.
    + apply touches_only_for_each. intros _ [epoch r].
      apply touches_only_bind; [touches|]. intros n.
      by apply touches_only_h5_create_member.
  - apply touches_only_bind; [touches|]. intros [data atr'].
    apply touches_only_bind; [touches|]. intros data'.
    apply touches_only_bind; [by apply touches_only_write|touches].
Qed.

(** X6: whatever its outcome, value mode changes no file other than the
    output. *)
Theorem value_mode_touches_only_the_output (File outName : string)
    (refList : list pixel) (ref_y ref_x : pyval) :
  touches_only [outName]
    (seed_file_reference_value coord_radar2geo File outName refList ref_y ref_x).
Proof. apply touches_only_seed_file_reference_value. Qed.
End seed_frames.

(** ** The loading loop *)

Lemma baseline_attrs_run (file : string) (atr : attrs) (w : world) :
  baseline_attrs file atr w = (Val (baseline_of (fs w) file atr), w).
Proof.
  unfold baseline_attrs, baseline_of. case_bool_decide; [|done].
  unfold try_except, getitem, read_roipac_rsc, bind, get_fs.
  destruct (atr !! "DATE12") as [[| |d]|]; try done. cbn [or_raise ret as_str].
  destruct (split_on "-" d) as [|d1 [|d2 [|]]]; try done.
  cbn [ret]. by destruct (fs w !! _) as [[]|].
Qed.

Lemma baseline_of_container (files : gmap string content) (p file : string)
    (atr : attrs) gs :
  (∀ b, files !! p ≠ Some (Rsc b)) →
  baseline_of (<[p := H5 gs]> files) file atr = baseline_of files file atr.
Proof.
  intros Hp. unfold baseline_of. case_bool_decide; [|done].
  destruct (atr !! "DATE12") as [[| |d]|]; try done.
  destruct (split_on "-" d) as [|d1 [|d2 [|]]]; try done.
  set (b := dirname file +:+ _).
  destruct (decide (b = p)) as [->|Hne].
  - rewrite lookup_insert_eq. destruct (files !! p) as [[]|] eqn:Hf; try done.
    by specialize (Hp atr0).
  - by rewrite lookup_insert_ne.
Qed.

Lemma source_node_container (files : gmap string content) (p : string)
    (extra : attrs) (file : string) gs :
  (∀ b, files !! p ≠ Some (Rsc b)) → file ≠ p →
  source_node (<[p := H5 gs]> files) extra file = source_node files extra file.
Proof.
  intros Hp Hne. unfold source_node. rewrite lookup_insert_ne by done.
  destruct (files !! file) as [[]|]; try done.
  by rewrite baseline_of_container.
Qed.

Lemma loaded_members_cons files extra f fileList m :
  loaded_members files extra (f :: fileList) m
  = loaded_members files extra fileList
      (<[basename f := source_node files extra f]> m).
Proof. reflexivity. Qed.

Lemma loaded_members_notin files extra fileList m e :
  e ∉ basename <$> fileList →
  loaded_members files extra fileList m !! e = m !! e.
Proof.
  revert m. induction fileList as [|f l IH]; intros m Hnin; [done|].
  apply not_elem_of_cons in Hnin as [Hne Hnin].
  rewrite loaded_members_cons, IH by done. by rewrite lookup_insert_ne.
Qed.

Lemma loaded_members_in files extra fileList m f :
  NoDup (basename <$> fileList) → f ∈ fileList →
  loaded_members files extra fileList m !! basename f
  = Some (source_node files extra f).
Proof.
  revert m. induction fileList as [|a l IH]; intros m Hnd Hin.
  - by apply elem_of_nil in Hin.
  - cbn [fmap list_fmap] in Hnd. apply NoDup_cons in Hnd as [Hfresh Hnd].
    rewrite loaded_members_cons.
    apply elem_of_cons in Hin as [->|Hin].
    + rewrite loaded_members_notin by done. apply lookup_insert_eq.
    + by apply IH.
Qed.

Lemma loaded_members_dom files extra fileList m e :
  is_Some (loaded_members files extra fileList m !! e)
  ↔ is_Some (m !! e) ∨ e ∈ basename <$> fileList.
Proof.
  revert m. induction fileList as [|a l IH]; intros m.
  - cbn. rewrite elem_of_nil. tauto.
  - rewrite loaded_members_cons, IH. cbn [fmap list_fmap]. rewrite elem_of_cons.
    destruct (decide (e = basename a)) as [->|Hne].
    + rewrite lookup_insert_eq. split; [intros _; right; by left|eauto].
    + rewrite lookup_insert_ne by done. tauto.
Qed.

Section loading.
Variables (fileType hdf5File : string) (extra : attrs).

Let body : unit → string → M unit := λ _ file,
  r <- read file ;;
  let '(data, atr) := r in
  atr <- baseline_attrs file atr ;;
  let atr := <["drop_ifgram" := PStr "no"]> atr in
  let atr := <["PROJECT_NAME" :=
    default (PStr "PYSAR") (extra !! "project_name")]> atr in
  h5_create_member hdf5File fileType (basename file)
    (H5Node ((λ v, PStr (py_str v)) <$> atr) data).

Lemma load_step (file : string) (w : world) gs ga m atr data :
  fs w !! hdf5File = Some (H5 gs) →
  gs !! fileType = Some (H5Group ga m) →
  fs w !! file = Some (Raster atr data) →
  body tt file w
  = if bool_decide (basename file = EmptyString ∨ is_Some (m !! basename file))
    then (Exc ValueError, w)
    else (Val tt,
          World (<[hdf5File :=
                   H5 (<[fileType :=
                         H5Group ga (<[basename file :=
                                       source_node (fs w) extra file]> m)]> gs)]>
                   (fs w)) (rng w) (clicks w)).
Proof.
  intros Hc Hg Hf. unfold body.
  assert (Hread : read file w = (Val (data, atr), w)).
  { unfold read, bind, get_fs. by rewrite Hf. }
  rewrite (bind_Val _ _ _ _ _ Hread).
  rewrite (bind_Val _ _ _ _ _ (baseline_attrs_run file atr w)).
  unfold h5_create_member. unfold bind at 1. unfold h5_groups at 1.
  unfold bind at 1. unfold get_fs at 1. rewrite Hc. cbn [ret].
  unfold bind at 1. rewrite Hg. cbn [or_raise ret members gattrs].
  case_bool_decide; [done|].
  unfold bind, get_fs, set_fs. unfold source_node, stored_attrs. by rewrite Hf.
Qed.

Lemma load_loop (files : list string) (w : world) gs ga m :
  fs w !! hdf5File = Some (H5 gs) →
  gs !! fileType = Some (H5Group ga m) →
  (∀ f, f ∈ files → ∃ atr data, fs w !! f = Some (Raster atr data)) →
  NoDup (basename <$> files) →
  (∀ f, f ∈ files → basename f ≠ EmptyString ∧ m !! basename f = None) →
  for_each files body tt w
  = (Val tt,
     World (<[hdf5File :=
              H5 (<[fileType :=
                    H5Group ga (loaded_members (fs w) extra files m)]> gs)]>
              (fs w)) (rng w) (clicks w)).
Proof.
  revert w gs m. induction files as [|f files IH]; intros w gs m Hc Hg Hsrc Hnd Hfresh.
  - cbn. unfold ret. rewrite (insert_id gs), insert_id, world_eta; done.
  - cbn [for_each]. destruct (Hsrc f ltac:(left)) as (atr & data & Hf).
    destruct (Hfresh f ltac:(left)) as [Hne Hm].
    cbn [fmap list_fmap] in Hnd. apply NoDup_cons in Hnd as [Hnin Hnd].
    unfold bind at 1. rewrite (load_step f w gs ga m atr data Hc Hg Hf).
    rewrite bool_decide_false by (intros [?|[? ?]]; congruence).
    assert (Hp : ∀ b, fs w !! hdf5File ≠ Some (Rsc b)) by (intros b; by rewrite Hc).
    assert (Hneq : ∀ f', f' ∈ f :: files → f' ≠ hdf5File).
    { intros f' Hf' ->. destruct (Hsrc _ Hf') as (? & ? & ?). congruence. }
    set (m1 := <[basename f := source_node (fs w) extra f]> m).
    set (gs1 := <[fileType := H5Group ga m1]> gs).
    set (w1 := World (<[hdf5File := H5 gs1]> (fs w)) (rng w) (clicks w)).
    assert (Hs : ∀ f', f' ∈ files →
              source_node (fs w1) extra f' = source_node (fs w) extra f').
    { intros f' Hf'. apply source_node_container; [done|].
      apply Hneq. by right. }
    assert (Hlm : ∀ m0, loaded_members (fs w1) extra files m0
                        = loaded_members (fs w) extra files m0).
    { clear -Hs. generalize dependent (fs w1). intros fs1 Hs.
      induction files as [|a l IHl]; intros m0; [done|].
      rewrite !loaded_members_cons. rewrite Hs by left.
      apply IHl. intros f' Hf'. apply Hs. by right. }
    rewrite (IH w1 gs1 m1).
    + rewrite Hlm. subst w1 gs1. cbn [fs rng clicks].
      rewrite !insert_insert_eq. by rewrite (loaded_members_cons (fs w)).
    + apply lookup_insert_eq.
    + apply lookup_insert_eq.
    + intros f' Hf'. subst w1. cbn [fs].
      rewrite lookup_insert_ne by (apply not_eq_sym, Hneq; by right).
      apply Hsrc. by right.
    + exact Hnd.
    + intros f' Hf'. destruct (Hfresh f' ltac:(by right)) as [? ?].
      split; [done|]. subst m1. rewrite lookup_insert_ne; [done|].
      intros Heq. apply Hnin. rewrite Heq. by apply list_elem_of_fmap_2.
Qed.

(** The loop stops with [ValueError] at the first source whose base name
    is empty or taken. *)
Lemma load_loop_clash (files : list string) (w : world) gs ga m :
  fs w !! hdf5File = Some (H5 gs) →
  gs !! fileType = Some (H5Group ga m) →
  (∀ f, f ∈ files → ∃ atr data, fs w !! f = Some (Raster atr data)) →
  ¬ (NoDup (basename <$> files)
     ∧ ∀ f, f ∈ files → basename f ≠ EmptyString ∧ m !! basename f = None) →
  ∃ w' gs', for_each files body tt w = (Exc ValueError, w')
            ∧ fs w' !! hdf5File = Some (H5 gs').
Proof.
  revert w gs m. induction files as [|f files IH]; intros w gs m Hc Hg Hsrc Hclash.
  - exfalso. apply Hclash. split; [constructor|]. by intros f ?%elem_of_nil.
  - cbn [for_each]. destruct (Hsrc f ltac:(left)) as (atr & data & Hf).
    unfold bind at 1. rewrite (load_step f w gs ga m atr data Hc Hg Hf).
    case_bool_decide as Hb; [by eexists _, _|].
    assert (Hne : basename f ≠ EmptyString) by tauto.
    assert (Hm : m !! basename f = None).
    { destruct (m !! basename f) eqn:E; [|done]. exfalso. apply Hb. eauto. }
    assert (Hneq : ∀ f', f' ∈ f :: files → f' ≠ hdf5File).
    { intros f' Hf' ->. destruct (Hsrc _ Hf') as (? & ? & ?). congruence. }
    set (m1 := <[basename f := source_node (fs w) extra f]> m).
    set (gs1 := <[fileType := H5Group ga m1]> gs).
    set (w1 := World (<[hdf5File := H5 gs1]> (fs w)) (rng w) (clicks w)).
    apply (IH w1 gs1 m1).
    + apply lookup_insert_eq.
    + apply lookup_insert_eq.
    + intros f' Hf'. subst w1. cbn [fs].
      rewrite lookup_insert_ne by (apply not_eq_sym, Hneq; by right).
      apply Hsrc. by right.
    + subst m1. intros [Hnd Hfresh]. apply Hclash. split.
      * cbn [fmap list_fmap]. apply NoDup_cons. split; [|done].
        intros Hin. apply list_elem_of_fmap in Hin as (f' & Heq & Hf').
        destruct (Hfresh f' Hf') as [_ Hl]. rewrite <- Heq in Hl.
        by rewrite lookup_insert_eq in Hl.
      * intros f' [->|Hf']%elem_of_cons; [done|].
        destruct (Hfresh f' Hf') as [? Hl]. split; [done|].
        destruct (decide (basename f' = basename f)) as [Heq|Hd].
        -- rewrite Heq, lookup_insert_eq in Hl. done.
        -- by rewrite lookup_insert_ne in Hl.
Qed.
End loading.

(** ** Loading sources of one size *)

Lemma raster_source_size (w : world) (file wd ln : string) :
  raster_source w file wd ln → size_is w file wd ln.
Proof.
  intros (atr & data & Hf & Hw & Hl). exists atr. split; [|done].
  unfold read_attribute, bind, get_fs. by rewrite Hf.
Qed.

Lemma mode_constant `{Countable A} (l : list A) (v : A) :
  l ≠ [] → (∀ x, x ∈ l → x = v) → mode l = Some v.
Proof.
  intros Hne Hall. apply mode_majority.
  rewrite (proj2 (list_count_all v l) Hall). destruct l; [done|simpl; lia].
Qed.

Lemma check_file_size_uniform (w : world) (fileList : list string)
    (wd ln : string) :
  fileList ≠ [] →
  (∀ f, f ∈ fileList → size_is w f wd ln) →
  check_file_size fileList PNone PNone w
  = (Val (fileList, PStr wd, PStr ln), w).
Proof.
  intros Hne Hall.
  pose proof (check_file_size_run w fileList (λ _, wd) (λ _, ln)
                PNone PNone Hne Hall) as Hrun. cbv beta zeta in Hrun.
  assert (Hs : ∀ v : string,
            settled PNone ((λ _ : string, PStr v) <$> fileList) = PStr v).
  { intros v. unfold settled. cbn [truthy].
    rewrite (mode_constant _ (PStr v)); [done| |].
    - destruct fileList; [done|discriminate].
    - by intros x (? & -> & _)%list_elem_of_fmap. }
  rewrite !Hs in Hrun. rewrite filter_all in Hrun by done. exact Hrun.
Qed.

Lemma isfile_run (path : string) (w : world) :
  isfile path w = (Val (bool_decide (is_Some (fs w !! path))), w).
Proof. reflexivity. Qed.

(** X7: a load into a container that is not there yet stores every
    source under its base name, with the samples of the source. *)
Theorem fresh_load_stores_every_source (w : world) (fileType hdf5File : string)
    (extra : attrs) (fileList : list string) (wd ln : string) :
  fileList ≠ [] →
  (∀ f, f ∈ fileList → raster_source w f wd ln) →
  fs w !! hdf5File = None →
  NoDup (basename <$> fileList) →
  (∀ f, f ∈ fileList → basename f ≠ EmptyString) →
  ∃ w' g,
    roipac2multi_group_hdf5 fileType fileList hdf5File extra w
    = (Val (Some hdf5File, Some fileList), w')
    ∧ fs w' !! hdf5File = Some (H5 (<[fileType := g]> ∅))
    ∧ (∀ f, f ∈ fileList →
         members g !! basename f = Some (source_node (fs w) extra f))
    ∧ (∀ e, is_Some (members g !! e) → e ∈ basename <$> fileList).
Proof.
  intros Hne Hsrc Hnone Hnd Hbn.
  assert (Hsize : check_file_size fileList PNone PNone w
                  = (Val (fileList, PStr wd, PStr ln), w)).
  { apply check_file_size_uniform; [done|].
    intros f Hf. by apply raster_source_size, Hsrc. }
  set (w1 := World (<[hdf5File := H5 ∅]> (fs w)) (rng w) (clicks w)).
  set (gs := <[fileType := H5Group ∅ ∅]> (∅ : gmap string h5group)).
  set (w2 := World (<[hdf5File := H5 gs]> (fs w)) (rng w) (clicks w)).
  assert (Hraster : ∀ f, f ∈ fileList →
            ∃ atr data, fs w2 !! f = Some (Raster atr data)).
  { intros f Hf. destruct (Hsrc f Hf) as (atr & data & Hfile & _).
    exists atr, data. subst w2. cbn [fs]. rewrite lookup_insert_ne; [done|].
    intros <-. congruence. }
  pose proof (load_loop fileType hdf5File extra fileList w2 gs ∅ ∅) as Hloop.
  cbv zeta in Hloop.
  specialize (Hloop (lookup_insert_eq _ _ _) (lookup_insert_eq _ _ _) Hraster Hnd).
  specialize (Hloop (λ f Hf, conj (Hbn f Hf) (lookup_empty _))).
  set (m' := loaded_members (fs w2) extra fileList ∅) in *.
  exists (World (<[hdf5File := H5 (<[fileType := H5Group ∅ m']> ∅)]> (fs w))
                (rng w) (clicks w)), (H5Group ∅ m').
  assert (Hsn : ∀ f, f ∈ fileList →
            source_node (fs w2) extra f = source_node (fs w) extra f).
  { intros f Hf. subst w2. cbn [fs]. apply source_node_container.
    - intros b. by rewrite Hnone.
    - intros ->. destruct (Hsrc _ Hf) as (? & ? & ? & _). congruence. }
  split; [|split; [|split]].
  - unfold roipac2multi_group_hdf5.
    destruct fileList as [|f0 fl]; [done|].
    cbn [head or_raise]. rewrite bind_ret.
    rewrite (bind_Val _ _ _ _ _ Hsize). cbv beta iota.
    assert (Hex : check_existed_hdf5_file (f0 :: fl) hdf5File w
                  = (Val (Some (f0 :: fl)), w)).
    { unfold check_existed_hdf5_file.
      rewrite (bind_Val _ _ _ _ _ (isfile_run hdf5File w)).
      rewrite Hnone. rewrite bool_decide_false by (by intros [? ?]).
      reflexivity. }
    rewrite (bind_Val _ _ _ _ _ Hex).
    rewrite bool_decide_true by done.
    erewrite (bind_Val _ _ w (Some (f0 :: fl)) w1);
      [|by rewrite (bind_Val _ _ _ tt w1)].
    assert (Hgroups : h5_groups hdf5File w1 = (Val ∅, w1)).
    { unfold h5_groups, bind, get_fs. subst w1. cbn [fs].
      by rewrite lookup_insert_eq. }
    rewrite (bind_Val _ _ _ _ _ Hgroups).
    rewrite bool_decide_false by (rewrite lookup_empty; by intros [? ?]).
    assert (Hcreate : h5_create_group hdf5File fileType ∅ w1 = (Val tt, w2)).
    { unfold h5_create_group. rewrite (bind_Val _ _ _ _ _ Hgroups).
      rewrite lookup_empty. unfold bind, get_fs, set_fs. subst w1 w2.
      cbn [fs rng clicks]. by rewrite insert_insert_eq. }
    rewrite (bind_Val _ _ _ _ _ Hcreate).
    rewrite (bind_Val _ _ _ _ _ Hloop). unfold ret. subst w2 gs.
    cbn [fs rng clicks]. by rewrite !insert_insert_eq.
  - cbn [fs]. apply lookup_insert_eq.
  - intros f Hf. cbn [members]. subst m'.
    rewrite loaded_members_in by done. by rewrite Hsn.
  - intros e He. cbn [members] in He. subst m'.
    apply loaded_members_dom in He as [[? He]|He]; [|done].
    by rewrite lookup_empty in He.
Qed.

(** X8: two sources of the same base name stop a fresh load with
    [ValueError], after the container has been created. *)
Theorem same_base_name_stops_the_load (w : world)
    (fileType hdf5File : string) (extra : attrs) (fileList : list string)
    (wd ln : string) :
  fileList ≠ [] →
  (∀ f, f ∈ fileList → raster_source w f wd ln) →
  fs w !! hdf5File = None →
  ¬ NoDup (basename <$> fileList) →
  ∃ w' gs,
    roipac2multi_group_hdf5 fileType fileList hdf5File extra w
    = (Exc ValueError, w')
    ∧ fs w' !! hdf5File = Some (H5 gs).
Proof.
  intros Hne Hsrc Hnone Hdup.
  assert (Hsize : check_file_size fileList PNone PNone w
                  = (Val (fileList, PStr wd, PStr ln), w)).
  { apply check_file_size_uniform; [done|].
    intros f Hf. by apply raster_source_size, Hsrc. }
  set (w1 := World (<[hdf5File := H5 ∅]> (fs w)) (rng w) (clicks w)).
  set (gs := <[fileType := H5Group ∅ ∅]> (∅ : gmap string h5group)).
  set (w2 := World (<[hdf5File := H5 gs]> (fs w)) (rng w) (clicks w)).
  assert (Hraster : ∀ f, f ∈ fileList →
            ∃ atr data, fs w2 !! f = Some (Raster atr data)).
  { intros f Hf. destruct (Hsrc f Hf) as (atr & data & Hfile & _).
    exists atr, data. subst w2. cbn [fs]. rewrite lookup_insert_ne; [done|].
    intros <-. congruence. }
  destruct (load_loop_clash fileType hdf5File extra fileList w2 gs ∅ ∅)
    as (w' & gs' & Hloop & Hw'); [apply lookup_insert_eq..|done|tauto|].
  exists w', gs'. split; [|done].
  unfold roipac2multi_group_hdf5.
  destruct fileList as [|f0 fl]; [done|].
  cbn [head or_raise]. rewrite bind_ret.
  rewrite (bind_Val _ _ _ _ _ Hsize). cbv beta iota.
  assert (Hex : check_existed_hdf5_file (f0 :: fl) hdf5File w
                = (Val (Some (f0 :: fl)), w)).
  { unfold check_existed_hdf5_file.
    rewrite (bind_Val _ _ _ _ _ (isfile_run hdf5File w)).
    rewrite Hnone. rewrite bool_decide_false by (by intros [? ?]).
    reflexivity. }
  rewrite (bind_Val _ _ _ _ _ Hex).
  rewrite bool_decide_true by done.
  erewrite (bind_Val _ _ w (Some (f0 :: fl)) w1);
    [|by rewrite (bind_Val _ _ _ tt w1)].
  assert (Hgroups : h5_groups hdf5File w1 = (Val ∅, w1)).
  { unfold h5_groups, bind, get_fs. subst w1. cbn [fs].
    by rewrite lookup_insert_eq. }
  rewrite (bind_Val _ _ _ _ _ Hgroups).
  rewrite bool_decide_false by (rewrite lookup_empty; by intros [? ?]).
  assert (Hcreate : h5_create_group hdf5File fileType ∅ w1 = (Val tt, w2)).
  { unfold h5_create_group. rewrite (bind_Val _ _ _ _ _ Hgroups).
    rewrite lookup_empty. unfold bind, get_fs, set_fs. subst w1 w2.
    cbn [fs rng clicks]. by rewrite insert_insert_eq. }
  rewrite (bind_Val _ _ _ _ _ Hcreate).
  by rewrite (bind_Exc _ _ _ _ _ Hloop).
Qed.

(** ** Merging into a container that is there *)

Lemma check_existed_run (w : world) (fileList : list string)
    (hdf5File : string) groups (atr : attrs) k g :
  fileList ≠ [] →
  fs w !! hdf5File = Some (H5 groups) →
  read_attribute hdf5File w = (Val atr, w) →
  atr !! "FILE_TYPE" = Some (PStr k) →
  groups !! k = Some g →
  check_existed_hdf5_file fileList hdf5File w
  = (outFileList <-
       for_each (sorted (map fst (map_to_list (members g)))) (λ out epoch,
         for_each fileList (λ out file,
           if contains epoch file
           then or_raise ValueError (py_remove file out)
           else ret out) out) fileList ;;
     match outFileList with
     | [] => ret (Some outFileList)
     | _ =>
         r <- check_file_size outFileList PNone PNone ;;
         let '(outFileList, mode_width, mode_length) := r in
         width <- getitem atr "WIDTH" ;;
         differ <- (if bool_decide (mode_width ≠ width) then ret true
                    else len <- getitem atr "FILE_LENGTH" ;;
                         ret (bool_decide (mode_length ≠ len))) ;;
         if differ : bool then
           as_str mode_length ;;; as_str mode_width ;;;
           len <- getitem atr "FILE_LENGTH" ;;
           as_str len ;;; as_str width ;;;
           ret None
         else ret (Some outFileList)
     end) w.
Proof.
  intros Hne Hfile Hattr Hk Hg. unfold check_existed_hdf5_file.
  destruct fileList as [|f0 fl]; [done|].
  rewrite (bind_Val _ _ _ _ _ (isfile_run hdf5File w)).
  rewrite Hfile. rewrite bool_decide_true by eauto.
  assert (Htry : try_except (atr <- read_attribute hdf5File ;; ret (Some atr))
                   (rm hdf5File ;;; ret None) w = (Val (Some atr), w)).
  { unfold try_except. by rewrite (bind_Val _ _ _ _ _ Hattr). }
  rewrite (bind_Val _ _ _ _ _ Htry).
  rewrite (bind_Val _ _ _ _ _ (getitem_Some _ _ _ _ Hk)).
  by rewrite (bind_Val _ _ _ _ _ (h5_epochs_run _ _ _ _ _ Hfile Hg)).
Qed.


Lemma py_remove_count (a : string) (out out1 : list string) :
  py_remove a out = Some out1 →
  ∀ f, list_count f out1 + (if decide (f = a) then 1 else 0) = list_count f out.
Proof.
  revert out1. induction out as [|b out IH]; intros out1; [done|]. simpl.
  destruct (decide (a = b)) as [->|Hne].
  - intros [= <-] f. rewrite (list_count_cons f b). lia.
  - destruct (py_remove a out) as [o|] eqn:Hr; [|done]. intros [= <-] f.
    specialize (IH o eq_refl f). rewrite !list_count_cons.
    destruct (decide (f = b)), (decide (f = a)); try congruence; lia.
Qed.

Lemma remove_account (P : string → bool) (L out : list string) (w : world) :
  match for_each L (λ out file,
          if P file then or_raise ValueError (py_remove file out) else ret out)
          out w with
  | (Val out', w') =>
      w' = w ∧ ∀ f, list_count f out' + (if P f then list_count f L else 0)
                    = list_count f out
  | (Exc e, w') => e = ValueError ∧ w' = w
  | (Loop, _) => False
  end.
Proof.
  revert out. induction L as [|a L IH]; intros out.
  - simpl. split; [done|]. intros f. destruct (P f); unfold list_count; simpl; lia.
  - cbn [for_each]. unfold bind at 1. destruct (P a) eqn:Ha.
    + destruct (py_remove a out) as [out1|] eqn:Hr; cbn [or_raise ret raise]; [|done].
      specialize (IH out1).
      destruct (for_each L _ out1 w) as [[out'| |] w']; [|done..].
      destruct IH as [-> IH]. split; [done|]. intros f.
      specialize (IH f). pose proof (py_remove_count a out out1 Hr f) as Hc.
      rewrite list_count_cons.
      destruct (P f) eqn:Hf, (decide (f = a)); try lia. congruence.
    + cbn [ret]. specialize (IH out).
      destruct (for_each L _ out w) as [[out'| |] w']; [|done..].
      destruct IH as [-> IH]. split; [done|]. intros f. specialize (IH f).
      rewrite list_count_cons.
      destruct (P f) eqn:Hf, (decide (f = a)); try lia. congruence.
Qed.

Lemma remove_existed_account (epochs L out : list string) (w : world) :
  match for_each epochs (λ out epoch,
          for_each L (λ out file,
            if contains epoch file
            then or_raise ValueError (py_remove file out)
            else ret out) out) out w with
  | (Val out', w') =>
      w' = w ∧ ∀ f, list_count f out'
                    + list_count f L * length (filter (λ e, contains e f = true) epochs)
                    = list_count f out
  | (Exc e, w') => e = ValueError ∧ w' = w
  | (Loop, _) => False
  end.
Proof.
  revert out. induction epochs as [|e epochs IH]; intros out.
  - simpl. split; [done|]. intros f. lia.
  - cbn [for_each]. unfold bind at 1.
    pose proof (remove_account (contains e) L out w) as Hin.
    destruct (for_each L _ out w) as [[out1| |] w1]; [|done..].
    destruct Hin as [-> Hin]. specialize (IH out1).
    destruct (for_each epochs _ out1 w) as [[out'| |] w']; [|done..].
    destruct IH as [-> IH]. split; [done|]. intros f.
    specialize (IH f). specialize (Hin f). rewrite filter_cons.
    destruct (contains e f) eqn:Hc.
    + rewrite decide_True by done. simpl. lia.
    + rewrite decide_False by (by intros ?). lia.
Qed.

(** X10: a candidate whose path holds two of the stored epoch ids stops
    the merge with [ValueError]. *)
Theorem ambiguous_epoch_id_fails (w : world) (fileList : list string)
    (hdf5File : string) groups (atr : attrs) k g (f e1 e2 : string) :
  fs w !! hdf5File = Some (H5 groups) →
  read_attribute hdf5File w = (Val atr, w) →
  atr !! "FILE_TYPE" = Some (PStr k) →
  groups !! k = Some g →
  list_count f fileList = 1 →
  is_Some (members g !! e1) → is_Some (members g !! e2) → e1 ≠ e2 →
  contains e1 f = true → contains e2 f = true →
  check_existed_hdf5_file fileList hdf5File w = (Exc ValueError, w).
Proof.
  intros Hfile Hattr Hk Hg Hone He1 He2 Hne Hc1 Hc2.
  assert (Hnil : fileList ≠ []) by (intros ->; done).
  rewrite (check_existed_run w fileList hdf5File groups atr k g) by done.
  set (epochs := sorted _).
  pose proof (remove_existed_account epochs fileList fileList w) as Hacc.
  unfold bind at 1.
  destruct (for_each epochs _ fileList w) as [[out'| |] w'].
  - exfalso. destruct Hacc as [_ Hacc]. specialize (Hacc f). rewrite Hone in Hacc.
    assert (2 ≤ length (filter (λ e, contains e f = true) epochs)); [|lia].
    assert (Hsub : [e1; e2] ⊆+ filter (λ e, contains e f = true) epochs).
    { apply NoDup_submseteq.
      - apply NoDup_cons. split; [by intros ?%list_elem_of_singleton|].
        apply NoDup_singleton.
      - intros x Hx. apply list_elem_of_filter.
        repeat (apply elem_of_cons in Hx as [->|Hx]);
          [| |by apply elem_of_nil in Hx];
          (split; [done|by apply sorted_keys_elem]). }
    apply submseteq_length in Hsub. simpl in Hsub. lia.
  - by destruct Hacc as [-> ->].
  - done.
Qed.

Lemma remove_nothing (epochs L out : list string) (w : world) :
  (∀ f e, f ∈ L → e ∈ epochs → contains e f = false) →
  for_each epochs (λ out epoch,
    for_each L (λ out file,
      if contains epoch file
      then or_raise ValueError (py_remove file out)
      else ret out) out) out w
  = (Val out, w).
Proof.
  intros Hno. induction epochs as [|e epochs IH]; [done|].
  cbn [for_each].
  assert (Hin : ∀ L', L' ⊆ L →
            for_each L' (λ out file,
              if contains e file
              then or_raise ValueError (py_remove file out)
              else ret out) out w = (Val out, w)).
  { induction L' as [|a L' IHL]; intros Hsub; [done|]. cbn [for_each].
    unfold bind at 1. rewrite (Hno a e) by (try apply Hsub; left).
    cbn [ret]. apply IHL. intros x Hx. apply Hsub. by right. }
  rewrite (bind_Val _ _ _ _ _ (Hin L (λ x Hx, Hx))).
  apply IH. intros f e' Hf He'. apply Hno; [done|by right].
Qed.

(** X11: candidates whose size is not the size of the container are not
    loaded, and the container is left as it is. *)
Theorem size_mismatch_loads_nothing (w : world) (fileType hdf5File : string)
    (extra : attrs) (fileList : list string) (wd ln cw cl : string)
    groups (atr : attrs) k g :
  fileList ≠ [] →
  (∀ f, f ∈ fileList → size_is w f wd ln) →
  fs w !! hdf5File = Some (H5 groups) →
  read_attribute hdf5File w = (Val atr, w) →
  atr !! "FILE_TYPE" = Some (PStr k) →
  groups !! k = Some g →
  (∀ f e, f ∈ fileList → is_Some (members g !! e) → contains e f = false) →
  atr !! "WIDTH" = Some (PStr cw) → atr !! "FILE_LENGTH" = Some (PStr cl) →
  (cw, cl) ≠ (wd, ln) →
  roipac2multi_group_hdf5 fileType fileList hdf5File extra w
  = (Val (Some hdf5File, None), w).
Proof.
  intros Hne Hsz Hfile Hattr Hk Hg Hnew Hcw Hcl Hdiff.
  pose proof (check_file_size_uniform w fileList wd ln Hne Hsz) as Hsize.
  assert (Hex : check_existed_hdf5_file fileList hdf5File w = (Val None, w)).
  { rewrite (check_existed_run w fileList hdf5File groups atr k g) by done.
    rewrite (bind_Val _ _ _ _ _ (remove_nothing _ fileList fileList w
      (λ f e Hf He, Hnew f e Hf (proj1 (sorted_keys_elem _ _) He)))).
    destruct fileList as [|f0 fl] eqn:Hl; [done|]. rewrite <- Hl in *.
    rewrite (bind_Val _ _ _ _ _ Hsize). cbv beta iota.
    rewrite (bind_Val _ _ _ _ _ (getitem_Some _ _ _ _ Hcw)).
    destruct (decide (cw = wd)) as [->|Hw].
    - rewrite bool_decide_false by (by intros ?).
      rewrite (bind_Val _ _ w true w).
      2:{ rewrite (bind_Val _ _ _ _ _ (getitem_Some _ _ _ _ Hcl)).
          unfold ret. rewrite bool_decide_true; [done|]. congruence. }
      cbn [as_str]. rewrite !bind_ret.
      rewrite (bind_Val _ _ _ _ _ (getitem_Some _ _ _ _ Hcl)).
      cbn [as_str]. by rewrite !bind_ret.
    - rewrite bool_decide_true by congruence. rewrite bind_ret.
      cbn [as_str]. rewrite !bind_ret.
      rewrite (bind_Val _ _ _ _ _ (getitem_Some _ _ _ _ Hcl)).
      cbn [as_str]. by rewrite !bind_ret. }
  unfold roipac2multi_group_hdf5.
  destruct fileList as [|f0 fl]; [done|].
  cbn [head or_raise]. rewrite bind_ret.
  rewrite (bind_Val _ _ _ _ _ Hsize). cbv beta iota.
  rewrite (bind_Val _ _ _ _ _ Hex).
  rewrite bool_decide_false by done. reflexivity.
Qed.

(** X12: when some candidates are stored already and the others are new,
    the merge adds the new ones and keeps every stored epoch as it
    is. *)
Theorem merge_with_overlap_appends (w : world) (fileType hdf5File : string)
    (extra : attrs) (fileList : list string) (wd ln : string)
    groups (atr : attrs) g :
  let new := filter (λ f, ¬ is_Some (members g !! basename f)) fileList in
  (∀ f, f ∈ fileList → raster_source w f wd ln) →
  fs w !! hdf5File = Some (H5 groups) →
  read_attribute hdf5File w = (Val atr, w) →
  atr !! "FILE_TYPE" = Some (PStr fileType) →
  groups !! fileType = Some g →
  atr !! "WIDTH" = Some (PStr wd) → atr !! "FILE_LENGTH" = Some (PStr ln) →
  (∀ f e, f ∈ fileList → is_Some (members g !! e) →
          contains e f = true → e = basename f) →
  new ≠ [] → new ≠ fileList →
  NoDup (basename <$> new) →
  (∀ f, f ∈ new → basename f ≠ EmptyString) →
  ∃ w' g',
    roipac2multi_group_hdf5 fileType fileList hdf5File extra w
    = (Val (Some hdf5File, Some new), w')
    ∧ fs w' !! hdf5File = Some (H5 (<[fileType := g']> groups))
    ∧ (∀ e n, members g !! e = Some n → members g' !! e = Some n)
    ∧ (∀ f, f ∈ new →
         members g' !! basename f = Some (source_node (fs w) extra f))
    ∧ (∀ e, is_Some (members g' !! e) →
         is_Some (members g !! e) ∨ e ∈ basename <$> new).
Proof.
  intros new Hsrc Hfile Hattr Hk Hg Hcw Hcl Honly Hnew Hsome Hnd Hbn.
  assert (Hne : fileList ≠ []) by (intros ->; done).
  assert (Hsz : ∀ f, f ∈ fileList → size_is w f wd ln).
  { intros f Hf. by apply raster_source_size, Hsrc. }
  pose proof (check_file_size_uniform w fileList wd ln Hne Hsz) as Hsize.
  assert (Hsize' : check_file_size new PNone PNone w
                   = (Val (new, PStr wd, PStr ln), w)).
  { apply check_file_size_uniform; [done|]. intros f Hf. apply Hsz.
    by apply list_elem_of_filter in Hf as [_ ?]. }
  set (epochs := sorted (map fst (map_to_list (members g)))).
  assert (Hrem : for_each epochs (λ out epoch,
            for_each fileList (λ out file,
              if contains epoch file
              then or_raise ValueError (py_remove file out)
              else ret out) out) fileList w = (Val new, w)).
  { pose proof (remove_existed_loop fileList [] epochs w) as Hloop.
    rewrite filter_all in Hloop by (intros; apply not_elem_of_nil).
    rewrite Hloop.
    - f_equal. f_equal. apply filter_iff_in. intros f Hf. simpl.
      unfold epochs. by rewrite sorted_keys_elem.
    - apply sorted_keys_NoDup.
    - intros f e Hf He. split.
      + apply Honly; [done|]. by apply sorted_keys_elem.
      + intros ->. apply contains_basename. }
  assert (Hex : check_existed_hdf5_file fileList hdf5File w
                = (Val (Some new), w)).
  { rewrite (check_existed_run w fileList hdf5File groups atr fileType g) by done.
    fold epochs. rewrite (bind_Val _ _ _ _ _ Hrem).
    destruct new as [|n0 nl] eqn:Hl; [done|]. rewrite <- Hl in *.
    rewrite (bind_Val _ _ _ _ _ Hsize'). cbv beta iota.
    rewrite (bind_Val _ _ _ _ _ (getitem_Some _ _ _ _ Hcw)).
    rewrite bool_decide_false by (by intros ?).
    rewrite (bind_Val _ _ w false w).
    2:{ rewrite (bind_Val _ _ _ _ _ (getitem_Some _ _ _ _ Hcl)).
        unfold ret. by rewrite bool_decide_false by (by intros ?). }
    reflexivity. }
  destruct g as [ga m] eqn:Eg. cbn [members] in *.
  assert (Hraster : ∀ f, f ∈ new → ∃ atr data, fs w !! f = Some (Raster atr data)).
  { intros f Hf. apply list_elem_of_filter in Hf as [_ Hf].
    destruct (Hsrc f Hf) as (a & d & ? & _). eauto. }
  pose proof (load_loop fileType hdf5File extra new w groups ga m Hfile Hg
                Hraster Hnd) as Hloop. cbv zeta in Hloop.
  assert (Hfresh : ∀ f, f ∈ new → basename f ≠ EmptyString ∧ m !! basename f = None).
  { intros f Hf. split; [by apply Hbn|].
    apply list_elem_of_filter in Hf as [Hf _].
    destruct (m !! basename f) eqn:E; [|done]. exfalso. apply Hf. eauto. }
  specialize (Hloop Hfresh).
  set (m' := loaded_members (fs w) extra new m).
  exists (World (<[hdf5File := H5 (<[fileType := H5Group ga m']> groups)]> (fs w))
                (rng w) (clicks w)), (H5Group ga m').
  split; [|split; [|split; [|split]]].
  - unfold roipac2multi_group_hdf5.
    assert (Hnewdef : new = filter (λ f, ¬ is_Some (m !! basename f)) fileList)
      by reflexivity.
    clearbody new. clear Hnewdef.
    destruct fileList as [|f0 fl]; [done|].
    cbn [head or_raise]. rewrite bind_ret.
    rewrite (bind_Val _ _ _ _ _ Hsize). cbv beta iota.
    rewrite (bind_Val _ _ _ _ _ Hex).
    rewrite bool_decide_false by congruence.
    destruct new as [|n0 nl]; [done|].
    assert (Hgroups : h5_groups hdf5File w = (Val groups, w)).
    { unfold h5_groups, bind, get_fs. by rewrite Hfile. }
    erewrite (bind_Val _ _ w (Some (n0 :: nl)) w).
    2:{ unfold h5_open_rplus.
        by rewrite (bind_Val _ _ _ tt w) by (by rewrite (bind_Val _ _ _ _ _ Hgroups)). }
    cbv beta iota.
    rewrite (bind_Val _ _ _ _ _ Hgroups).
    rewrite bool_decide_true by (rewrite Hg; eauto). rewrite bind_ret.
    by rewrite (bind_Val _ _ _ _ _ Hloop).
  - cbn [fs]. apply lookup_insert_eq.
  - intros e n Hn. cbn [members]. subst m'.
    rewrite loaded_members_notin; [done|].
    intros (f & -> & Hf)%list_elem_of_fmap.
    apply list_elem_of_filter in Hf as [Hf _]. apply Hf. eauto.
  - intros f Hf. cbn [members]. subst m'. by apply loaded_members_in.
  - intros e He. cbn [members] in He. subst m'.
    by apply loaded_members_dom in He.
Qed.

(** ** The loader on small file systems *)

Lemma fresh_load_stores_every_source_witness :
  ∃ w' g,
    roipac2multi_group_hdf5 "interferograms" ["/x/f.unw"] "unwrapIfgram.h5"
      ∅ world_twins
    = (Val (Some "unwrapIfgram.h5", Some ["/x/f.unw"]), w')
    ∧ fs w' !! "unwrapIfgram.h5" = Some (H5 (<["interferograms" := g]> ∅))
    ∧ (∀ f, f ∈ ["/x/f.unw"] →
         members g !! basename f = Some (source_node (fs world_twins) ∅ f))
    ∧ (∀ e, is_Some (members g !! e) → e ∈ basename <$> ["/x/f.unw"]).
Proof.
  apply (fresh_load_stores_every_source world_twins "interferograms"
           "unwrapIfgram.h5" ∅ ["/x/f.unw"] "2" "2").
  - discriminate.
  - apply Forall_forall. repeat apply Forall_cons_2; [|by apply Forall_nil].
    exists (rsc "2" "2"), ones. vm_compute. repeat split; reflexivity.
  - vm_compute. reflexivity.
  - vm_compute. apply NoDup_singleton.
  - apply Forall_forall. repeat apply Forall_cons_2; [|by apply Forall_nil].
    vm_compute. discriminate.
Defined.

Lemma same_base_name_stops_the_load_witness :
  ∃ w' gs,
    roipac2multi_group_hdf5 "interferograms" ["/x/f.unw"; "/y/f.unw"]
      "unwrapIfgram.h5" ∅ world_twins
    = (Exc ValueError, w')
    ∧ fs w' !! "unwrapIfgram.h5" = Some (H5 gs).
Proof.
  apply (same_base_name_stops_the_load world_twins "interferograms"
           "unwrapIfgram.h5" ∅ ["/x/f.unw"; "/y/f.unw"] "2" "2").
  - discriminate.
  - apply Forall_forall. repeat apply Forall_cons_2; [| |by apply Forall_nil].
    + exists (rsc "2" "2"), ones. vm_compute. repeat split; reflexivity.
    + exists (rsc "2" "2"), twos. vm_compute. repeat split; reflexivity.
  - vm_compute. reflexivity.
  - vm_compute. intros Hnd. apply NoDup_cons in Hnd as [Hnin _].
    apply Hnin. left.
Defined.


Lemma ambiguous_epoch_id_fails_witness :
  check_existed_hdf5_file ["/d/10.unw"] "unwrapIfgram.h5" world_nested
  = (Exc ValueError, world_nested).
Proof.
  apply (ambiguous_epoch_id_fails world_nested ["/d/10.unw"] "unwrapIfgram.h5"
           container_nested attrs_AB "interferograms"
           (H5Group ∅ (<["0.unw" := H5Node (rsc "2" "2") ones]>
                       (<["10.unw" := H5Node (rsc "2" "2") twos]> ∅)))
           "/d/10.unw" "0.unw" "10.unw");
    try (vm_compute; reflexivity); try (vm_compute; eauto; fail).
  discriminate.
Defined.

Lemma members_AB_ids (e : string) :
  is_Some (members_AB !! e) → e = "A.unw" ∨ e = "B.unw".
Proof.
  intros Hsome. unfold members_AB in Hsome.
  destruct (decide (e = "A.unw")) as [->|HA]; [by left|].
  rewrite lookup_insert_ne in Hsome by done.
  destruct (decide (e = "B.unw")) as [->|HB]; [by right|].
  rewrite lookup_insert_ne, lookup_empty in Hsome by done.
  by destruct Hsome.
Qed.

Lemma size_mismatch_loads_nothing_witness :
  roipac2multi_group_hdf5 "interferograms" ["/data/D.unw"] "unwrapIfgram.h5"
    ∅ world_AB_larger
  = (Val (Some "unwrapIfgram.h5", None), world_AB_larger).
Proof.
  apply (size_mismatch_loads_nothing world_AB_larger "interferograms"
           "unwrapIfgram.h5" ∅ ["/data/D.unw"] "3" "3" "2" "2"
           groups_AB attrs_AB "interferograms" group_AB);
    try (vm_compute; reflexivity); try discriminate.
  - apply Forall_forall. repeat apply Forall_cons_2; [|by apply Forall_nil].
    exists (rsc "3" "3"). vm_compute. repeat split; reflexivity.
  - intros f e ->%list_elem_of_singleton Hsome.
    destruct (members_AB_ids e Hsome) as [-> | ->]; vm_compute; reflexivity.
Defined.

Lemma merge_with_overlap_appends_witness :
  ∃ w' g',
    roipac2multi_group_hdf5 "interferograms" ["/data/A.unw"; "/data/C.unw"]
      "unwrapIfgram.h5" ∅ world_AB
    = (Val (Some "unwrapIfgram.h5", Some ["/data/C.unw"]), w')
    ∧ fs w' !! "unwrapIfgram.h5"
      = Some (H5 (<["interferograms" := g']> groups_AB))
    ∧ (∀ e n, members group_AB !! e = Some n → members g' !! e = Some n)
    ∧ (∀ f, f ∈ ["/data/C.unw"] →
         members g' !! basename f = Some (source_node (fs world_AB) ∅ f))
    ∧ (∀ e, is_Some (members g' !! e) →
         is_Some (members group_AB !! e) ∨ e ∈ basename <$> ["/data/C.unw"]).
Proof.
  assert (Hnew : filter (λ f, ¬ is_Some (members group_AB !! basename f))
                   ["/data/A.unw"; "/data/C.unw"] = ["/data/C.unw"]).
  { rewrite filter_cons_False.
    2:{ intros Hn. apply Hn. vm_compute. eauto. }
    rewrite filter_cons_True; [done|]. vm_compute. by intros [? ?]. }
  pose proof (merge_with_overlap_appends world_AB "interferograms"
           "unwrapIfgram.h5" ∅ ["/data/A.unw"; "/data/C.unw"] "2" "2"
           groups_AB attrs_AB group_AB) as Hthm.
  cbv zeta in Hthm. rewrite Hnew in Hthm.
  apply Hthm; try (vm_compute; reflexivity); try discriminate.
  - apply Forall_forall. repeat apply Forall_cons_2; [| |by apply Forall_nil].
    + exists (rsc "2" "2"), ones. vm_compute. repeat split; reflexivity.
    + exists (rsc "2" "2"), twos. vm_compute. repeat split; reflexivity.
  - intros f e Hf Hsome Hc.
    destruct (members_AB_ids e Hsome) as [-> | ->];
      repeat (apply elem_of_cons in Hf as [->|Hf]);
      try (by apply elem_of_nil in Hf); try reflexivity; discriminate Hc.
  - vm_compute. apply NoDup_singleton.
  - apply Forall_forall. repeat apply Forall_cons_2; [|by apply Forall_nil].
    vm_compute. discriminate.
Defined.

(** ** Random selection *)

Lemma choice_run (n r : nat) (rs : list nat) (w : world) :
  n ≠ 0 → rng w = r :: rs →
  choice n w = (Val (Z.of_nat (r mod n)), World (fs w) rs (clicks w)).
Proof. intros Hn Hr. unfold choice. destruct n; [done|]. by rewrite Hr. Qed.

Lemma choice2_run {B} (nrow ncol a b : nat) (rest : list nat) (w : world)
    (k : Z → Z → M B) :
  nrow ≠ 0 → ncol ≠ 0 → rng w = a :: b :: rest →
  (y <- choice nrow ;; x <- choice ncol ;; k y x) w
  = k (Z.of_nat (a mod nrow)) (Z.of_nat (b mod ncol))
      (World (fs w) rest (clicks w)).
Proof.
  intros Hnr Hnc Hr.
  rewrite (bind_Val _ _ _ _ _ (choice_run nrow a (b :: rest) w Hnr Hr)).
  by rewrite (bind_Val _ _ _ _ _
    (choice_run ncol b rest (World (fs w) (b :: rest) (clicks w)) Hnc eq_refl)).
Qed.

Lemma choice_Val (n : nat) (w w' : world) (z : Z) :
  choice n w = (Val z, w') →
  (0 ≤ z < Z.of_nat n)%Z ∧ fs w' = fs w ∧ clicks w' = clicks w
  ∧ ∃ r, rng w = r :: rng w'.
Proof.
  unfold choice. destruct n; [done|]. destruct (rng w) as [|r rs] eqn:Hr; [done|].
  intros [= <- <-]. split; [|by eauto].
  pose proof (Nat.mod_upper_bound r (S n) ltac:(done)). lia.
Qed.

Lemma redraw_Val (fuel : nat) (data_mat : bgrid) (nrow ncol : nat)
    (y x y' x' : Z) (w w' : world) :
  redraw fuel data_mat nrow ncol y x w = (Val (y', x'), w') →
  index2 data_mat y' x' = Some true
  ∧ ((y', x') = (y, x) ∨ ((0 ≤ y' < Z.of_nat nrow)%Z ∧ (0 ≤ x' < Z.of_nat ncol)%Z)).
Proof.
  revert y x w. induction fuel as [|fuel IH]; intros y x w; simpl.
  - unfold bind. destruct (index2 data_mat y x) as [[|]|] eqn:Hi; cbn; try done.
    intros [= <- <- <-]. split; [done|by left].
  - unfold bind at 1. destruct (index2 data_mat y x) as [[|]|] eqn:Hi; cbn [or_raise ret raise]; try done.
    + intros [= <- <- <-]. split; [done|by left].
    + unfold bind at 1. destruct (choice nrow w) as [[y1| |] w1] eqn:Hy; try done.
      unfold bind at 1. destruct (choice ncol w1) as [[x1| |] w2] eqn:Hx; try done.
      intros Hr. apply IH in Hr as [Hv [[= -> ->]|Hr]].
      * split; [done|]. right.
        apply choice_Val in Hy as [? _]. apply choice_Val in Hx as [? _]. done.
      * split; [done|by right].
Qed.

Lemma random_select_valid (data_mat : bgrid) (w w' : world) (y x : Z) :
  random_select_reference_yx data_mat w = (Val (y, x), w') →
  index2 data_mat y x = Some true
  ∧ (0 ≤ y < Z.of_nat (length data_mat))%Z
  ∧ (0 ≤ x < Z.of_nat (from_option length 0%nat (head data_mat)))%Z.
Proof.
  unfold random_select_reference_yx.
  set (nrow := length data_mat). set (ncol := from_option length 0 (head data_mat)).
  unfold bind at 1. destruct (choice nrow w) as [[y1| |] w1] eqn:Hy; try done.
  unfold bind at 1. destruct (choice ncol w1) as [[x1| |] w2] eqn:Hx; try done.
  unfold bind at 1. intros Hr.
  apply redraw_Val in Hr as [Hv Hr]. split; [done|].
  apply choice_Val in Hy as [? _]. apply choice_Val in Hx as [? _].
  destruct Hr as [[= -> ->]|Hr]; done.
Qed.

(** X13: a pixel that the random selection returns is true in the grid and
    lies inside it. *)
Theorem random_selection_is_valid (data_mat : bgrid) (w w' : world) (y x : Z) :
  random_select_reference_yx data_mat w = (Val (y, x), w') →
  index2 data_mat y x = Some true
  ∧ (0 ≤ y < Z.of_nat (length data_mat))%Z
  ∧ (0 ≤ x < Z.of_nat (from_option length 0%nat (head data_mat)))%Z.
Proof. apply random_select_valid. Qed.

Lemma length_draws (pairs : list (nat * nat)) :
  length (draws pairs) = 2 * length pairs.
Proof.
  induction pairs as [|p l IH]; [done|].
  unfold draws in *. cbn [fmap list_fmap concat length app]. rewrite IH. lia.
Qed.

Lemma redraw_hit (fuel : nat) (data_mat : bgrid) (nrow ncol : nat) (y x : Z)
    (w : world) :
  index2 data_mat y x = Some true →
  redraw fuel data_mat nrow ncol y x w = (Val (y, x), w).
Proof. intros Hi. destruct fuel; simpl; unfold bind; by rewrite Hi. Qed.

Lemma redraw_first_hit (data_mat : bgrid) (nrow ncol : nat)
    (misses : list (nat * nat)) (hit : nat * nat) (rest : list nat)
    (fuel : nat) (y x : Z) (w : world) :
  nrow ≠ 0 → ncol ≠ 0 →
  index2 data_mat y x = Some false →
  Forall (λ p, index2 data_mat (drawn nrow ncol p).1 (drawn nrow ncol p).2
               = Some false) misses →
  index2 data_mat (drawn nrow ncol hit).1 (drawn nrow ncol hit).2 = Some true →
  rng w = draws misses ++ hit.1 :: hit.2 :: rest →
  length misses < fuel →
  redraw fuel data_mat nrow ncol y x w
  = (Val (drawn nrow ncol hit), World (fs w) rest (clicks w)).
Proof.
  intros Hnr Hnc. revert fuel y x w.
  induction misses as [|[a b] misses IH]; intros fuel y x w Hyx Hmiss Hhit Hrng Hfuel.
  - destruct fuel as [|fuel]; [simpl in Hfuel; lia|]. simpl.
    unfold bind at 1. rewrite Hyx. cbn [or_raise ret].
    simpl in Hrng. rewrite (choice2_run nrow ncol _ _ _ w _ Hnr Hnc Hrng).
    apply redraw_hit. exact Hhit.
  - destruct fuel as [|fuel]; [simpl in Hfuel; lia|]. simpl.
    unfold bind at 1. rewrite Hyx. cbn [or_raise ret].
    apply Forall_cons in Hmiss as [Hab Hmiss]. simpl in Hrng.
    rewrite (choice2_run nrow ncol _ _ _ w _ Hnr Hnc Hrng).
    refine (IH fuel _ _
              (World (fs w) (draws misses ++ hit.1 :: hit.2 :: rest) (clicks w))
              Hab Hmiss Hhit eq_refl _).
    simpl in Hfuel. lia.
Qed.

(** X14: the random selection returns the first drawn pixel that is true
    in the grid, and leaves the draws after it to the generator. *)
Theorem random_selection_first_hit (data_mat : bgrid)
    (misses : list (nat * nat)) (hit : nat * nat) (rest : list nat)
    (w : world) :
  let nrow := length data_mat in
  let ncol := from_option length 0 (head data_mat) in
  nrow ≠ 0 → ncol ≠ 0 →
  Forall (λ p, index2 data_mat (drawn nrow ncol p).1 (drawn nrow ncol p).2
               = Some false) misses →
  index2 data_mat (drawn nrow ncol hit).1 (drawn nrow ncol hit).2 = Some true →
  rng w = draws misses ++ hit.1 :: hit.2 :: rest →
  random_select_reference_yx data_mat w
  = (Val (drawn nrow ncol hit), World (fs w) rest (clicks w)).
Proof.
  intros nrow ncol Hnr Hnc Hmiss Hhit Hrng.
  unfold random_select_reference_yx. fold nrow ncol.
  destruct misses as [|[a b] misses].
  - simpl in Hrng. rewrite (choice2_run nrow ncol _ _ _ w _ Hnr Hnc Hrng).
    unfold bind at 1. cbn [fs clicks rng]. by apply redraw_hit.
  - apply Forall_cons in Hmiss as [Hab Hmiss]. simpl in Hrng.
    rewrite (choice2_run nrow ncol _ _ _ w _ Hnr Hnc Hrng).
    unfold bind at 1. cbn [fs clicks rng].
    refine (redraw_first_hit data_mat nrow ncol misses hit rest _ _ _
              (World (fs w) (draws misses ++ hit.1 :: hit.2 :: rest) (clicks w))
              Hnr Hnc Hab Hmiss Hhit eq_refl _).
    change (length misses < length (draws misses ++ hit.1 :: hit.2 :: rest)).
    rewrite length_app, length_draws. simpl. lia.
Qed.

Lemma random_selection_is_valid_witness :
  index2 (notnan stack_3x3) 2 1 = Some true
  ∧ (0 ≤ 2 < Z.of_nat (length (notnan stack_3x3)))%Z
  ∧ (0 ≤ 1 < Z.of_nat (from_option length 0%nat (head (notnan stack_3x3))))%Z.
Proof.
  apply (random_selection_is_valid (notnan stack_3x3) seed_world
           (World (fs seed_world) [4; 4; 1; 1] []) 2 1).
  vm_compute. reflexivity.
Defined.

Lemma random_selection_first_hit_witness :
  random_select_reference_yx (notnan stack_3x3)
    (World ∅ [1; 2; 4; 5; 5; 7; 9] [])
  = (Val (2, 1)%Z, World ∅ [9] []).
Proof.
  apply (random_selection_first_hit (notnan stack_3x3) [(1, 2); (4, 5)] (5, 7)
           [9] (World ∅ [1; 2; 4; 5; 5; 7; 9] [])).
  - discriminate.
  - discriminate.
  - repeat apply Forall_cons_2; [| |by apply Forall_nil]; vm_compute; reflexivity.
  - vm_compute. reflexivity.
  - reflexivity.
Defined.

(** ** Selection by coherence *)

(** X15: with a positive threshold, a pixel that the coherence selection
    returns has a coherence of at least the threshold and is true in the
    mask. *)
Theorem coherence_selection_is_valid (cohFile : string) (mask : bgrid)
    (min_coh : Q) (w w' : world) (y x : Z) (atr : attrs) (coh : raster) :
  fs w !! cohFile = Some (Raster atr coh) →
  (0 < min_coh)%Q →
  select_max_coherence_yx cohFile (Some mask) min_coh w = (Val (y, x), w') →
  index2 mask y x = Some true
  ∧ ∃ c, index2 coh y x = Some (Some c) ∧ (min_coh <= c)%Q.
Proof.
  intros Hfile Hpos. unfold select_max_coherence_yx.
  assert (Hread : read cohFile w = (Val (coh, atr), w)).
  { unfold read, bind, get_fs. by rewrite Hfile. }
  rewrite (bind_Val _ _ _ _ _ Hread). cbn [fst].
  unfold bind at 1.
  destruct (assign_where coh (map (map negb) mask) (Some 0%Q)) as [coh'|] eqn:Ha;
    cbn [or_raise ret raise]; [|done].
  intros Hsel. apply random_select_valid in Hsel as [Hv _].
  rewrite index2_fmap in Hv.
  destruct (index2 coh' y x) as [[c'|]|] eqn:Hc'; try discriminate.
  cbn in Hv. injection Hv as Hle. apply Qle_bool_iff in Hle.
  rewrite (assign_where_Some _ _ _ _ Ha) in Hc'.
  rewrite index2_fmap in Hc'.
  destruct (index2 coh y x) as [p|] eqn:Hp; [|done].
  destruct (index2 mask y x) as [[|]|] eqn:Hm; cbn in Hc'; try done.
  - injection Hc' as ->. split; [done|]. by exists c'.
  - injection Hc' as <-. exfalso. apply (Qlt_not_le _ _ Hpos Hle).
Qed.

(** ** Manual selection *)

Lemma set_ref_set_ref (inps : namespace) (a b c d : pyval) :
  set_ref (set_ref inps a b) c d = set_ref inps c d.
Proof. reflexivity. Qed.

Lemma foldl_onclick_last (stack : raster) (inps : namespace)
    (cs : list (nat * nat)) :
  foldl (onclick stack) inps cs
  = match last (filter (valid_click stack) cs) with
    | Some yx => set_ref inps (PInt (Z.of_nat yx.1)) (PInt (Z.of_nat yx.2))
    | None => inps
    end.
Proof.
  induction cs as [|c cs IH] using rev_ind; [done|].
  rewrite foldl_snoc, filter_app, IH.
  rewrite (filter_cons _ c), filter_nil. unfold onclick at 1.
  destruct (decide (valid_click stack c)) as [[q Hq]|Hn].
  - rewrite last_snoc. rewrite Hq.
    by destruct (last (filter (valid_click stack) cs)).
  - rewrite app_nil_r.
    destruct (index2 stack (Z.of_nat c.1) (Z.of_nat c.2)) as [[q|]|] eqn:Hi; try done.
    exfalso. apply Hn. by exists q.
Qed.

(** X16: of the clicks of the user, the last one on a pixel that is not
    NaN is the reference; without such a click the namespace is left as
    it was. *)
Theorem manual_selection_takes_last_valid_click (stack : raster)
    (inps : namespace) (w : world) :
  manual_select_reference_yx stack inps w
  = (Val match last (filter (valid_click stack) (clicks w)) with
         | Some yx => set_ref inps (PInt (Z.of_nat yx.1)) (PInt (Z.of_nat yx.2))
         | None => inps
         end,
     World (fs w) (rng w) []).
Proof. unfold manual_select_reference_yx. by rewrite foldl_onclick_last. Qed.

Lemma coherence_selection_is_valid_witness :
  index2 (notnan stack_3x3) 1 1 = Some true
  ∧ ∃ c, index2 [[Some (9 # 10); Some (1 # 2); Some (1 # 2)];
                 [Some (1 # 2); Some (9 # 10); Some (1 # 1)];
                 [Some (1 # 2); Some (1 # 2); Some (1 # 2)]] 1 1
         = Some (Some c) ∧ (85 # 100 <= c)%Q.
Proof.
  apply (coherence_selection_is_valid "coh.h5" (notnan stack_3x3) (85 # 100)
           (World (fs seed_world) [4; 4] [])
           (World (fs seed_world) [] []) 1 1 (rsc "3" "3")).
  - vm_compute. reflexivity.
  - reflexivity.
  - vm_compute. reflexivity.
Defined.

(** ** The attributes of a seeded file *)

Section seed_attrs.
Variable coord_radar2geo : pyval → attrs → string → pyval.

Lemma seed_attributes_records (atr : attrs) (x y : pyval) :
  records_reference (seed_attributes coord_radar2geo atr x y) atr y x.
Proof.
  unfold records_reference, seed_attributes.
  case_bool_decide.
  - split; [|split].
    + by rewrite !lookup_insert_ne, lookup_insert_eq by done.
    + by rewrite !lookup_insert_ne, lookup_insert_eq by done.
    + intros key Hkey.
      rewrite !not_elem_of_cons in Hkey. destruct Hkey as (? & ? & ? & ? & _).
      by rewrite !lookup_insert_ne, lookup_fmap by done.
  - split; [|split].
    + by rewrite lookup_insert_ne, lookup_insert_eq by done.
    + by rewrite lookup_insert_eq.
    + intros key Hkey.
      rewrite !not_elem_of_cons in Hkey. destruct Hkey as (? & ? & ? & ? & _).
      by rewrite !lookup_insert_ne, lookup_fmap by done.
Qed.

Lemma seeded_members_attrs (g : h5group) (mk : h5node → pixel → h5node)
    (P : h5node → h5node → Prop) pairs m :
  (∀ n r, P n (mk n r)) →
  (∀ e, e ∈ pairs.*1 → is_Some (members g !! e)) →
  ∀ e n', e ∈ pairs.*1 → seeded_members g mk pairs m !! e = Some n' →
          ∃ n, members g !! e = Some n ∧ P n n'.
Proof.
  intros HP. revert m. induction pairs as [|[e0 r0] pairs IH]; intros m Hall e n' He Hl.
  - by apply elem_of_nil in He.
  - rewrite seeded_members_cons in Hl.
    destruct (decide (e ∈ pairs.*1)) as [Hin|Hnin].
    + eapply IH; [|exact Hin|exact Hl]. intros e' He'. apply Hall. by right.
    + rewrite seeded_members_notin in Hl by done.
      cbn in He. apply elem_of_cons in He as [->|He]; [|done].
      rewrite lookup_insert_eq in Hl. injection Hl as <-.
      destruct (Hall e0 ltac:(left)) as [n Hn]. exists n. split; [done|].
      rewrite Hn. apply HP.
Qed.

(** X17: a multi-epoch file seeded in value mode records the reference:
    on the group for a time series, on every epoch otherwise; all other
    attributes are kept, as strings. *)
Theorem value_mode_records_the_reference (w : world) (File outName : string)
    (refList : list pixel) (ref_y ref_x : pyval) groups (atr : attrs) k g :
  fs w !! File = Some (H5 groups) →
  read_attribute File w = (Val atr, w) →
  atr !! "FILE_TYPE" = Some (PStr k) →
  k ∈ multi_epoch_types →
  groups !! k = Some g →
  members g !! EmptyString = None →
  length refList = size (members g) →
  outName ≠ File →
  ∃ w' g',
    seed_file_reference_value coord_radar2geo File outName refList ref_y ref_x w
    = (Val outName, w')
    ∧ fs w' !! outName = Some (H5 (<[k := g']> ∅))
    ∧ (k = "timeseries" → records_reference (gattrs g') atr ref_y ref_x)
    ∧ (k ≠ "timeseries" →
       ∀ e n', members g' !! e = Some n' →
         ∃ n, members g !! e = Some n
            ∧ records_reference (nattrs n') (nattrs n) ref_y ref_x).
Proof.
  intros Hfile Hattr Hk Hin Hg Hempty Hlen Hout.
  eexists _, _. split; [|split; [|split]].
  - by apply (seed_file_reference_value_multi coord_radar2geo w File outName
                refList ref_y ref_x groups atr k g).
  - cbn [fs]. apply lookup_insert_eq.
  - intros ->. unfold seeded_group. rewrite bool_decide_true by done.
    cbn [gattrs]. rewrite (right_id_L ∅ (∪)). apply seed_attributes_records.
  - intros Hk' e n' Hn'. unfold seeded_group in Hn'.
    rewrite bool_decide_false in Hn' by done. cbn [members] in Hn'.
    set (epochs := sorted (map fst (map_to_list (members g)))) in *.
    assert (Hfst : (zip epochs refList).*1 = epochs).
    { apply fst_zip. unfold epochs, sorted.
      rewrite merge_sort_Permutation, length_map, length_map_to_list. lia. }
    assert (He : e ∈ (zip epochs refList).*1).
    { destruct (decide (e ∈ (zip epochs refList).*1)) as [|Hn]; [done|].
      rewrite seeded_members_notin in Hn' by done. by rewrite lookup_empty in Hn'. }
    eapply (seeded_members_attrs g _
              (λ n n', records_reference (nattrs n') (nattrs n) ref_y ref_x));
      [| |exact He|exact Hn'].
    + intros n r. cbn [nattrs]. apply seed_attributes_records.
    + intros e' He'. rewrite Hfst in He'. by apply sorted_keys_elem.
Qed.

(** X18: value mode on a single-dataset file with one reference value
    writes the raster minus that value, with the reference recorded,
    under the output name; a list that is neither one value nor one
    value per column is refused before anything is written. *)
Theorem value_mode_on_single_dataset (w : world) (File outName : string)
    (ref_y ref_x : pyval) (atr : attrs) (data : raster) (k : string) :
  fs w !! File = Some (Raster atr data) →
  atr !! "FILE_TYPE" = Some (PStr k) →
  k ∉ multi_epoch_types →
  (∀ r, seed_file_reference_value coord_radar2geo File outName [r] ref_y ref_x w
        = (Val outName,
           World (<[outName := Raster (seed_attributes coord_radar2geo atr ref_x ref_y)
                                      (raster_sub data r)]> (fs w))
                 (rng w) (clicks w)))
  ∧ (∀ refList, length refList ≠ 1 →
       ¬ Forall (λ row, length row = length refList) data →
       seed_file_reference_value coord_radar2geo File outName refList ref_y ref_x w
       = (Exc ValueError, w)).
Proof.
  intros Hfile Hk Hnot.
  assert (Hattr : read_attribute File w = (Val atr, w)).
  { unfold read_attribute, bind, get_fs. by rewrite Hfile. }
  assert (Hread : read File w = (Val (data, atr), w)).
  { unfold read, bind, get_fs. by rewrite Hfile. }
  split.
  - intros r. unfold seed_file_reference_value.
    rewrite (bind_Val _ _ _ _ _ Hattr).
    rewrite (bind_Val _ _ _ _ _ (getitem_Some _ _ _ _ Hk)).
    cbn [as_str]. rewrite bind_ret. rewrite bool_decide_false by done.
    rewrite (bind_Val _ _ _ _ _ Hread). cbn [broadcast_sub or_raise].
    rewrite bind_ret. reflexivity.
  - intros refList Hlen Hrows. unfold seed_file_reference_value.
    rewrite (bind_Val _ _ _ _ _ Hattr).
    rewrite (bind_Val _ _ _ _ _ (getitem_Some _ _ _ _ Hk)).
    cbn [as_str]. rewrite bind_ret. rewrite bool_decide_false by done.
    rewrite (bind_Val _ _ _ _ _ Hread).
    assert (Hb : broadcast_sub data refList = None).
    { unfold broadcast_sub. destruct refList as [|r [|r' l]]; [|done|].
      - by rewrite bool_decide_false.
      - by rewrite bool_decide_false. }
    rewrite Hb. reflexivity.
Qed.
End seed_attrs.

Lemma value_mode_records_the_reference_witness :
  ∃ w' g',
    seed_file_reference_value no_geo "ifg.h5" "out.h5" [Some 1%Q; Some 2%Q]
      (PInt 1) (PInt 1) seed_world
    = (Val "out.h5", w')
    ∧ fs w' !! "out.h5" = Some (H5 (<["interferograms" := g']> ∅))
    ∧ ("interferograms" = "timeseries" →
       records_reference (gattrs g') ifgram_attrs (PInt 1) (PInt 1))
    ∧ ("interferograms" ≠ "timeseries" →
       ∀ e n', members g' !! e = Some n' →
         ∃ n, members ifgram_group !! e = Some n
            ∧ records_reference (nattrs n') (nattrs n) (PInt 1) (PInt 1)).
Proof.
  apply (value_mode_records_the_reference no_geo seed_world "ifg.h5" "out.h5"
           [Some 1%Q; Some 2%Q] (PInt 1) (PInt 1) ifgram_3x3 ifgram_attrs
           "interferograms" ifgram_group);
    try reflexivity; try (vm_compute; reflexivity); try discriminate.
  apply ifgram_type_multi_epoch.
Defined.

Lemma value_mode_on_single_dataset_witness :
  (∀ r, seed_file_reference_value no_geo "velocity.h5" "out.h5" [r]
          (PInt 1) (PInt 1) velocity_world
        = (Val "out.h5",
           World (<["out.h5" :=
                    Raster (seed_attributes no_geo
                              (<["FILE_TYPE" := PStr "velocity"]> (rsc "3" "3"))
                              (PInt 1) (PInt 1))
                           (raster_sub epoch_B r)]> (fs velocity_world))
                 (rng velocity_world) (clicks velocity_world)))
  ∧ (∀ refList, length refList ≠ 1 →
       ¬ Forall (λ row, length row = length refList) epoch_B →
       seed_file_reference_value no_geo "velocity.h5" "out.h5" refList
         (PInt 1) (PInt 1) velocity_world
       = (Exc ValueError, velocity_world)).
Proof.
  apply (value_mode_on_single_dataset no_geo velocity_world "velocity.h5"
           "out.h5" (PInt 1) (PInt 1) _ epoch_B "velocity").
  - vm_compute. reflexivity.
  - vm_compute. reflexivity.
  - unfold multi_epoch_types. rewrite !not_elem_of_cons.
    repeat split; try discriminate. apply not_elem_of_nil.
Defined.

(** ** Which files the seeding may change *)

Lemma touches_only_h5_main_group ps path : touches_only ps (h5_main_group path).
Proof. unfold h5_main_group. touches. Qed.
#[local] Hint Resolve touches_only_h5_main_group : touches.

Lemma touches_only_get_file_stack ps File mask_file :
  touches_only ps (get_file_stack File mask_file).
Proof. unfold get_file_stack. touches. Qed.

Lemma touches_only_spatial_average ps File mask box :
  touches_only ps (spatial_average File mask box).
Proof. unfold spatial_average. touches. Qed.

Lemma touches_only_add_attribute ps File atr :
  File ∈ ps → touches_only ps (add_attribute File atr).
Proof.
  intros Hp w q Hq. unfold add_attribute. rewrite bind_get_fs.
  assert (Hne : q ≠ File) by (by intros ->).
  destruct (fs w !! File) as [[groups|a d| |]|]; try done.
  - unfold bind at 1.
    pose proof (readonly_h5_main_group File w) as Hro.
    destruct (h5_main_group File w) as [[[k g]| |] w1]; simpl in Hro; subst w1;
      [|done..].
    unfold bind, set_fs, ret. cbn [snd fs]. by rewrite lookup_insert_ne.
  - unfold bind, set_fs, ret. cbn [snd fs]. by rewrite lookup_insert_ne.
Qed.

Lemma touches_only_find_reference_yx ps stack mask inps :
  touches_only ps (find_reference_yx stack mask inps).
Proof. apply touches_only_keeps, keeps_fs_find_reference_yx. Qed.

Section seeding_frames.
Variable coord_radar2geo : pyval → attrs → string → pyval.

(** X19: whatever its outcome, the seeding of a file changes no file other
    than its output and, when it marks the reference, the file itself. *)
Theorem seeding_touches_input_and_output (File : string) (inps : namespace)
    (outFile : option string) :
  touches_only [File; default ("Seeded_" +:+ basename File) (given outFile)]
    (seed_file_inps coord_radar2geo File inps outFile).
Proof.
  set (out := default ("Seeded_" +:+ basename File) (given outFile)).
  assert (Hf : File ∈ [File; out]) by left.
  assert (Ho : out ∈ [File; out]) by (right; left).
  assert (Hv : ∀ refList ry rx,
            touches_only [File; out]
              (seed_file_reference_value coord_radar2geo File out refList ry rx)).
  { intros refList ry rx w q Hq.
    apply (touches_only_seed_file_reference_value coord_radar2geo File out refList ry rx).
    intros ->%list_elem_of_singleton. by apply Hq. }
  unfold seed_file_inps. fold out.
  apply touches_only_bind; [apply touches_only_get_file_stack|]. intros stack.
  case_bool_decide; [touches|].
  case_bool_decide.
  - apply touches_only_bind; [touches|]. intros atr.
    apply touches_only_bind; [touches|]. intros wv.
    apply touches_only_bind; [touches|]. intros width.
    apply touches_only_bind; [touches|]. intros lv.
    apply touches_only_bind; [touches|]. intros len.
    apply touches_only_bind; [apply touches_only_spatial_average|]. intros meanList.
    apply touches_only_bind; [apply Hv|touches].
  - apply touches_only_bind; [apply touches_only_find_reference_yx|]. intros inps1.
    unfold seed_reference_yx.
    apply touches_only_bind.
    { destruct (truthy (ref_y inps1) && truthy (ref_x inps1)); [|touches].
      unfold getitem2. touches. }
    intros [|]; [|touches].
    destruct (mark_attribute inps1).
    + apply touches_only_bind.
      * by apply touches_only_add_attribute.
      * touches.
    + destruct (ref_y inps1) eqn:Ey, (ref_x inps1) eqn:Ex;
        try apply touches_only_raise.
      apply touches_only_bind; [apply touches_only_spatial_average|]. intros refList.
      apply touches_only_bind; [apply Hv|touches].
Qed.
End seeding_frames.

(** ** The run of [main] over its files *)

Lemma bind_ext_readonly {A B} (m : M A) (k k' : A → M B) (w : world) :
  readonly m → (∀ a, m w = (Val a, w) → k a w = k' a w) →
  bind m k w = bind m k' w.
Proof.
  intros Hro Hk. unfold bind. specialize (Hro w).
  destruct (m w) as [[a| |] w1]; simpl in Hro; subst; [|done..]. by apply Hk.
Qed.

Lemma readonly_read_attribute path : readonly (read_attribute path).
Proof. intros w. apply read_attribute_readonly. Qed.

Lemma readonly_getitem atr key : readonly (getitem atr key).
Proof. unfold getitem. apply readonly_or_raise. Qed.

Lemma find_reference_yx_method (stack : raster) (mask : bgrid)
    (inps inps1 : namespace) (w w1 : world) :
  find_reference_yx stack mask inps w = (Val inps1, w1) →
  method inps1 = method inps ∨ method inps1 = max_coherence.
Proof.
  unfold find_reference_yx.
  destruct (negb (truthy (ref_y inps)) || negb (truthy (ref_x inps)));
    [|intros [= <- _]; by left].
  destruct (given (coherence_file inps)) as [c|].
  - intros (yx & w2 & _ & [= <- _])%bind_Val_inv. by right.
  - case_bool_decide.
    + intros (yx & w2 & _ & [= <- _])%bind_Val_inv. by left.
    + case_bool_decide; [|intros [= <- _]; by left].
      unfold manual_select_reference_yx. intros [= <- _]. left.
      generalize (clicks w). intros cs. revert inps H H0.
      induction cs as [|c cs IH]; intros inps H H0; [done|]. simpl.
      unfold onclick at 2.
      destruct (index2 stack (Z.of_nat c.1) (Z.of_nat c.2)) as [[q|]|];
        try (by apply IH).
      rewrite IH; done.
Qed.

Section main_more.
Variable coord_radar2geo : pyval → attrs → string → pyval.

Lemma check_and_seed_no_coordinates (len width : Z) (inps : namespace)
    (w : world) :
  truthy (ref_y inps) && truthy (ref_x inps) = false →
  check_and_seed coord_radar2geo len width inps w
  = (inps <- match given (coherence_file inps) with
             | Some cohFile =>
                 existed <- isfile cohFile ;;
                 if existed : bool then ret (set_method inps max_coherence)
                 else ret (set_coherence_file inps None)
             | None => ret inps
             end ;;
     match file inps with
     | [File] =>
         r <- seed_file_inps coord_radar2geo File inps (outfile inps) ;;
         ret ([r.1], r.2)
     | files =>
         for_each files (λ acc File,
           r <- seed_file_inps coord_radar2geo File acc.2 None ;;
           ret (acc.1 ++ [r.1], r.2)) ([], inps)
     end) w.
Proof.
  intros Hf. unfold check_and_seed.
  rewrite !Hf. cbn [andb]. cbv beta iota zeta. rewrite !Hf.
  rewrite !bind_ret. rewrite !Hf. reflexivity.
Qed.

(** X20: a coherence file that is named but not there is ignored: the run
    is the run without a coherence file. *)
Theorem missing_coherence_file_is_ignored (inps : namespace) (w : world)
    (cohFile : string) :
  given (coherence_file inps) = Some cohFile →
  fs w !! cohFile = None →
  truthy (ref_y inps) && truthy (ref_x inps) = false →
  main coord_radar2geo inps w
  = main coord_radar2geo (set_coherence_file inps None) w.
Proof.
  intros Hc Hnone Hf. unfold main. cbn [file set_coherence_file].
  apply bind_ext_readonly; [apply readonly_or_raise|]. intros file0 _.
  apply bind_ext_readonly; [apply readonly_read_attribute|]. intros atr _.
  apply bind_ext_readonly; [apply readonly_getitem|]. intros lv _.
  apply bind_ext_readonly; [apply readonly_or_raise|]. intros len _.
  apply bind_ext_readonly; [apply readonly_getitem|]. intros wv _.
  apply bind_ext_readonly; [apply readonly_or_raise|]. intros width _.
  rewrite (check_and_seed_no_coordinates len width inps w Hf).
  rewrite (check_and_seed_no_coordinates len width
             (set_coherence_file inps None) w Hf).
  rewrite Hc.
  change (given (coherence_file (set_coherence_file inps None))) with (@None string).
  rewrite (bind_Val _ _ w (set_coherence_file inps None) w).
  2:{ rewrite (bind_Val _ _ _ _ _ (isfile_run cohFile w)). rewrite Hnone.
      by rewrite bool_decide_false by (by intros [? ?]). }
  by rewrite bind_ret.
Qed.

Lemma seed_file_inps_resolved (File : string) (inps inps' : namespace)
    (outFile : option string) (w w' : world) (o : string) :
  method inps ≠ global_average →
  seed_file_inps coord_radar2geo File inps outFile w = (Val (o, inps'), w') →
  truthy (ref_y inps') && truthy (ref_x inps') = true
  ∧ method inps' ≠ global_average
  ∧ (truthy (ref_y inps) && truthy (ref_x inps) = true → inps' = inps).
Proof.
  intros Hm. unfold seed_file_inps.
  intros (stack & w1 & _ & Hrun)%bind_Val_inv.
  case_bool_decide; [done|]. rewrite bool_decide_false in Hrun by done.
  apply bind_Val_inv in Hrun as (inps1 & w2 & Hfind & Hseed).
  apply seed_reference_yx_ref in Hseed as [-> Ht].
  split; [done|]. split.
  - apply find_reference_yx_method in Hfind as [-> | ->]; done.
  - intros Ht0. rewrite find_reference_yx_explicit in Hfind by done.
    by injection Hfind as <- _.
Qed.

(** X21: in a run over several files the namespace after the first file
    is the namespace of the whole run: every later file is referenced to
    the pixel that was resolved for the first one. *)
Theorem later_files_keep_the_reference (File : string) (rest : list string)
    (inps inps' : namespace) (w w' : world) (outs : list string) :
  method inps ≠ global_average →
  for_each (File :: rest) (λ acc File,
      r <- seed_file_inps coord_radar2geo File acc.2 None ;;
      ret (acc.1 ++ [r.1], r.2)) ([], inps) w
  = (Val (outs, inps'), w') →
  ∃ o1 w1,
    seed_file_inps coord_radar2geo File inps None w = (Val (o1, inps'), w1)
    ∧ truthy (ref_y inps') && truthy (ref_x inps') = true
    ∧ length outs = S (length rest).
Proof.
  intros Hm. cbn [for_each].
  intros ([outs1 inps1] & w1 & Hfirst & Hrest)%bind_Val_inv.
  apply bind_Val_inv in Hfirst as ([o1 inps1'] & w1' & Hseed & [= <- <- <-]).
  destruct (seed_file_inps_resolved _ _ _ _ _ _ _ Hm Hseed) as (Ht & Hm1 & _).
  cbn [fst snd app] in Hrest.
  assert (Hloop : ∀ rest outs0 w0,
            for_each rest (λ acc File,
                r <- seed_file_inps coord_radar2geo File acc.2 None ;;
                ret (acc.1 ++ [r.1], r.2)) (outs0, inps1') w0
            = (Val (outs, inps'), w') →
            inps' = inps1' ∧ length outs = length outs0 + length rest).
  { clear -Ht Hm1. induction rest as [|F rest IH]; intros outs0 w0.
    - simpl. intros [= <- <- <-]. split; [done|lia].
    - cbn [for_each].
      intros ([outs2 inps2] & w2 & Hstep & Hrest)%bind_Val_inv.
      apply bind_Val_inv in Hstep as ([o2 inps2'] & w2' & Hseed & [= <- <- <-]).
      destruct (seed_file_inps_resolved _ _ _ _ _ _ _ Hm1 Hseed) as (_ & _ & Heq).
      cbn [fst snd] in *. rewrite (Heq Ht) in Hrest.
      apply IH in Hrest as [-> Hlen]. split; [done|].
      rewrite length_app in Hlen. simpl in *. lia. }
  apply Hloop in Hrest as [-> Hlen].
  exists o1, w1'. split; [done|]. split; [done|]. simpl in Hlen. lia.
Qed.
End main_more.

(** ** [nearest] *)

Lemma py_min_least (a : Q) (l : list Q) :
  ∃ m, foldl (λ cur it, if pixel_ltb it cur then it else cur) (Some a)
         (Some <$> l) = Some m
       ∧ m ∈ a :: l ∧ ∀ q, q ∈ a :: l → (m <= q)%Q.
Proof.
  revert a. induction l as [|b l IH]; intros a.
  - exists a. split; [done|]. split; [left|].
    intros q ->%list_elem_of_singleton. apply Qle_refl.
  - cbn [fmap list_fmap foldl]. unfold pixel_ltb at 2.
    destruct (Qle_bool a b) eqn:Hab; cbn [negb].
    + destruct (IH a) as (m & Hm & Hin & Hle). exists m. split; [done|]. split.
      * apply elem_of_cons in Hin as [->|Hin]; [left|right; by right].
      * intros q [->|[->|Hq]%elem_of_cons]%elem_of_cons.
        -- apply Hle. left.
        -- apply Qle_trans with a; [apply Hle; left|by apply Qle_bool_iff].
        -- apply Hle. by right.
    + destruct (IH b) as (m & Hm & Hin & Hle). exists m. split; [done|]. split.
      * by right.
      * intros q [->|[->|Hq]%elem_of_cons]%elem_of_cons.
        -- apply Qle_trans with b; [apply Hle; left|].
           apply Qlt_le_weak, Qnot_le_lt. intros Hle'.
           apply Qle_bool_iff in Hle'. congruence.
        -- apply Hle. left.
        -- apply Hle. by right.
Qed.



(** ** [closest_weather_product_time] *)

(** X23: the weather product is the one of 0, 6, 12 and 18 h closest to
    the hour of the acquisition, the earlier one on a tie; it is never
    the product of the next day. *)
Theorem closest_weather_product_is_closest (sar_time : Q)
    (grib_source : string) :
  let sar_hh := py_trunc (sar_time / 3600) in
  ∃ grib_hr,
    grib_hr ∈ [0; 6; 12; 18]%Z
    ∧ (∀ h, h ∈ [0; 6; 12; 18]%Z →
         (Z.abs (grib_hr - sar_hh) ≤ Z.abs (h - sar_hh))%Z
         ∧ (Z.abs (h - sar_hh) = Z.abs (grib_hr - sar_hh) → (grib_hr ≤ h)%Z))
    ∧ ((16 ≤ sar_hh)%Z → grib_hr = 18%Z)
    ∧ closest_weather_product_time sar_time grib_source
      = if String.eqb grib_source "NARR" then pad2 grib_hr
        else pad2 grib_hr +:+ ":00".
Proof.
  intros sar_hh. unfold closest_weather_product_time. fold sar_hh.
  set (h := min_by _ _ _). exists h.
  assert (Hcases : (sar_hh ≤ 3 ∧ h = 0 ∨ 4 ≤ sar_hh ≤ 9 ∧ h = 6
                    ∨ 10 ≤ sar_hh ≤ 15 ∧ h = 12 ∨ 16 ≤ sar_hh ∧ h = 18)%Z).
  { subst h. unfold min_by. cbn [foldl].
    destruct (Z.ltb_spec (Z.abs (6 - sar_hh)) (Z.abs (0 - sar_hh)));
      [destruct (Z.ltb_spec (Z.abs (12 - sar_hh)) (Z.abs (6 - sar_hh)))
      |destruct (Z.ltb_spec (Z.abs (12 - sar_hh)) (Z.abs (0 - sar_hh)))];
      (match goal with
       | |- context [(?a <? ?b)%Z] => destruct (Z.ltb_spec a b)
       end); lia. }
  split; [|split; [|split; [|done]]].
  - rewrite !elem_of_cons. lia.
  - intros h'. rewrite !elem_of_cons, elem_of_nil. lia.
  - lia.
Qed.

(** ** The reference information of the template and reference files *)

Section reference_info_facts.
Variable read_template : string → M (gmap string string).
Variable float_of_str : string → option Q.
Variable coord_radar2geo : pyval → attrs → string → pyval.

(** X24: a [pysar.reference.yx] entry that is not [auto], [no] or two
    integers divided by a comma ends the read in [ValueError]. *)
Theorem malformed_template_yx_raises (tf : string) (opts : options)
    (w w' : world) (template : gmap string string) (value : string) :
  read_template tf w = (Val template, w') →
  template !! "pysar.reference.yx" = Some value →
  value ∉ ["auto"; "no"] →
  (∀ y x, mapM int_of_str (split_on "," value) ≠ Some [y; x]) →
  read_seed_template2inps read_template float_of_str tf opts w
  = (Exc ValueError, w').
Proof.
  intros Hread Hyx Hauto Hbad. unfold read_seed_template2inps.
  rewrite (bind_Val _ _ _ _ _ Hread). cbv zeta.
  change ("pysar.reference." +:+ "yx") with "pysar.reference.yx".
  rewrite Hyx. rewrite (bool_decide_true (value ∉ ["auto"; "no"])) by done.
  destruct (mapM int_of_str (split_on "," value)) as [yx|] eqn:Hmap;
    [|reflexivity].
  destruct yx as [|y [|x [|? ?]]]; try reflexivity.
  by destruct (Hbad y x).
Qed.

Lemma template_yx_read (tf : string) (opts : options) (w w' : world)
    (template : gmap string string) (value : string) (y x : Z) :
  read_template tf w = (Val template, w') →
  template !! "pysar.reference.yx" = Some value →
  value ∉ ["auto"; "no"] →
  mapM int_of_str (split_on "," value) = Some [y; x] →
  template !! "pysar.reference.lalo" = None →
  template !! "pysar.reference.minCoherence" = None →
  ∃ opts',
    read_seed_template2inps read_template float_of_str tf opts w
    = (Val opts', w')
    ∧ ref_y (base opts') = PInt y ∧ ref_x (base opts') = PInt x
    ∧ ref_lat opts' = ref_lat opts ∧ ref_lon opts' = ref_lon opts
    ∧ reference_file opts' = reference_file opts.
Proof.
  intros Hread Hyx Hauto Hmap Hlalo Hmin. unfold read_seed_template2inps.
  rewrite (bind_Val _ _ _ _ _ Hread). cbv zeta.
  change ("pysar.reference." +:+ "yx") with "pysar.reference.yx".
  change ("pysar.reference." +:+ "lalo") with "pysar.reference.lalo".
  change ("pysar.reference." +:+ "minCoherence")
    with "pysar.reference.minCoherence".
  rewrite Hyx, Hlalo, Hmin.
  rewrite (bool_decide_true (value ∉ ["auto"; "no"])) by done.
  rewrite Hmap. cbn [or_raise]. rewrite bind_assoc, bind_ret. cbv beta iota.
  rewrite !bind_ret.
  eexists. split; [reflexivity|].
  destruct (template !! ("pysar.reference." +:+ "maskFile")) as [m|];
    destruct (template !! ("pysar.reference." +:+ "coherenceFile")) as [c|];
    repeat case_bool_decide; done.
Qed.

Lemma reference_read_back (rf arg : string) (opts : options) (w : world)
    (atr_ref : attrs) (y x : Z) :
  reference_file opts = Some rf →
  read_attribute rf w = (Val atr_ref, w) →
  atr_ref !! "ref_y" = Some (PInt y) →
  atr_ref !! "ref_x" = Some (PInt x) →
  atr_ref !! "ref_lon" = None →
  truthy (ref_y (base opts)) && truthy (ref_x (base opts)) = false →
  read_seed_reference2inps float_of_str arg opts w
  = (Val (with_base opts (set_ref (base opts) (PInt y) (PInt x))), w).
Proof.
  intros Hrf Hread Hy Hx Hlon Hmiss. unfold read_seed_reference2inps.
  rewrite Hrf, (bind_Val _ _ _ _ _ Hread).
  replace (negb (truthy (ref_y (base opts))) || negb (truthy (ref_x (base opts))))
    with true by (by destruct (truthy (ref_y (base opts))),
                              (truthy (ref_x (base opts)))).
  rewrite (bool_decide_true (is_Some (atr_ref !! "ref_x"))) by (by rewrite Hx).
  cbn [andb].
  rewrite bind_assoc, (bind_Val _ _ _ _ _ (getitem_Some _ _ _ _ Hy)).
  rewrite bind_assoc. cbn [int_of]. rewrite bind_ret.
  rewrite bind_assoc, (bind_Val _ _ _ _ _ (getitem_Some _ _ _ _ Hx)).
  rewrite bind_assoc. cbn [int_of]. rewrite bind_ret. rewrite bind_ret.
  rewrite (bool_decide_false (is_Some (atr_ref !! "ref_lon")))
    by (rewrite Hlon; by intros [? ?]).
  by rewrite andb_false_r.
Qed.

(** X25: coordinates of the template replace the ones of the command
    line, and a reference file does not change them when neither is
    zero: the template comes first, the reference file last. *)
Theorem template_yx_comes_first (opts : options) (w w' : world)
    (tf rf : string) (template : gmap string string) (value : string)
    (y x : Z) (atr_ref : attrs) :
  given (template_file opts) = Some tf →
  given (reference_file opts) = Some rf →
  read_template tf w = (Val template, w') →
  template !! "pysar.reference.yx" = Some value →
  value ∉ ["auto"; "no"] →
  mapM int_of_str (split_on "," value) = Some [y; x] →
  y ≠ 0%Z → x ≠ 0%Z →
  template !! "pysar.reference.lalo" = None →
  template !! "pysar.reference.minCoherence" = None →
  read_attribute rf w' = (Val atr_ref, w') →
  atr_ref !! "ref_lon" = None →
  ∃ opts',
    read_reference_info read_template float_of_str opts w = (Val opts', w')
    ∧ ref_y (base opts') = PInt y ∧ ref_x (base opts') = PInt x.
Proof.
  intros Htf Hrf Hread Hyx Hauto Hmap Hy0 Hx0 Hlalo Hmin Hattr Hlon.
  destruct (template_yx_read tf opts w w' template value y x
              Hread Hyx Hauto Hmap Hlalo Hmin)
    as (opts1 & Hrun & Hy & Hx & _ & _ & Hsame).
  unfold read_reference_info. rewrite Htf, (bind_Val _ _ _ _ _ Hrun).
  rewrite Hsame, Hrf.
  exists opts1. split; [|done].
  unfold read_seed_reference2inps. rewrite Hsame.
  assert (Hrf' : reference_file opts = Some rf).
  { unfold given in Hrf. destruct (reference_file opts) as [s|]; [|done].
    by destruct (String.eqb s EmptyString); simplify_eq. }
  rewrite Hrf', (bind_Val _ _ _ _ _ Hattr).
  rewrite Hy, Hx. cbn [truthy].
  rewrite (proj2 (Z.eqb_neq y 0)), (proj2 (Z.eqb_neq x 0)) by done.
  cbn [negb orb andb]. rewrite bind_ret.
  rewrite (bool_decide_false (is_Some (atr_ref !! "ref_lon")))
    by (rewrite Hlon; by intros [? ?]).
  by rewrite andb_false_r.
Qed.

Lemma seed_attributes_ref (atr : attrs) (x y : pyval) :
  no_geo_reference atr →
  let atr' := seed_attributes coord_radar2geo atr x y in
  atr' !! "ref_y" = Some y ∧ atr' !! "ref_x" = Some x
  ∧ atr' !! "ref_lon" = None.
Proof.
  intros [Hgeo Hlon]. unfold seed_attributes.
  rewrite bool_decide_false.
  - rewrite lookup_insert_ne, lookup_insert_eq by done.
    rewrite lookup_insert_eq.
    rewrite !lookup_insert_ne, lookup_fmap, Hlon by done. done.
  - rewrite !lookup_insert_ne, lookup_fmap, Hgeo by done. by intros [? ?].
Qed.

Lemma multi_epoch_multi_group (k : string) :
  k ∈ multi_epoch_types → k ≠ "timeseries" → k ∈ multi_group_hdf5_file.
Proof.
  unfold multi_epoch_types, multi_group_hdf5_file. rewrite !elem_of_cons.
  intros [->|[->|[->|[->|Hnil]]]] Hts; [done|tauto|tauto|tauto|].
  by apply elem_of_nil in Hnil.
Qed.

Lemma h5_file_type_singleton (k : string) (g : h5group) :
  h5_file_type (<[k := g]> ∅) = Some k.
Proof.
  unfold h5_file_type. rewrite insert_empty, map_to_list_singleton.
  reflexivity.
Qed.

(** X26: the output of value-mode seeding, given as reference file to a
    run without coordinates, hands back the pixel it was seeded on. *)
Theorem seeded_reference_reads_back (w : world) (File outName arg : string)
    (refList : list pixel) (y x : Z) groups (atr : attrs) k g
    (opts : options) :
  fs w !! File = Some (H5 groups) →
  read_attribute File w = (Val atr, w) →
  atr !! "FILE_TYPE" = Some (PStr k) →
  k ∈ multi_epoch_types →
  groups !! k = Some g →
  members g !! EmptyString = None →
  length refList = size (members g) →
  outName ≠ File →
  no_geo_reference atr →
  (∀ e n, members g !! e = Some n → no_geo_reference (nattrs n)) →
  reference_file opts = Some outName →
  truthy (ref_y (base opts)) && truthy (ref_x (base opts)) = false →
  ∃ w',
    seed_file_reference_value coord_radar2geo File outName refList
      (PInt y) (PInt x) w = (Val outName, w')
    ∧ read_seed_reference2inps float_of_str arg opts w'
      = (Val (with_base opts (set_ref (base opts) (PInt y) (PInt x))), w').
Proof.
  intros Hfile Hattr Hk Hin Hg Hempty Hlen Hout Hatr Hnodes Hrf Hmiss.
  eexists. split.
  { by apply (seed_file_reference_value_multi coord_radar2geo w File outName
                refList (PInt y) (PInt x) groups atr k g). }
  set (g' := seeded_group coord_radar2geo k atr g refList (PInt y) (PInt x)).
  set (w' := World _ _ _).
  assert (Hread : ∃ atr', read_attribute outName w' = (Val atr', w')
                          ∧ atr' !! "ref_y" = Some (PInt y)
                          ∧ atr' !! "ref_x" = Some (PInt x)
                          ∧ atr' !! "ref_lon" = None).
  { unfold read_attribute. rewrite bind_get_fs. subst w'. cbn [fs].
    rewrite lookup_insert_eq. rewrite h5_file_type_singleton.
    cbn [or_raise]. rewrite bind_ret, lookup_insert_eq. cbn [or_raise].
    rewrite bind_ret.
    destruct (decide (k = "timeseries")) as [->|Hts].
    - rewrite bool_decide_false
        by (unfold multi_group_hdf5_file; rewrite !not_elem_of_cons;
            repeat split; try discriminate; apply not_elem_of_nil).
      eexists. split; [reflexivity|].
      subst g'. unfold seeded_group. rewrite bool_decide_true by done.
      cbn [gattrs]. rewrite (right_id_L ∅ (∪)).
      destruct (seed_attributes_ref atr (PInt x) (PInt y) Hatr)
        as (Hy & Hx & Hlon).
      by rewrite !lookup_insert_ne by done.
    - rewrite bool_decide_true.
      2:{ by apply multi_epoch_multi_group. }
      assert (Hg' : members g'
                    = seeded_members g
                        (λ n r, H5Node (seed_attributes coord_radar2geo
                                          (nattrs n) (PInt x) (PInt y))
                                       (raster_sub (ndata n) r))
                        (zip (sorted (map fst (map_to_list (members g))))
                             refList) ∅).
      { subst g'. unfold seeded_group. by rewrite bool_decide_false. }
      set (epochs := sorted (map fst (map_to_list (members g)))) in *.
      assert (Hfst : (zip epochs refList).*1 = epochs).
      { apply fst_zip. unfold epochs, sorted.
        rewrite merge_sort_Permutation, length_map, length_map_to_list. lia. }
      assert (Hall : ∀ e, e ∈ (zip epochs refList).*1 → is_Some (members g !! e)).
      { intros e He. rewrite Hfst in He. by apply sorted_keys_elem. }
      assert (Hne : ∃ e0, e0 ∈ epochs).
      { destruct (read_attribute_H5 File w w groups atr Hfile Hattr)
          as (k' & g0 & Hft & Hg0 & Hk').
        rewrite Hk in Hk'. injection Hk' as <-. rewrite Hg in Hg0.
        injection Hg0 as <-.
        destruct epochs as [|e0 epochs'] eqn:Hep; [|exists e0; by left].
        exfalso. revert Hattr. unfold read_attribute.
        rewrite bind_get_fs, Hfile, Hft. cbn [or_raise]. rewrite bind_ret, Hg.
        cbn [or_raise]. rewrite bind_ret.
        rewrite bool_decide_true.
        2:{ by apply multi_epoch_multi_group. }
        fold epochs. rewrite Hep. done. }
      destruct Hne as [e0 He0].
      assert (Hin0 : is_Some (members g' !! e0)).
      { destruct (proj1 (sorted_keys_elem (members g) e0) He0) as [n0 Hn0].
        assert (He0' : e0 ∈ (zip epochs refList).*1) by (by rewrite Hfst).
        apply list_elem_of_fmap in He0' as ([e r] & -> & Her).
        apply list_elem_of_lookup in Her as [i Hi].
        rewrite Hg'. eexists.
        eapply seeded_members_in; [|exact Hi|exact Hn0].
        rewrite Hfst. apply sorted_keys_NoDup. }
      apply sorted_keys_elem in Hin0.
      destruct (sorted (map fst (map_to_list (members g')))) as [|e1 rest] eqn:Hs;
        [by apply elem_of_nil in Hin0|].
      assert (He1 : is_Some (members g' !! e1)).
      { apply sorted_keys_elem. rewrite Hs. by left. }
      destruct He1 as [n' Hn']. cbn [head or_raise]. rewrite bind_ret, Hn'.
      cbn [or_raise]. rewrite bind_ret.
      eexists. split; [reflexivity|].
      assert (He1 : e1 ∈ (zip epochs refList).*1).
      { destruct (decide (e1 ∈ (zip epochs refList).*1)) as [|Hn]; [done|].
        rewrite Hg', seeded_members_notin in Hn' by done.
        by rewrite lookup_empty in Hn'. }
      rewrite Hg' in Hn'.
      assert (Hsrc : ∃ n, members g !! e1 = Some n
                          ∧ nattrs n' = seed_attributes coord_radar2geo
                                          (nattrs n) (PInt x) (PInt y)).
      { eapply (seeded_members_attrs g _
                  (λ n n', nattrs n' = seed_attributes coord_radar2geo
                                         (nattrs n) (PInt x) (PInt y)));
          [|exact Hall|exact He1|exact Hn'].
        intros n r. reflexivity. }
      destruct Hsrc as (n & Hn & Hnat).
      rewrite Hnat.
      destruct (seed_attributes_ref (nattrs n) (PInt x) (PInt y)
                  (Hnodes e1 n Hn)) as (Hy & Hx & Hlon).
      by rewrite !lookup_insert_ne by done. }
  destruct Hread as (atr' & Hread & Hy & Hx & Hlon).
  by apply (reference_read_back outName arg opts w' atr' y x).
Qed.

End reference_info_facts.

(** ** Runs on the example files *)

Lemma missing_coherence_file_is_ignored_witness :
  main no_geo (cmdline PNone PNone (Some "nocoh.h5") random) seed_world
  = main no_geo
      (set_coherence_file (cmdline PNone PNone (Some "nocoh.h5") random) None)
      seed_world.
Proof.
  apply (missing_coherence_file_is_ignored no_geo
           (cmdline PNone PNone (Some "nocoh.h5") random) seed_world "nocoh.h5").
  - reflexivity.
  - vm_compute. reflexivity.
  - reflexivity.
Defined.

Lemma later_files_keep_the_reference_witness :
  ∃ o1 w1,
    seed_file_inps no_geo "ifg.h5" (cmdline PNone PNone None random) None
      seed_world_two
    = (Val (o1, cmdline (PInt 2) (PInt 1) None random), w1)
    ∧ truthy (PInt 2) && truthy (PInt 1) = true
    ∧ length ["Seeded_ifg.h5"; "Seeded_ifg2.h5"] = 2.
Proof.
  eapply (later_files_keep_the_reference no_geo "ifg.h5" ["ifg2.h5"]
            (cmdline PNone PNone None random)
            (cmdline (PInt 2) (PInt 1) None random) seed_world_two _
            ["Seeded_ifg.h5"; "Seeded_ifg2.h5"]).
  - discriminate.
  - vm_compute. reflexivity.
Defined.

Lemma malformed_template_yx_raises_witness :
  read_seed_template2inps
    (template_of (<["pysar.reference.yx" := "257;151"]> ∅)) no_float
    "t.txt" (cmdline_opts PNone PNone (Some "t.txt") None) seed_world
  = (Exc ValueError, seed_world).
Proof.
  apply (malformed_template_yx_raises
           (template_of (<["pysar.reference.yx" := "257;151"]> ∅)) no_float
           "t.txt" (cmdline_opts PNone PNone (Some "t.txt") None)
           seed_world seed_world (<["pysar.reference.yx" := "257;151"]> ∅)
           "257;151").
  - reflexivity.
  - vm_compute. reflexivity.
  - rewrite !not_elem_of_cons. repeat split; try discriminate.
    apply not_elem_of_nil.
  - intros y x. vm_compute. discriminate.
Defined.

Lemma template_yx_comes_first_witness :
  ∃ opts',
    read_reference_info
      (template_of (<["pysar.reference.yx" := "2, 1"]> ∅)) no_float
      (cmdline_opts (PInt 1) (PInt 2) (Some "t.txt") (Some "ifg.h5"))
      seed_world
    = (Val opts', seed_world)
    ∧ ref_y (base opts') = PInt 2 ∧ ref_x (base opts') = PInt 1.
Proof.
  eapply (template_yx_comes_first
            (template_of (<["pysar.reference.yx" := "2, 1"]> ∅)) no_float
            (cmdline_opts (PInt 1) (PInt 2) (Some "t.txt") (Some "ifg.h5"))
            seed_world seed_world "t.txt" "ifg.h5"
            (<["pysar.reference.yx" := "2, 1"]> ∅) "2, 1" 2 1
            ifgram_attrs).
  - reflexivity.
  - reflexivity.
  - reflexivity.
  - vm_compute. reflexivity.
  - rewrite !not_elem_of_cons. repeat split; try discriminate.
    apply not_elem_of_nil.
  - vm_compute. reflexivity.
  - discriminate.
  - discriminate.
  - vm_compute. reflexivity.
  - vm_compute. reflexivity.
  - vm_compute. reflexivity.
  - vm_compute. reflexivity.
Defined.

Lemma seeded_reference_reads_back_witness :
  ∃ w',
    seed_file_reference_value no_geo "ifg.h5" "out.h5" [Some 1%Q; Some 2%Q]
      (PInt 2) (PInt 1) seed_world = (Val "out.h5", w')
    ∧ read_seed_reference2inps no_float "out.h5"
        (cmdline_opts PNone PNone None (Some "out.h5")) w'
      = (Val (with_base (cmdline_opts PNone PNone None (Some "out.h5"))
                (set_ref (cmdline PNone PNone None random) (PInt 2) (PInt 1))),
         w').
Proof.
  apply (seeded_reference_reads_back no_float no_geo seed_world "ifg.h5"
           "out.h5" "out.h5" [Some 1%Q; Some 2%Q] 2 1 ifgram_3x3 ifgram_attrs
           "interferograms" ifgram_group
           (cmdline_opts PNone PNone None (Some "out.h5"))).
  - vm_compute. reflexivity.
  - vm_compute. reflexivity.
  - vm_compute. reflexivity.
  - apply ifgram_type_multi_epoch.
  - vm_compute. reflexivity.
  - vm_compute. reflexivity.
  - vm_compute. reflexivity.
  - discriminate.
  - split; vm_compute; reflexivity.
  - intros e n Hn. unfold ifgram_group in Hn. cbn [members] in Hn.
    apply lookup_insert_Some in Hn as [[_ <-]|[_ Hn]].
    + split; vm_compute; reflexivity.
    + apply lookup_insert_Some in Hn as [[_ <-]|[_ Hn]].
      * split; vm_compute; reflexivity.
      * by rewrite lookup_empty in Hn.
  - reflexivity.
  - reflexivity.
Defined.


Lemma value_mode_touches_only_the_output_witness :
  fs (seed_file_reference_value no_geo "ifg.h5" "out.h5" [Some 1%Q; Some 2%Q]
        (PInt 1) (PInt 1) seed_world).2 !! "ifg.h5"
  = fs seed_world !! "ifg.h5".
Proof.
  apply (value_mode_touches_only_the_output no_geo "ifg.h5" "out.h5"
           [Some 1%Q; Some 2%Q] (PInt 1) (PInt 1) seed_world "ifg.h5").
  rewrite not_elem_of_cons. split; [discriminate|apply not_elem_of_nil].
Defined.

Lemma seeding_touches_input_and_output_witness :
  fs (seed_file_inps no_geo "ifg.h5" (cmdline PNone PNone None random) None
        seed_world).2 !! "coh.h5"
  = fs seed_world !! "coh.h5".
Proof.
  apply (seeding_touches_input_and_output no_geo "ifg.h5"
           (cmdline PNone PNone None random) None seed_world "coh.h5").
  rewrite !not_elem_of_cons. repeat split; try discriminate.
  apply not_elem_of_nil.
Defined.
